(** * PolyFile debugger: breakpoints, variables, instrumentation, stepping

    A shallow embedding of [polyfile/debugger.py].  Python objects become
    records and inductive types, exceptions become an explicit [outcome],
    attribute stores and registries become finite maps, and code that
    threads the debugger through calls becomes state passing. *)

From Stdlib Require Import ZArith Ascii String List Bool Lia.
From stdpp Require Import gmap strings list.

Local Open Scope Z_scope.

(** ** Python builtins used by the debugger *)

Module Py.

(** The exceptions that the modelled code can raise or catch; [External]
    stands for any other exception that a test of the host engine raises. *)
Inductive exn :=
| ValueError
| AttributeError
| NameError (name : string)
| KeyError
| RecursionError
| External (tag : nat).

(** Result of evaluating a Python expression or call. *)
Inductive outcome (A : Type) :=
| Returned (a : A)
| Raised (e : exn).
Arguments Returned {A} a.
Arguments Raised {A} e.

Definition bind {A B} (m : outcome A) (k : A -> outcome B) : outcome B :=
  match m with
  | Returned a => k a
  | Raised e => Raised e
  end.

Definition returns {A} (m : outcome A) : Prop := exists a, m = Returned a.

(** [for x in xs: if f(x): return True] ... [return False], the builtin
    [any] over a generator: elements are evaluated left to right and
    evaluation stops at the first truthy one. *)
Fixpoint any (xs : list (outcome bool)) : outcome bool :=
  match xs with
  | [] => Returned false
  | x :: rest =>
      match x with
      | Raised e => Raised e
      | Returned true => Returned true
      | Returned false => any rest
      end
  end.

(** Strings are sequences of code points below 256. *)

Definition code (c : ascii) : N := N_of_ascii c.

(** [str.lower] on one code point: A-Z and the upper-case letters of the
    Latin-1 block move up by 32. *)
Definition lower_char (c : ascii) : ascii :=
  let n := code c in
  if ((65 <=? n) && (n <=? 90))%N then ascii_of_N (n + 32)
  else if ((192 <=? n) && (n <=? 222) && negb (n =? 215))%N then ascii_of_N (n + 32)
  else c.

Fixpoint lower (s : string) : string :=
  match s with
  | EmptyString => EmptyString
  | String c rest => String (lower_char c) (lower rest)
  end.

(** [str.isspace] on one code point. *)
Definition isspace (c : ascii) : bool :=
  let n := code c in
  (((9 <=? n) && (n <=? 13)) || ((28 <=? n) && (n <=? 32))
   || (n =? 133) || (n =? 160))%N.

Fixpoint lstrip (s : string) : string :=
  match s with
  | EmptyString => EmptyString
  | String c rest => if isspace c then lstrip rest else s
  end.

(** [rstrip]: a character is dropped when it is white space and nothing
    but white space follows it. *)
Fixpoint rstrip (s : string) : string :=
  match s with
  | EmptyString => EmptyString
  | String c rest =>
      match rstrip rest with
      | EmptyString => if isspace c then EmptyString else String c EmptyString
      | r => String c r
      end
  end.

Definition strip (s : string) : string := rstrip (lstrip s).

(** [s.startswith(p)] *)
Fixpoint startswith (s p : string) : bool :=
  match p, s with
  | EmptyString, _ => true
  | String _ _, EmptyString => false
  | String a p', String b s' => Ascii.eqb a b && startswith s' p'
  end.

(** [s[n:]] *)
Fixpoint slice_from (n : nat) (s : string) : string :=
  match n, s with
  | O, _ => s
  | S _, EmptyString => EmptyString
  | S n', String _ rest => slice_from n' rest
  end.

(** [sep in s] for a one-character [sep] *)
Fixpoint contains (sep : ascii) (s : string) : bool :=
  match s with
  | EmptyString => false
  | String c rest => Ascii.eqb c sep || contains sep rest
  end.

(** [s.split(sep)] for a one-character [sep]; the result is never empty. *)
Fixpoint split (sep : ascii) (s : string) : list string :=
  match s with
  | EmptyString => [EmptyString]
  | String c rest =>
      if Ascii.eqb c sep then EmptyString :: split sep rest
      else match split sep rest with
           | [] => [String c EmptyString]
           | piece :: pieces => String c piece :: pieces
           end
  end.

(** ["".join(pieces)] *)
Definition join (pieces : list string) : string :=
  fold_right String.append EmptyString pieces.

(** [bool(s)] for a string *)
Definition truthy_str (s : string) : bool :=
  match s with EmptyString => false | _ => true end.

Definition digit (c : ascii) : option Z :=
  let n := code c in
  if ((48 <=? n) && (n <=? 57))%N then Some (Z.of_N n - 48) else None.

(** The digits of an [int] literal: decimal digits, a single underscore
    allowed between two digits.  [acc] is the value read so far and
    [after_digit] tells whether the previous character was a digit. *)
Fixpoint int_digits (s : string) (acc : Z) (after_digit : bool) : option Z :=
  match s with
  | EmptyString => if after_digit then Some acc else None
  | String c rest =>
      match digit c with
      | Some d => int_digits rest (10 * acc + d) true
      | None =>
          if Ascii.eqb c "_" && after_digit then
            match rest with
            | EmptyString => None
            | String c' _ =>
                match digit c' with
                | Some _ => int_digits rest acc false
                | None => None
                end
            end
          else None
      end
  end.

(** White space as [int] reads it: the white space of the C library, and
    the two code points above 127 that the interpreter turns into a blank
    before it reads the number.  The separators 28 to 31, which
    [str.strip] drops, are not among them. *)
Definition int_isspace (c : ascii) : bool :=
  let n := code c in
  (((9 <=? n) && (n <=? 13)) || (n =? 32) || (n =? 133) || (n =? 160))%N.

Fixpoint int_lstrip (s : string) : string :=
  match s with
  | EmptyString => EmptyString
  | String c rest => if int_isspace c then int_lstrip rest else s
  end.

Fixpoint int_rstrip (s : string) : string :=
  match s with
  | EmptyString => EmptyString
  | String c rest =>
      match int_rstrip rest with
      | EmptyString => if int_isspace c then EmptyString else String c EmptyString
      | r => String c r
      end
  end.

(** The number of decimal digits in a text, underscores not counted. *)
Fixpoint count_digits (s : string) : N :=
  match s with
  | EmptyString => 0%N
  | String c rest =>
      ((match digit c with Some _ => 1 | None => 0 end) + count_digits rest)%N
  end.

(** [sys.get_int_max_str_digits()], at its default. *)
Definition int_max_str_digits : N := 4300%N.

(** [int(s)] in base ten: surrounding white space is ignored, one sign is
    accepted, anything else raises [ValueError], and so does a number with
    more digits than the interpreter converts. *)
Definition int (s : string) : outcome Z :=
  let body := int_rstrip (int_lstrip s) in
  let signed :=
    match body with
    | String "-" rest => (true, rest)
    | String "+" rest => (false, rest)
    | _ => (false, body)
    end in
  match int_digits (snd signed) 0 false with
  | Some n =>
      if (int_max_str_digits <? count_digits (snd signed))%N then Raised ValueError
      else Returned (if fst signed then - n else n)
  | None => Raised ValueError
  end.

(** The call of a Python function when the interpreter's stack has room
    for [depth] more frames: the call takes one of them, and with none
    left it raises [RecursionError].  Calls of built-in functions and
    methods are taken to need no frame. *)
Definition enter {A} (depth : nat) (body : nat -> outcome A) : outcome A :=
  match depth with
  | O => Raised RecursionError
  | S depth' => body depth'
  end.

End Py.

#[global] Instance outcome_ret : MRet Py.outcome := @Py.Returned.
#[global] Instance outcome_bind : MBind Py.outcome := fun A B k m => Py.bind m k.

Import Py.

(** ** The host engine's data, as far as the debugger reads it *)

(** [pathlib.Path] as the debugger uses it.  A path is kept as the text
    that [str(path)] gives; [path.name] is its last component, empty for
    the current directory. *)
Record Path := { path_str : string }.

Definition Path_name (p : Path) : string :=
  if String.eqb (path_str p) "." then EmptyString
  else List.last (split "/" (path_str p)) EmptyString.

(** Modelled from the spec: the source location of a test, a class of
    [polyfile/magic.py]. *)
Record SourceInfo := {
  path : Path;
  line : Z;
  original_line : option string
}.

(** Modelled from the spec: a DSL test ([MagicTest] of
    [polyfile/magic.py]), with the fields and the results of the calls
    that the debugger relies on.  [test_id] stands for the identity of the
    object, [test_class] for its class. *)
Record MagicTest := {
  test_id : nat;
  test_class : nat;
  mimetypes : gset string;
  all_extensions : gset string;
  source_info : option SourceInfo
}.

(** Modelled from the spec: a result ([TestResult] of
    [polyfile/magic.py]) is a successful outcome, possibly carrying a
    length, or a failure carrying a message. *)
Inductive TestResult :=
| MatchedTest (length : option Z)
| FailedTest (message : string).

(** [bool(result)] *)
Definition TestResult_bool (r : TestResult) : bool :=
  match r with
  | MatchedTest _ => true
  | FailedTest _ => false
  end.

(** [isinstance(result, FailedTest)] *)
Definition is_FailedTest (r : TestResult) : bool :=
  match r with
  | FailedTest _ => true
  | MatchedTest _ => false
  end.

(** Truthiness of an optional result: [None] is falsy. *)
Definition truthy_result (r : option TestResult) : bool :=
  match r with
  | None => false
  | Some r => TestResult_bool r
  end.

Definition bytes := list Byte.byte.

(** Modelled from the spec: a MIME wildcard ([Wildcard] of
    [polyfile/wildcards.py]) is a glob in which [*] stands for any run of
    characters and [?] for any one character. *)
Fixpoint Wildcard_match (pattern : string) : string -> bool :=
  match pattern with
  | EmptyString => fun s => match s with EmptyString => true | _ => false end
  | String c pattern' =>
      if Ascii.eqb c "*" then
        fix star (s : string) : bool :=
          Wildcard_match pattern' s
          || match s with
             | EmptyString => false
             | String _ s' => star s'
             end
      else if Ascii.eqb c "?" then
        fun s => match s with
                 | EmptyString => false
                 | String _ s' => Wildcard_match pattern' s'
                 end
      else
        fun s => match s with
                 | EmptyString => false
                 | String d s' => Ascii.eqb c d && Wildcard_match pattern' s'
                 end
  end.

(** Modelled from the spec: the pattern is contained in a set when at least
    one member of the set matches it. *)
Definition Wildcard_is_contained_in (pattern : string) (items : gset string) : bool :=
  existsb (Wildcard_match pattern) (elements items).

(** ** Breakpoints *)

Inductive Breakpoint :=
| FailedBreakpoint (parent : Breakpoint)
| MatchedBreakpoint (parent : Breakpoint)
| MimeBreakpoint (mimetype : string)
| ExtensionBreakpoint (ext : string)
| FileBreakpoint (filename : string) (line : Z).

(** [MimeBreakpoint.should_break]; the pattern is the one that the
    constructor parses from [mimetype].  Reading [test.mimetypes] on [None]
    raises. *)
Definition MimeBreakpoint_should_break (mimetype : string)
    (test : option MagicTest) : outcome bool :=
  match test with
  | None => Raised AttributeError
  | Some t => Returned (Wildcard_is_contained_in mimetype (mimetypes t))
  end.

(** [ExtensionBreakpoint.should_break] *)
Definition ExtensionBreakpoint_should_break (ext : string)
    (test : option MagicTest) : outcome bool :=
  match test with
  | None => Raised AttributeError
  | Some t => Returned (bool_decide (ext ∈ all_extensions t))
  end.

(** [FileBreakpoint.should_break] *)
Definition FileBreakpoint_should_break (filename : string) (line_no : Z)
    (test : option MagicTest) : outcome bool :=
  match test with
  | None => Raised AttributeError
  | Some t =>
      match source_info t with
      | None => Returned false
      | Some info =>
          if negb (line info =? line_no) then Returned false
          else if contains "/" filename then
            (* it is a file path *)
            Returned (String.eqb (path_str (path info)) filename)
          else
            (* treat it like a filename *)
            Returned (String.eqb (Path_name (path info)) filename)
      end
  end.

(** [b.should_break(test, data, absolute_offset, parent_match, result)],
    dispatched on the class of [b].  The two wrappers evaluate their guard
    first and ask the wrapped breakpoint only when it holds. *)
Fixpoint should_break (b : Breakpoint) (test : option MagicTest) (data : bytes)
    (absolute_offset : Z) (parent_match result : option TestResult) : outcome bool :=
  match b with
  | FailedBreakpoint parent =>
      if match result with None => true | Some r => is_FailedTest r end
      then should_break parent test data absolute_offset parent_match result
      else Returned false
  | MatchedBreakpoint parent =>
      if match result with None => false | Some r => negb (is_FailedTest r) end
      then should_break parent test data absolute_offset parent_match result
      else Returned false
  | MimeBreakpoint mimetype => MimeBreakpoint_should_break mimetype test
  | ExtensionBreakpoint ext => ExtensionBreakpoint_should_break ext test
  | FileBreakpoint filename line_no => FileBreakpoint_should_break filename line_no test
  end.

Section Frames.

(** The number of nested frames that a call of [Wildcard.parse] needs, its
    own included; the function is defined outside [debugger.py]. *)
Variable Wildcard_parse_frames : nat.

(** Modelled from the spec: [Wildcard.parse] accepts every pattern. *)
Definition Wildcard_parse (depth : nat) (pattern : string) : outcome unit :=
  if (Wildcard_parse_frames <=? depth)%nat then Returned tt
  else Raised RecursionError.

(** [MimeBreakpoint.__init__], which parses the pattern. *)
Definition MimeBreakpoint_init (depth : nat) (mimetype : string) : outcome Breakpoint :=
  enter depth (fun d =>
    _ ← Wildcard_parse d mimetype;
    Returned (MimeBreakpoint mimetype)).

(** [ExtensionBreakpoint.__init__] *)
Definition ExtensionBreakpoint_init (depth : nat) (ext : string) : outcome Breakpoint :=
  enter depth (fun _ => Returned (ExtensionBreakpoint ext)).

(** [FileBreakpoint.__init__] *)
Definition FileBreakpoint_init (depth : nat) (filename : string) (line_no : Z)
    : outcome Breakpoint :=
  enter depth (fun _ => Returned (FileBreakpoint filename line_no)).

(** [FailedBreakpoint.__init__] *)
Definition FailedBreakpoint_init (depth : nat) (parent : Breakpoint) : outcome Breakpoint :=
  enter depth (fun _ => Returned (FailedBreakpoint parent)).

(** [MatchedBreakpoint.__init__] *)
Definition MatchedBreakpoint_init (depth : nat) (parent : Breakpoint) : outcome Breakpoint :=
  enter depth (fun _ => Returned (MatchedBreakpoint parent)).

(** [MimeBreakpoint.parse] *)
Definition MimeBreakpoint_parse (depth : nat) (command : string)
    : outcome (option Breakpoint) :=
  enter depth (fun d =>
    if startswith (lower command) "mime:"
    then b ← MimeBreakpoint_init d (slice_from (String.length "mime:") command);
         Returned (Some b)
    else Returned None).

(** [ExtensionBreakpoint.parse] *)
Definition ExtensionBreakpoint_parse (depth : nat) (command : string)
    : outcome (option Breakpoint) :=
  enter depth (fun d =>
    if startswith (lower command) "ext:"
    then b ← ExtensionBreakpoint_init d (slice_from (String.length "ext:") command);
         Returned (Some b)
    else Returned None).

(** [FileBreakpoint.parse]: [filename, *remainder = command.split(":")],
    the pieces after the first are joined and read as one integer; a
    [ValueError] of [int] is caught. *)
Definition FileBreakpoint_parse (depth : nat) (command : string)
    : outcome (option Breakpoint) :=
  enter depth (fun d =>
    match split ":" command with
    | [] => Raised ValueError
    | filename :: remainder =>
        match remainder with
        | [] => Returned None
        | _ =>
            match int (join remainder) with
            | Raised ValueError => Returned None
            | Raised e => Raised e
            | Returned line_no =>
                if line_no <=? 0 then Returned None
                else b ← FileBreakpoint_init d filename line_no; Returned (Some b)
            end
        end
    end).

(** [BREAKPOINT_TYPES]: the classes registered by [__init_subclass__], in
    the order of their definition; the two wrappers are left out by name. *)
Definition BREAKPOINT_TYPES : list (nat -> string -> outcome (option Breakpoint)) :=
  [MimeBreakpoint_parse; ExtensionBreakpoint_parse; FileBreakpoint_parse].

(** The loop of [from_str] over the registered classes, each [parse]
    called with room for [depth] frames. *)
Fixpoint probe (depth : nat) (types : list (nat -> string -> outcome (option Breakpoint)))
    (command : string) : outcome (option Breakpoint) :=
  match types with
  | [] => Returned None
  | b_type :: rest =>
      parsed ← b_type depth command;
      match parsed with
      | Some b => Returned (Some b)
      | None => probe depth rest command
      end
  end.

(** [Breakpoint.from_str], called with room for [depth] frames.  For a
    command that starts with [!] or [=] the call goes to the wrapper's
    [parse], which calls [from_str] again on [command[1:]]: every prefix
    character costs two frames, and nothing on the way catches the
    [RecursionError] of a call that finds no room. *)
Fixpoint from_str (depth : nat) (command : string) : outcome (option Breakpoint) :=
  match depth with
  | O => Raised RecursionError
  | S d =>
      if startswith command "!" then
        (* FailedBreakpoint.parse(command) *)
        match d with
        | O => Raised RecursionError
        | S d' =>
            if negb (startswith command "!") then Returned None
            else
              parent ← from_str d' (slice_from 1 command);
              match parent with
              | Some p => b ← FailedBreakpoint_init d' p; Returned (Some b)
              | None => Returned None
              end
        end
      else if startswith command "=" then
        (* MatchedBreakpoint.parse(command) *)
        match d with
        | O => Raised RecursionError
        | S d' =>
            if negb (startswith command "=") then Returned None
            else
              parent ← from_str d' (slice_from 1 command);
              match parent with
              | Some p => b ← MatchedBreakpoint_init d' p; Returned (Some b)
              | None => Returned None
              end
        end
      else probe d BREAKPOINT_TYPES command
  end.



End Frames.

(** The number of characters [!] and [=] with which a command begins. *)
Fixpoint prefixes (command : string) : nat :=
  match command with
  | String c rest =>
      if Ascii.eqb c "!" || Ascii.eqb c "=" then S (prefixes rest) else O
  | EmptyString => O
  end.

(** ** Variables *)

(** [class Variable(Generic[T])]: the list of possibilities and the stored
    value ([Variable] is a reserved word here, hence the shorter name). *)
Record Var (T : Type) := {
  possibilities : list T;
  _value : T
}.
Arguments possibilities {T} _.
Arguments _value {T} _.

(** The setter of the property [value].  The object after the call is
    returned beside the outcome, so that a failed assignment shows what it
    left behind. *)
Definition Variable_set_value {T : Type} `{EqDecision T}
    (self : Var T) (new_value : T) : outcome unit * Var T :=
  if bool_decide (new_value ∈ possibilities self)
  then (Returned tt, {| possibilities := possibilities self; _value := new_value |})
  else (Raised ValueError, self).

(** [Variable.__init__]: the value is stored, then assigned again through
    the setter, which checks it. *)
Definition Variable_init {T : Type} `{EqDecision T}
    (possibilities : list T) (value : T) : outcome (Var T) :=
  let self := {| possibilities := possibilities; _value := value |} in
  match Variable_set_value self value with
  | (Returned _, self') => Returned self'
  | (Raised e, _) => Raised e
  end.

(** The variables that the constructor and the setter can produce. *)
Inductive Variable_reachable {T : Type} `{EqDecision T} : Var T -> Prop :=
| reachable_init (choices : list T) (value : T) (v : Var T) :
    Variable_init choices value = Returned v -> Variable_reachable v
| reachable_set (v : Var T) (new_value : T) :
    Variable_reachable v -> Variable_reachable (snd (Variable_set_value v new_value)).

(** [Variable.parse]; [str] is the conversion of a possibility to text. *)
Definition Variable_parse {T : Type} (str : T -> string)
    (self : Var T) (value : string) : outcome T :=
  let value := lower (strip value) in
  match List.find (fun p => String.eqb (lower (str p)) value) (possibilities self) with
  | Some p => Returned p
  | None => Raised ValueError
  end.

(** [str(b)] for a Boolean *)
Definition str_bool (b : bool) : string := if b then "True" else "False".

(** [BooleanVariable.__init__] *)
Definition BooleanVariable_init (value : bool) : outcome (Var bool) :=
  Variable_init [true; false] value.

(** [BooleanVariable.parse] *)
Definition BooleanVariable_parse (self : Var bool) (value : string) : outcome bool :=
  match Variable_parse str_bool self value with
  | Returned p => Returned p
  | Raised ValueError =>
      let value := lower (strip value) in
      if String.eqb value "0" || String.eqb value "f" then Returned false
      else Returned (truthy_str value)
  | Raised e => Raised e
  end.

(** ** The debugger and the objects it shares with the host engine *)

Inductive StepMode := RUNNING | SINGLE_STEPPING | NEXT.

#[global] Instance StepMode_eq_dec : EqDecision StepMode.
Proof. solve_decision. Defined.

Definition StepMode_eqb (a b : StepMode) : bool :=
  match a, b with
  | RUNNING, RUNNING | SINGLE_STEPPING, SINGLE_STEPPING | NEXT, NEXT => true
  | _, _ => false
  end.

(** A function held in the [test] attribute of a test class or in the
    [parse] attribute of a parser: the implementation that the host engine
    provides for [owner], or the wrapper that closes over the
    instrumentation object at address [record]. *)
Inductive callable :=
| Native (owner : nat)
| Hook (record : nat).

(** [class InstrumentedTest]; [test] is the instrumented class. *)
Record InstrumentedTest := {
  test : nat;
  original_test : option callable
}.

(** [class InstrumentedParser] *)
Record InstrumentedParser := {
  parser : nat;
  original_parser : option callable
}.

(** The one variable that the debugger registers under a name. *)
Inductive VarRef := break_on_submatching.

(** The attributes of a [Debugger] object, that is its [__dict__].  Lists of
    instrumentation objects hold addresses into the store below; the
    attribute [break_on_submatching] is a reference to the variable object
    kept in the store. *)
Record Debugger := {
  instrumented_tests : list nat;
  breakpoints : list Breakpoint;
  _entries : Z;
  step_mode : StepMode;
  last_command : option string;
  last_test : option MagicTest;
  last_parent_match : option TestResult;
  data : bytes;
  last_offset : Z;
  last_result : option TestResult;
  repl_test : option MagicTest;
  repl_prompt : string;
  instrumented_parsers : list nat;
  variables_by_name : gmap string VarRef;
  variable_descriptions : gmap string string;
  _pdb : option nat;
  _prev_history_length : Z
}.

(** The debugger together with the mutable objects it shares: the variable
    object, the instrumentation objects (by address, in order of creation),
    the [test] entry of each test class's own [__dict__] and the [parse]
    entry of each parser's own [__dict__]. *)
Record World := {
  dbg : Debugger;
  break_on_submatching_var : Var bool;
  test_records : list InstrumentedTest;
  parser_records : list InstrumentedParser;
  class_test : gmap nat callable;
  parser_attrs : gmap nat callable
}.

Definition with_dbg (f : Debugger -> Debugger) (w : World) : World :=
  {| dbg := f (dbg w);
     break_on_submatching_var := break_on_submatching_var w;
     test_records := test_records w;
     parser_records := parser_records w;
     class_test := class_test w;
     parser_attrs := parser_attrs w |}.

Definition set_instrumented_tests (v : list nat) (d : Debugger) : Debugger :=
  {| instrumented_tests := v; breakpoints := breakpoints d; _entries := _entries d;
     step_mode := step_mode d; last_command := last_command d; last_test := last_test d;
     last_parent_match := last_parent_match d; data := data d;
     last_offset := last_offset d; last_result := last_result d;
     repl_test := repl_test d; repl_prompt := repl_prompt d;
     instrumented_parsers := instrumented_parsers d;
     variables_by_name := variables_by_name d;
     variable_descriptions := variable_descriptions d;
     _pdb := _pdb d; _prev_history_length := _prev_history_length d |}.

Definition set_instrumented_parsers (v : list nat) (d : Debugger) : Debugger :=
  {| instrumented_tests := instrumented_tests d; breakpoints := breakpoints d;
     _entries := _entries d;
     step_mode := step_mode d; last_command := last_command d; last_test := last_test d;
     last_parent_match := last_parent_match d; data := data d;
     last_offset := last_offset d; last_result := last_result d;
     repl_test := repl_test d; repl_prompt := repl_prompt d;
     instrumented_parsers := v;
     variables_by_name := variables_by_name d;
     variable_descriptions := variable_descriptions d;
     _pdb := _pdb d; _prev_history_length := _prev_history_length d |}.

Definition set__entries (v : Z) (d : Debugger) : Debugger :=
  {| instrumented_tests := instrumented_tests d; breakpoints := breakpoints d;
     _entries := v;
     step_mode := step_mode d; last_command := last_command d; last_test := last_test d;
     last_parent_match := last_parent_match d; data := data d;
     last_offset := last_offset d; last_result := last_result d;
     repl_test := repl_test d; repl_prompt := repl_prompt d;
     instrumented_parsers := instrumented_parsers d;
     variables_by_name := variables_by_name d;
     variable_descriptions := variable_descriptions d;
     _pdb := _pdb d; _prev_history_length := _prev_history_length d |}.

(** An assignment to one of the attributes that describe the last test
    run, the last command or the test typed at the prompt. *)
Inductive assignment :=
| assign_data (v : bytes)
| assign_last_test (v : option MagicTest)
| assign_last_offset (v : Z)
| assign_last_parent_match (v : option TestResult)
| assign_last_result (v : option TestResult)
| assign_last_command (v : option string)
| assign_repl_test (v : option MagicTest)
| assign_step_mode (v : StepMode).

Definition assign (a : assignment) (d : Debugger) : Debugger :=
  {| instrumented_tests := instrumented_tests d; breakpoints := breakpoints d;
     _entries := _entries d;
     step_mode := match a with assign_step_mode v => v | _ => step_mode d end;
     last_command := match a with assign_last_command v => v | _ => last_command d end;
     last_test := match a with assign_last_test v => v | _ => last_test d end;
     last_parent_match :=
       match a with assign_last_parent_match v => v | _ => last_parent_match d end;
     data := match a with assign_data v => v | _ => data d end;
     last_offset := match a with assign_last_offset v => v | _ => last_offset d end;
     last_result := match a with assign_last_result v => v | _ => last_result d end;
     repl_test := match a with assign_repl_test v => v | _ => repl_test d end;
     repl_prompt := repl_prompt d;
     instrumented_parsers := instrumented_parsers d;
     variables_by_name := variables_by_name d;
     variable_descriptions := variable_descriptions d;
     _pdb := _pdb d; _prev_history_length := _prev_history_length d |}.

(** [Debugger.__init__], for a process whose standard error is not a
    terminal.  The variable is built by [BreakOnSubmatching.__init__]; its
    setter finds no instrumentation yet and leaves it at that. *)
Definition Debugger_init (break_on_parsing : bool) : Debugger * Var bool :=
  ({| instrumented_tests := []; breakpoints := []; _entries := 0;
      step_mode := RUNNING; last_command := None; last_test := None;
      last_parent_match := None; data := []; last_offset := 0;
      last_result := None; repl_test := None; repl_prompt := "(polyfile) ";
      instrumented_parsers := [];
      variables_by_name := {[ "break_on_parsing" := break_on_submatching ]};
      variable_descriptions :=
        {[ "break_on_parsing" :=
           "Break when a PolyFile parser is about to be invoked and debug using PDB (default=True; disable from the command line with `--no-debug-python`)" ]};
      _pdb := None; _prev_history_length := 0 |},
   {| possibilities := [true; false]; _value := break_on_parsing |}).

(** ** Stepping and breaking *)

(** A value that [Debugger.should_break] can return: a Boolean, or the
    object in [last_result] when the chain of [or] stops at it. *)
Inductive should_break_value :=
| value_bool (b : bool)
| value_result (r : option TestResult).

Definition truthy (v : should_break_value) : bool :=
  match v with
  | value_bool b => b
  | value_result r => truthy_result r
  end.

(** [Debugger.should_break] *)
Definition Debugger_should_break (d : Debugger) : outcome should_break_value :=
  if StepMode_eqb (step_mode d) SINGLE_STEPPING then Returned (value_bool true)
  else
    let second :=
      if StepMode_eqb (step_mode d) NEXT then value_result (last_result d)
      else value_bool false in
    if truthy second then Returned second
    else
      hit ← any (map (fun b => should_break b (last_test d) (data d) (last_offset d)
                                 (last_parent_match d) (last_result d))
                     (breakpoints d));
      Returned (value_bool hit).

(** ** Saving and restoring the context *)

(** [DebugContext.__enter__]: a shallow copy of the debugger's [__dict__].
    The copy holds the values bound to the attributes at that moment; the
    objects in the store are shared with it, not copied. *)
Definition DebugContext_enter (w : World) : Debugger := dbg w.

(** [DebugContext.__exit__]: the saved dictionary becomes the debugger's
    [__dict__]; the objects in the store are not touched.  The saved
    dictionary holds the attributes as they were bound at the entry, so
    every attribute that the body binds anew is bound as before.  The
    three list attributes are kept here by value: for them this agrees
    with the code when the body binds them anew, as [delete] and
    [_uninstrument] do, and not when it appends to the list in place, as
    [breakpoint] does, since the code then finds the longer list again
    behind the saved binding.  The properties below that go through a
    saved context speak of the other attributes only. *)
Definition DebugContext_exit (saved_state : Debugger) (w : World) : World :=
  with_dbg (fun _ => saved_state) w.

(** [with self.save_context(): body].  The exit runs on every path out of
    the body, and since it returns [None] an exception of the body goes on
    to the caller. *)
Definition with_save_context {A : Type} (body : World -> outcome A * World)
    (w : World) : outcome A * World :=
  let saved_state := DebugContext_enter w in
  let '(result, w') := body w in
  (result, DebugContext_exit saved_state w').

(** A statement of a body: an assignment to an attribute, or a [raise]. *)
Inductive statement :=
| Assign (a : assignment)
| Raise (e : exn).

(** Running a sequence of statements; a [raise] ends it. *)
Fixpoint run_body (body : list statement) (w : World) : outcome unit * World :=
  match body with
  | [] => (Returned tt, w)
  | Assign a :: rest => run_body rest (with_dbg (assign a) w)
  | Raise e :: _ => (Raised e, w)
  end.

(** ** Instrumentation *)

Definition set_class_test (k : nat) (f : callable) (w : World) : World :=
  {| dbg := dbg w; break_on_submatching_var := break_on_submatching_var w;
     test_records := test_records w; parser_records := parser_records w;
     class_test := <[k := f]> (class_test w); parser_attrs := parser_attrs w |}.

Definition set_parser_parse (p : nat) (f : callable) (w : World) : World :=
  {| dbg := dbg w; break_on_submatching_var := break_on_submatching_var w;
     test_records := test_records w; parser_records := parser_records w;
     class_test := class_test w; parser_attrs := <[p := f]> (parser_attrs w) |}.

Definition set_test_records (v : list InstrumentedTest) (w : World) : World :=
  {| dbg := dbg w; break_on_submatching_var := break_on_submatching_var w;
     test_records := v; parser_records := parser_records w;
     class_test := class_test w; parser_attrs := parser_attrs w |}.

Definition set_parser_records (v : list InstrumentedParser) (w : World) : World :=
  {| dbg := dbg w; break_on_submatching_var := break_on_submatching_var w;
     test_records := test_records w; parser_records := v;
     class_test := class_test w; parser_attrs := parser_attrs w |}.

Definition set_break_on_submatching_var (v : Var bool) (w : World) : World :=
  {| dbg := dbg w; break_on_submatching_var := v;
     test_records := test_records w; parser_records := parser_records w;
     class_test := class_test w; parser_attrs := parser_attrs w |}.

(** [cls.test]: the entry of the class's own [__dict__]; a class without one
    runs what it inherits, which no hook ever replaces. *)
Definition Class_test (w : World) (k : nat) : callable :=
  default (Native k) (class_test w !! k).

(** [parser.parse]: the entry of the parser's own [__dict__] when an
    assignment has made one, the method of its class otherwise. *)
Definition Parser_parse (w : World) (p : nat) : callable :=
  default (Native p) (parser_attrs w !! p).

(** [InstrumentedTest.__init__]: returns the address of the new object. *)
Definition InstrumentedTest_init (k : nat) (w : World) : nat * World :=
  let self := List.length (test_records w) in
  match class_test w !! k with
  | Some f =>
      (self,
       set_class_test k (Hook self)
         (set_test_records
            (test_records w ++ [{| test := k; original_test := Some f |}]) w))
  | None =>
      (self,
       set_test_records (test_records w ++ [{| test := k; original_test := None |}]) w)
  end.

(** [InstrumentedTest.enabled] *)
Definition InstrumentedTest_enabled (w : World) (self : nat) : bool :=
  match test_records w !! self with
  | Some r => bool_decide (is_Some (original_test r))
  | None => false
  end.

(** [InstrumentedTest.uninstrument] *)
Definition InstrumentedTest_uninstrument (self : nat) (w : World) : World :=
  match test_records w !! self with
  | None => w
  | Some r =>
      let w1 :=
        match original_test r with
        | Some f => set_class_test (test r) f w
        | None => w
        end in
      set_test_records
        (<[self := {| test := test r; original_test := None |}]> (test_records w1)) w1
  end.

(** [InstrumentedParser.__init__] *)
Definition InstrumentedParser_init (p : nat) (w : World) : nat * World :=
  let self := List.length (parser_records w) in
  (self,
   set_parser_parse p (Hook self)
     (set_parser_records
        (parser_records w
         ++ [{| parser := p; original_parser := Some (Parser_parse w p) |}]) w)).

(** [InstrumentedParser.uninstrument] *)
Definition InstrumentedParser_uninstrument (self : nat) (w : World) : World :=
  match parser_records w !! self with
  | None => w
  | Some r =>
      let w1 :=
        match original_parser r with
        | Some f => set_parser_parse (parser r) f w
        | None => w
        end in
      set_parser_records
        (<[self := {| parser := parser r; original_parser := None |}]> (parser_records w1))
        w1
  end.

(** [Debugger.enabled], the getter *)
Definition Debugger_enabled (w : World) : bool :=
  existsb (InstrumentedTest_enabled w) (instrumented_tests (dbg w)).

(** [Debugger._uninstrument] *)
Definition Debugger__uninstrument (w : World) : World :=
  let w1 := fold_left (fun w t => InstrumentedTest_uninstrument t w)
              (instrumented_tests (dbg w)) w in
  let w2 := with_dbg (set_instrumented_tests []) w1 in
  let w3 := fold_left (fun w m => InstrumentedParser_uninstrument m w)
              (instrumented_parsers (dbg w2)) w2 in
  with_dbg (set_instrumented_parsers []) w3.

Section Registry.

(** The registries of the host engine: the set [TEST_TYPES] of test classes
    and the dictionary [PARSERS] from a MIME type to the set of parsers
    registered for it. *)
Variable TEST_TYPES : gset nat.
Variable PARSERS : gmap string (gset nat).

(** The parsers in the order in which
    [for parsers in PARSERS.values(): for parser in parsers] meets them. *)
Definition parsers_in_order : list nat :=
  concat (map (fun entry => elements (snd entry)) (map_to_list PARSERS)).

(** [Debugger._instrument] *)
Definition Debugger__instrument (w : World) : World :=
  let w1 :=
    fold_left
      (fun w k =>
         if bool_decide (is_Some (class_test w !! k)) then
           let '(t, w') := InstrumentedTest_init k w in
           with_dbg (fun d => set_instrumented_tests (instrumented_tests d ++ [t]) d) w'
         else w)
      (elements TEST_TYPES) w in
  if _value (break_on_submatching_var w1) then
    fold_left
      (fun w p =>
         let '(m, w') := InstrumentedParser_init p w in
         with_dbg (fun d => set_instrumented_parsers (instrumented_parsers d ++ [m]) d) w')
      parsers_in_order w1
  else w1.

(** The setter of [Debugger.enabled], as far as the instrumentation goes.
    When enabling, the source then loads the command history and starts
    the prompt; when disabling after having been enabled, it stores the
    history.  Commands typed at the prompt are operations of their own
    below. *)
Definition Debugger_set_enabled (is_enabled : bool) (w : World) : World :=
  let w1 := Debugger__uninstrument w in
  if is_enabled then Debugger__instrument w1 else w1.

(** The setter of [value] in [BreakOnSubmatching]: the setter of [Variable],
    then, with the debugger enabled, the instrumentation is taken down and
    put up again. *)
Definition BreakOnSubmatching_set_value (new_value : bool) (w : World)
    : outcome unit * World :=
  match Variable_set_value (break_on_submatching_var w) new_value with
  | (Raised e, v) => (Raised e, set_break_on_submatching_var v w)
  | (Returned _, v) =>
      let w1 := set_break_on_submatching_var v w in
      if Debugger_enabled w1
      then (Returned tt, Debugger__instrument (Debugger__uninstrument w1))
      else (Returned tt, w1)
  end.

(** [Debugger.__enter__] *)
Definition Debugger_enter (w : World) : World :=
  let w1 := with_dbg (fun d => set__entries (_entries d + 1) d) w in
  if _entries (dbg w1) =? 1 then Debugger_set_enabled true w1 else w1.

(** [Debugger.__exit__] *)
Definition Debugger_exit (w : World) : World :=
  let w1 := with_dbg (fun d => set__entries (_entries d - 1) d) w in
  if _entries (dbg w1) =? 0 then Debugger_set_enabled false w1 else w1.

(** What can be done to the instrumentation from outside: assigning
    [enabled], entering and leaving the debugger as a context manager, and
    assigning the variable [break_on_parsing] (the [set] command). *)
Inductive operation :=
| op_set_enabled (is_enabled : bool)
| op_enter
| op_exit
| op_set_break_on_parsing (new_value : bool).

Definition run_operation (o : operation) (w : World) : World :=
  match o with
  | op_set_enabled b => Debugger_set_enabled b w
  | op_enter => Debugger_enter w
  | op_exit => Debugger_exit w
  | op_set_break_on_parsing b => snd (BreakOnSubmatching_set_value b w)
  end.

Definition run_operations (ops : list operation) (w : World) : World :=
  fold_left (fun w o => run_operation o w) ops w.

End Registry.

(** The objects listed in [l] are in place over the functions [base]: each
    holds the function that [base] has for its class, the class holds the
    object's wrapper, and a class that no listed object instruments holds
    what [base] has for it. *)
Definition tests_linked (base : gmap nat callable) (l : list nat) (w : World) : Prop :=
  NoDup l
  /\ (forall a, a ∈ l ->
      exists k f,
        test_records w !! a = Some {| test := k; original_test := Some f |}
        /\ class_test w !! k = Some (Hook a)
        /\ base !! k = Some f)
  /\ (forall k,
      (forall a r, a ∈ l -> test_records w !! a = Some r -> test r <> k) ->
      class_test w !! k = base !! k).

(** The same for parsers, [base] giving the [parse] function that each
    parser had to begin with. *)
Definition parsers_linked (base : nat -> callable) (l : list nat) (w : World) : Prop :=
  NoDup l
  /\ (forall a, a ∈ l ->
      exists p,
        parser_records w !! a = Some {| parser := p; original_parser := Some (base p) |}
        /\ parser_attrs w !! p = Some (Hook a))
  /\ (forall p,
      (forall a r, a ∈ l -> parser_records w !! a = Some r -> parser r <> p) ->
      Parser_parse w p = base p).

(** The instrumentation of [w] is well formed over the functions that the
    classes and the parsers had before the debugger touched them. *)
Definition well_instrumented (tests0 : gmap nat callable) (parsers0 : nat -> callable)
    (w : World) : Prop :=
  tests_linked tests0 (instrumented_tests (dbg w)) w
  /\ (forall a, a ∈ instrumented_tests (dbg w) -> (a < List.length (test_records w))%nat)
  /\ parsers_linked parsers0 (instrumented_parsers (dbg w)) w
  /\ (forall a, a ∈ instrumented_parsers (dbg w) ->
        (a < List.length (parser_records w))%nat).

(** A debugger fresh from its constructor, in a host whose classes and
    parsers hold [classes] and [attrs]. *)
Definition fresh_world (break_on_parsing : bool) (classes attrs : gmap nat callable)
    : World :=
  {| dbg := fst (Debugger_init break_on_parsing);
     break_on_submatching_var := snd (Debugger_init break_on_parsing);
     test_records := []; parser_records := [];
     class_test := classes; parser_attrs := attrs |}.

(** ** The hook around a test *)

(** [self.repl_test is test]: identity of objects. *)
Definition is_same_test (a : option MagicTest) (b : MagicTest) : bool :=
  match a with
  | Some t => Nat.eqb (test_id t) (test_id b)
  | None => false
  end.

(** The five assignments by which [debug] records a call. *)
Definition record_call (t : MagicTest) (input : bytes) (absolute_offset : Z)
    (parent_match result : option TestResult) (w : World) : World :=
  with_dbg
    (fun d =>
       assign (assign_last_parent_match parent_match)
         (assign (assign_last_offset absolute_offset)
            (assign (assign_data input)
               (assign (assign_last_test (Some t))
                  (assign (assign_last_result result) d)))))
    w.

Section Engine.

(** The test functions of the host engine, one per class.  A test may run
    other tests, which come back to the debugger, so an implementation
    takes the world and gives back the world it leaves. *)
Variable native_test :
  nat -> MagicTest -> bytes -> Z -> option TestResult -> World ->
  outcome (option TestResult) * World.

(** The prompt: it reads commands until one of them resumes the run. *)
Variable repl : World -> outcome unit * World.

(** [Debugger.debug]; [call] runs a function value on the arguments of a
    test.  An address outside the store stands for no object, a case that
    the wrapper of a stored object never meets. *)
Definition Debugger_debug
    (call : callable -> MagicTest -> bytes -> Z -> option TestResult -> World ->
            outcome (option TestResult) * World)
    (instrumented_test : nat) (t : MagicTest) (input : bytes) (absolute_offset : Z)
    (parent_match : option TestResult) (w : World)
    : outcome (option TestResult) * World :=
  match test_records w !! instrumented_test with
  | None => (Raised AttributeError, w)
  | Some r =>
      let f :=
        match original_test r with
        | None => Class_test w (test r)
        | Some f => f
        end in
      match call f t input absolute_offset parent_match w with
      | (Raised e, w1) => (Raised e, w1)
      | (Returned result, w1) =>
          if is_same_test (repl_test (dbg w1)) t then
            (* this is a one-off test run from the REPL, so do not save its results *)
            (Returned result, w1)
          else
            let w2 := record_call t input absolute_offset parent_match result w1 in
            match Debugger_should_break (dbg w2) with
            | Raised e => (Raised e, w2)
            | Returned v =>
                if truthy v then
                  match repl w2 with
                  | (Raised e, w3) => (Raised e, w3)
                  | (Returned _, w3) => (Returned (last_result (dbg w3)), w3)
                  end
                else (Returned (last_result (dbg w2)), w2)
            end
      end
  end.

(** Calling a function value.  The wrapper installed by [InstrumentedTest]
    passes the call to [Debugger.debug]; [depth] is the room left on the
    interpreter's stack. *)
Fixpoint call_test (depth : nat) (f : callable) (t : MagicTest) (input : bytes)
    (absolute_offset : Z) (parent_match : option TestResult) (w : World)
    : outcome (option TestResult) * World :=
  match f with
  | Native k => native_test k t input absolute_offset parent_match w
  | Hook r =>
      match depth with
      | O => (Raised RecursionError, w)
      | S depth' =>
          Debugger_debug (call_test depth') r t input absolute_offset parent_match w
      end
  end.

(** [t.test(input, absolute_offset, parent_match)] as the host engine calls
    it: the function is looked up in the class of [t]. *)
Definition MagicTest_test (depth : nat) (t : MagicTest) (input : bytes)
    (absolute_offset : Z) (parent_match : option TestResult) (w : World)
    : outcome (option TestResult) * World :=
  call_test depth (Class_test w (test_class t)) t input absolute_offset parent_match w.

(** Whether [debug] goes to the prompt once the test has returned [result]
    in world [w1]. *)
Definition enters_repl (t : MagicTest) (input : bytes) (absolute_offset : Z)
    (parent_match result : option TestResult) (w1 : World) : bool :=
  negb (is_same_test (repl_test (dbg w1)) t)
  && match Debugger_should_break
             (dbg (record_call t input absolute_offset parent_match result w1)) with
     | Returned v => truthy v
     | Raised _ => false
     end.

End Engine.

(** ** Reading a command at the prompt *)

(** [s.find(" ")] *)
Fixpoint find_space (s : string) : option nat :=
  match s with
  | EmptyString => None
  | String c rest =>
      if Ascii.eqb c " " then Some O else option_map S (find_space rest)
  end.

(** [s[:n]] *)
Fixpoint slice_to (n : nat) (s : string) : string :=
  match n, s with
  | O, _ => EmptyString
  | S _, EmptyString => EmptyString
  | S n', String c rest => String c (slice_to n' rest)
  end.

(** The command and its arguments, as [repl] cuts a line that is not
    empty. *)
Definition split_command (text : string) : string * string :=
  let command := lstrip text in
  match find_space command with
  | Some space_index =>
      if (0 <? space_index)%nat
      then (slice_to space_index command, strip (slice_from (S space_index) command))
      else (command, EmptyString)
  | None => (command, EmptyString)
  end.

(** The branches of the chain of [if] and [elif] in [repl]. *)
Inductive branch :=
| branch_help | branch_continue | branch_step | branch_next | branch_quit
| branch_delete | branch_test | branch_breakpoint | branch_print
| branch_where | branch_set | branch_show | branch_undefined.

(** The branch chosen for a command: most commands are recognised by any
    prefix, [set] and [show] only in full. *)
Definition repl_branch (command : string) : branch :=
  if startswith "help" command then branch_help
  else if startswith "continue" command || startswith "run" command then branch_continue
  else if startswith "step" command then branch_step
  else if startswith "next" command then branch_next
  else if startswith "quit" command then branch_quit
  else if startswith "delete" command then branch_delete
  else if startswith "test" command then branch_test
  else if startswith "breakpoint" command then branch_breakpoint
  else if startswith "print" command then branch_print
  else if startswith "where" command || startswith "info stack" command
          || startswith "backtrace" command then branch_where
  else if String.eqb command "set" then branch_set
  else if String.eqb command "show" then branch_show
  else branch_undefined.

(** ** The command [show] of the prompt *)

(** [s.split()]: the maximal runs of characters that are not white space. *)
Fixpoint words (s : string) : list string :=
  match s with
  | EmptyString => []
  | String c rest =>
      if isspace c then words rest
      else
        match rest with
        | EmptyString => [String c EmptyString]
        | String c' _ =>
            if isspace c' then String c EmptyString :: words rest
            else match words rest with
                 | [] => [String c EmptyString]
                 | word :: others => String c word :: others
                 end
        end
  end.

Definition newline : string := String "010"%char EmptyString.

(** [var.value] for a registered variable *)
Definition variable_value (w : World) (ref : VarRef) : bool :=
  match ref with
  | break_on_submatching => _value (break_on_submatching_var w)
  end.

(** [self.variable_descriptions[name]] *)
Definition describe_variable (w : World) (name : string) : outcome string :=
  match variable_descriptions (dbg w) !! name with
  | Some text => Returned text
  | None => Raised KeyError
  end.

(** Writing the lines of each variable in turn, as the two loops over
    [self.variables_by_name.items()] do; [lines] gives the messages written
    before the description of one variable, [index] counts the items. *)
Fixpoint show_items (w : World) (lines : nat -> string -> VarRef -> list string)
    (closing : list string) (index : nat) (items : list (string * VarRef))
    : outcome unit * list string :=
  match items with
  | [] => (Returned tt, [])
  | (name, ref) :: rest =>
      match describe_variable w name with
      | Raised e => (Raised e, lines index name ref)
      | Returned text =>
          let '(o, written) := show_items w lines closing (S index) rest in
          (o, lines index name ref ++ [text] ++ closing ++ written)
      end
  end.

(** The branch [elif command == "show"] of [Debugger.repl]: the outcome of
    the branch and the messages passed to [self.write], in order.  In the
    last case the third message is computed from the name
    [variables_by_name], which is bound neither in [repl] nor at module
    level (the dictionary is the attribute [self.variables_by_name]), so
    its evaluation raises [NameError] after two messages are out. *)
Definition repl_show (args : string) (w : World) : outcome unit * list string :=
  let parsed := words (strip args) in
  if (2 <? List.length parsed)%nat then
    let '(o, written) :=
      show_items w
        (fun _ name _ => [newline +:+ "    " +:+ name +:+ newline +:+ "    "])
        [newline] 0%nat (map_to_list (variables_by_name (dbg w))) in
    (o, ["Usage: "; "show"; " VARIABLE" +:+ newline +:+ newline;
         "Options:" +:+ newline] ++ written)
  else
    match parsed with
    | [] =>
        show_items w
          (fun i name ref =>
             (if (0 <? i)%nat then [newline] else [])
             ++ [name; " = "; str_bool (variable_value w ref); newline])
          [newline] 0%nat (map_to_list (variables_by_name (dbg w)))
    | name :: _ =>
        match variables_by_name (dbg w) !! name with
        | None => (Returned tt, ["Error: Unknown variable "; name; newline])
        | Some _ => (Raised (NameError "variables_by_name"), [name; " = "])
        end
    end.

(** ** Numbers as text *)

(** The digits of [n] in [base], most significant first, in front of
    [acc]; [fuel] bounds the number of digits. *)
Fixpoint digits (base : N) (digit : N -> ascii) (fuel : nat) (n : N) (acc : string)
    : string :=
  match fuel with
  | O => acc
  | S fuel' =>
      let acc' := String (digit (n mod base)%N) acc in
      if (n / base =? 0)%N then acc' else digits base digit fuel' (n / base)%N acc'
  end.

Definition hex_digit_upper (n : N) : ascii :=
  ascii_of_N (if (n <? 10)%N then 48 + n else 55 + n)%N.

Definition hex_digit_lower (n : N) : ascii :=
  ascii_of_N (if (n <? 10)%N then 48 + n else 87 + n)%N.

Definition decimal_digit (n : N) : ascii := ascii_of_N (48 + n)%N.

(** [f"{z:02X}"]: upper-case hexadecimal, padded with a zero to two
    characters, the sign of a negative number counting as one. *)
Definition format_02X (z : Z) : string :=
  let body := digits 16 hex_digit_upper (S (N.to_nat (N.log2 (Z.abs_N z)))) (Z.abs_N z)
                EmptyString in
  if z <? 0 then String "-" body
  else if (String.length body <? 2)%nat then String "0" body
  else body.

(** [str(z)] for an integer *)
Definition str_int (z : Z) : string :=
  let body := digits 10 decimal_digit (S (N.to_nat (N.log2 (Z.abs_N z)))) (Z.abs_N z)
                EmptyString in
  if z <? 0 then String "-" body else body.

(** [c * n] for a one-character string [c] *)
Fixpoint repeat_char (c : ascii) (n : nat) : string :=
  match n with
  | O => EmptyString
  | S n' => String c (repeat_char c n')
  end.

(** ** Escaping bytes *)

(** [string_escape] on an integer *)
Definition string_escape_int (data : Z) : string :=
  if data =? 10 then "\n"
  else if data =? 9 then "\t"
  else if data =? 13 then "\r"
  else if data =? 0 then "\0"
  else if data =? 92 then "\\"
  else if (32 <=? data) && (data <=? 126) then
    String (ascii_of_N (Z.to_N data)) EmptyString
  else String "\" (String "x" (format_02X data)).

(** The integer that iterating over [bytes] gives for one of its items. *)
Definition byte_value (b : Byte.byte) : Z := Z.of_N (Byte.to_N b).

(** [string_escape] on [bytes] *)
Definition string_escape (data : bytes) : string :=
  join (map (fun d => string_escape_int (byte_value d)) data).

(** Printable ASCII: the codes 32 to 126. *)
Definition is_printable (c : ascii) : bool :=
  ((32 <=? code c) && (code c <=? 126))%N.

Fixpoint string_forallb (f : ascii -> bool) (s : string) : bool :=
  match s with
  | EmptyString => true
  | String c rest => f c && string_forallb f rest
  end.

Definition hex_value (c : ascii) : option N :=
  let n := code c in
  if ((48 <=? n) && (n <=? 57))%N then Some (n - 48)%N
  else if ((65 <=? n) && (n <=? 70))%N then Some (n - 55)%N
  else None.

(** Reading back the escape of one byte from the front of a text. *)
Definition string_unescape_one (s : string) : option (Byte.byte * string) :=
  match s with
  | EmptyString => None
  | String c rest =>
      if Ascii.eqb c "\" then
        match rest with
        | EmptyString => None
        | String k rest' =>
            if Ascii.eqb k "n" then Some (Byte.x0a, rest')
            else if Ascii.eqb k "t" then Some (Byte.x09, rest')
            else if Ascii.eqb k "r" then Some (Byte.x0d, rest')
            else if Ascii.eqb k "0" then Some (Byte.x00, rest')
            else if Ascii.eqb k "\" then Some (Byte.x5c, rest')
            else if Ascii.eqb k "x" then
              match rest' with
              | String h (String l rest'') =>
                  match hex_value h, hex_value l with
                  | Some a, Some b =>
                      match Byte.of_N (16 * a + b) with
                      | Some v => Some (v, rest'')
                      | None => None
                      end
                  | _, _ => None
                  end
              | _ => None
              end
            else None
        end
      else
        match Byte.of_N (code c) with
        | Some v => Some (v, rest)
        | None => None
        end
  end.

(** ** Styled text *)

Inductive ANSIColor := BLACK | RED | GREEN | YELLOW | BLUE | MAGENTA | CYAN | WHITE.

Definition ANSIColor_value (c : ANSIColor) : Z :=
  match c with
  | BLACK => 30 | RED => 31 | GREEN => 32 | YELLOW => 33
  | BLUE => 34 | MAGENTA => 35 | CYAN => 36 | WHITE => 37
  end.

Definition ESC : ascii := "027"%char.
Definition SOH : ascii := "001"%char.
Definition STX : ascii := "002"%char.

(** [ANSIColor.to_code] *)
Definition ANSIColor_to_code (c : ANSIColor) : string :=
  String ESC (String "[" (str_int (ANSIColor_value c) +:+ "m")).

(** The style arguments of [format] and [write]. *)
Record style := {
  bold : bool;
  dim : bool;
  color : option ANSIColor
}.

Definition plain : style := {| bold := false; dim := false; color := None |}.

(** The list [prefixes] that [format] builds from the style. *)
Definition style_prefixes (s : style) : list string :=
  (if bold s && negb (dim s) then [String ESC "[1m"]
   else if dim s && negb (bold s) then [String ESC "[2m"]
   else [])
  ++ match color s with
     | Some c => [ANSIColor_to_code c]
     | None => []
     end.

(** [ANSIWriter.format] *)
Definition ANSIWriter_format (message : string) (s : style) (escape_for_readline : bool)
    : string :=
  match style_prefixes s with
  | [] => message
  | prefixes =>
      if escape_for_readline then
        String SOH (join prefixes +:+ String STX (message +:+ String SOH
          (String ESC ("[0m" +:+ String STX EmptyString))))
      else join prefixes +:+ message +:+ String ESC "[0m"
  end.

(** [class ANSIWriter]; [buffer] is the text written so far. *)
Record ANSIWriter := {
  use_ansi : bool;
  escape_for_readline : bool;
  buffer : string
}.

(** [ANSIWriter.__init__] *)
Definition ANSIWriter_init (use_ansi escape_for_readline : bool) : ANSIWriter :=
  {| use_ansi := use_ansi; escape_for_readline := escape_for_readline;
     buffer := EmptyString |}.

(** [ANSIWriter.write]; [escape] is the optional argument
    [escape_for_readline]. *)
Definition ANSIWriter_write (self : ANSIWriter) (message : string) (s : style)
    (escape : option bool) : ANSIWriter :=
  {| use_ansi := use_ansi self;
     escape_for_readline := escape_for_readline self;
     buffer :=
       buffer self
       +:+ (if use_ansi self
            then ANSIWriter_format message s (default (escape_for_readline self) escape)
            else message) |}.

(** [Debugger.write] for a text message: what goes to the standard output,
    which is a terminal or not. *)
Definition Debugger_write (stdout_isatty : bool) (message : string) (s : style) : string :=
  if stdout_isatty then ANSIWriter_format message s false else message.

(** What a terminal shows of a text: a control sequence, from the escape
    character to the letter that ends it, and the two markers for the line
    editor show nothing. *)
Fixpoint visible_from (in_sequence : bool) (text : string) : string :=
  match text with
  | EmptyString => EmptyString
  | String c rest =>
      if in_sequence then
        visible_from (negb (Ascii.eqb c "m")) rest
      else if Ascii.eqb c ESC then visible_from true rest
      else if Ascii.eqb c SOH || Ascii.eqb c STX then visible_from false rest
      else String c (visible_from false rest)
  end.

Definition visible (text : string) : string := visible_from false text.

(** The width that the line editor gives a prompt.  The first marker
    starts a stretch that is not counted and the second marker ends it;
    every other character outside such a stretch counts, a second marker
    that ends nothing included. *)
Fixpoint readline_width_from (hidden : bool) (text : string) : nat :=
  match text with
  | EmptyString => O
  | String c rest =>
      if hidden then
        readline_width_from (negb (Ascii.eqb c STX)) rest
      else if Ascii.eqb c SOH then readline_width_from true rest
      else S (readline_width_from false rest)
  end.

Definition readline_width (text : string) : nat := readline_width_from false text.

(** Whether the terminal is inside a control sequence after [text]. *)
Fixpoint sequence_state (in_sequence : bool) (text : string) : bool :=
  match text with
  | EmptyString => in_sequence
  | String c rest =>
      if in_sequence then sequence_state (negb (Ascii.eqb c "m")) rest
      else if Ascii.eqb c ESC then sequence_state true rest
      else sequence_state false rest
  end.

(** Whether the line editor is between the two markers after [text]. *)
Fixpoint hidden_state (hidden : bool) (text : string) : bool :=
  match text with
  | EmptyString => hidden
  | String c rest =>
      if Ascii.eqb c SOH then hidden_state true rest
      else if Ascii.eqb c STX then hidden_state false rest
      else hidden_state hidden rest
  end.

(** A text without escape character and without markers. *)
Definition is_plain_text (text : string) : bool :=
  negb (contains ESC text || contains SOH text || contains STX text).

(** ** The window of bytes around an offset *)

(** [l[start:stop]] with Python's reading of indices: a negative index
    counts from the end, and indices beyond either end are cut. *)
Definition py_slice {A : Type} (l : list A) (start stop : Z) : list A :=
  let n := Z.of_nat (List.length l) in
  let norm := fun i => if i <? 0 then Z.max (i + n) 0 else Z.min i n in
  List.firstn (Z.to_nat (norm stop - norm start)) (List.skipn (Z.to_nat (norm start)) l).

(** The three slices that [print_context] takes. *)
Definition context_slices (input : bytes) (offset context_bytes num_bytes : Z)
    : bytes * bytes * bytes :=
  let bytes_before := Z.min offset context_bytes in
  (py_slice input (offset - bytes_before) offset,
   py_slice input offset (offset + num_bytes),
   py_slice input (offset + num_bytes) (offset + num_bytes + context_bytes)).

(** [Debugger.print_context]: the messages written, in order. *)
Definition print_context (input : bytes) (offset context_bytes num_bytes : Z)
    : list string :=
  let '(before, current, after) := context_slices input offset context_bytes num_bytes in
  let context_before := string_escape before in
  let current_byte := string_escape current in
  let context_after := string_escape after in
  [context_before; current_byte; context_after; newline;
   repeat_char " " (String.length context_before);
   repeat_char "^" (String.length current_byte);
   repeat_char " " (String.length context_after) +:+ newline].

(** ** Asking a question *)

(** The answer to a question, or the [KeyboardInterrupt] that the end of
    the input turns into. *)
Inductive prompted :=
| Answer (b : bool)
| Interrupt.

Definition style_of (b d : bool) (c : option ANSIColor) : style :=
  {| bold := b; dim := d; color := c |}.

(** The text that [prompt] hands to [input]. *)
Definition prompt_text (stderr_isatty : bool) (message : string) (default : bool)
    : string :=
  let b0 := ANSIWriter_init stderr_isatty true in
  let b1 := ANSIWriter_write b0 (message +:+ " ") (style_of true false None) None in
  let b2 := ANSIWriter_write b1 "[" (style_of false true None) None in
  let b3 :=
    if default then
      ANSIWriter_write
        (ANSIWriter_write b2 "Y" (style_of true false (Some GREEN)) None)
        "n" (style_of false true (Some RED)) None
    else
      ANSIWriter_write
        (ANSIWriter_write b2 "y" (style_of false true (Some GREEN)) None)
        "N" (style_of true false (Some RED)) None in
  buffer (ANSIWriter_write b3 "] " (style_of false true None) None).

(** [Debugger.prompt] on the lines still to come from the standard input:
    the answer, the lines left, and the prompts shown.  Without a line
    left, [input] raises [EOFError]. *)
Fixpoint Debugger_prompt (stderr_isatty : bool) (message : string) (default : bool)
    (stdin : list string) : prompted * list string * list string :=
  let text := prompt_text stderr_isatty message default in
  match stdin with
  | [] => (Interrupt, [], [text])
  | line :: rest =>
      let answer := lower (strip line) in
      if negb (truthy_str answer) then (Answer default, rest, [text])
      else if String.eqb answer "n" then (Answer false, rest, [text])
      else if String.eqb answer "y" then (Answer true, rest, [text])
      else
        let '(result, rest', shown) :=
          Debugger_prompt stderr_isatty message default rest in
        (result, rest', text :: shown)
  end.

(** ** The hook around a parser *)

Definition set__pdb (v : option nat) (d : Debugger) : Debugger :=
  {| instrumented_tests := instrumented_tests d; breakpoints := breakpoints d;
     _entries := _entries d;
     step_mode := step_mode d; last_command := last_command d; last_test := last_test d;
     last_parent_match := last_parent_match d; data := data d;
     last_offset := last_offset d; last_result := last_result d;
     repl_test := repl_test d; repl_prompt := repl_prompt d;
     instrumented_parsers := instrumented_parsers d;
     variables_by_name := variables_by_name d;
     variable_descriptions := variable_descriptions d;
     _pdb := v; _prev_history_length := _prev_history_length d |}.

(** How a generator ends: it is exhausted, it raises, or a question met
    the end of the input ([KeyboardInterrupt]). *)
Inductive gen_end :=
| Exhausted
| Failed (e : exn)
| Interrupted.

Section Parsing.

(** Matches and submatches of the host engine, and what the debugger reads
    from them and from a parser. *)
Variable Match : Type.
Variable match_class_name : Match -> string.
Variable match_offset : Match -> Z.
Variable parser_str : nat -> string.

(** What the debugger shows besides text. *)
Inductive event :=
| ev_write (text : string)
| ev_print_match (m : Match)
| ev_print_location
| ev_prompt (text : string).

(** What [next] on a generator gives: an item, with the generator as it
    is suspended after it, or the end of the generator. *)
Inductive resumed (G : Type) :=
| Yielded (item : Match) (g : G)
| Ended (e : gen_end).
Arguments Yielded {G} item g.
Arguments Ended {G} e.

(** The outcome of [next] together with what was shown meanwhile, the
    lines left on the standard input and the world it leaves. *)
Definition resumption (G : Type) : Type :=
  resumed G * list event * list string * World.

(** The generators of the host engine.  [native_parse p m] is the
    generator that the [parse] method of parser [p] returns for the match
    [m]; nothing of it has run yet.  [host_next] resumes a generator: the
    parser runs until its next [yield], in the world and with the input it
    finds at that moment; it may run tests, which come back to the
    debugger. *)
Variable HostGen : Type.
Variable native_parse : nat -> Match -> HostGen.
Variable host_next : HostGen -> World -> list string -> resumption HostGen.

(** A generator: one of the host, the generator of the wrapper that
    [InstrumentedParser] installs, or the generator of [debug_parse] at
    one of the places where it can be suspended.  [fresh] is the
    generator of [debug_parse] before its first [next]; [passing] is a
    generator that does nothing but [yield from inner]: the wrapper, and
    [debug_parse] inside one of the two [yield from parse(...)] that come
    before the [try]; [stepping] is at the [yield result] of the [while]
    loop; [printing] is at the [yield] of [for result in generator];
    [finishing] is inside [yield from generator]. *)
Inductive Gen :=
| host (g : HostGen)
| fresh (instrumented_parser : nat) (the_match : Match)
| passing (inner : Gen)
| stepping (the_match : Match) (inner : Gen)
| printing (inner : Gen)
| finishing (inner : Gen).

(** The generator is inside the [try] of [debug_parse]. *)
Definition in_session (g : Gen) : bool :=
  match g with
  | stepping _ _ | printing _ | finishing _ => true
  | _ => false
  end.

(** [self._pdb.runcall(next, generator)]: the source-level debugger runs
    the call, reading what commands it wants from the standard input.  It
    gives what the call gives, or [None] when the user quits it. *)
Variable Pdb_runcall :
  (World -> list string -> resumption Gen) -> World -> list string ->
  option (resumed Gen) * list event * list string * World.

Variable stderr_isatty : bool.

(** The question that [debug_parse] asks first. *)
Definition debug_question : string :=
  let b0 := ANSIWriter_init stderr_isatty true in
  let b1 := ANSIWriter_write b0 "Debug using PDB? " plain None in
  let b2 := ANSIWriter_write b1 "(disable this prompt with `" (style_of false true None)
              None in
  let b3 := ANSIWriter_write b2 "set " (style_of false false (Some BLUE)) None in
  let b4 := ANSIWriter_write b3 "break_on_parsing " (style_of false false (Some GREEN))
              None in
  let b5 := ANSIWriter_write b4 "False" (style_of false false (Some CYAN)) None in
  buffer (ANSIWriter_write b5 "`)" (style_of false true None) None).

(** Calling the function held in a parser's [parse] attribute gives a
    generator.  The wrapper installed by [InstrumentedParser] is a
    generator function of its own, whose body is
    [yield from self.debugger.debug_parse(...)]. *)
Definition start (f : callable) (the_match : Match) : Gen :=
  match f with
  | Native p => host (native_parse p the_match)
  | Hook r => passing (fresh r the_match)
  end.

(** The [finally] clause of [debug_parse]. *)
Definition release (w : World) : World := with_dbg (set__pdb None) w.

(** [yield from inner] with nothing after it, resumed. *)
Definition yield_from (next : Gen -> World -> list string -> resumption Gen)
    (inner : Gen) (w : World) (stdin : list string) : resumption Gen :=
  let '(res, log, stdin1, w1) := next inner w stdin in
  (match res with
   | Yielded item inner' => Yielded item (passing inner')
   | Ended e => Ended e
   end,
   log, stdin1, w1).

(** One round of the [while] loop of [debug_parse], from its top to the
    [yield] or to the end of the generator. *)
Definition pdb_round (next : Gen -> World -> list string -> resumption Gen)
    (the_match : Match) (inner : Gen) (w : World) (stdin : list string)
    : resumption Gen :=
  match Pdb_runcall (next inner) w stdin with
  | (Some (Yielded result inner'), log, stdin1, w1) =>
      (Yielded result (stepping the_match inner'),
       log ++ [ev_write ("Got a submatch:" +:+ newline); ev_print_match result],
       stdin1, w1)
  | (Some (Ended Exhausted), log, stdin1, w1) =>
      (Ended Exhausted,
       log ++ [ev_write ("Yielded all submatches from " +:+ match_class_name the_match
                         +:+ " at offset " +:+ str_int (match_offset the_match)
                         +:+ "." +:+ newline)],
       stdin1, release w1)
  | (Some (Ended other), log, stdin1, w1) => (Ended other, log, stdin1, release w1)
  | (None, log, stdin1, w1) =>
      (* print_match(None) *)
      (Ended (Failed AttributeError),
       log ++ [ev_write ("Got a submatch:" +:+ newline)], stdin1, release w1)
  end.

(** [for result in generator: self.print_match(result); yield result],
    resumed. *)
Definition print_rest (next : Gen -> World -> list string -> resumption Gen)
    (inner : Gen) (w : World) (stdin : list string) : resumption Gen :=
  match next inner w stdin with
  | (Yielded result inner', log, stdin1, w1) =>
      (Yielded result (printing inner'), log ++ [ev_print_match result], stdin1, w1)
  | (Ended e, log, stdin1, w1) => (Ended e, log, stdin1, release w1)
  end.

(** [yield from generator] inside the [try], resumed. *)
Definition finish (next : Gen -> World -> list string -> resumption Gen)
    (inner : Gen) (w : World) (stdin : list string) : resumption Gen :=
  match next inner w stdin with
  | (Yielded result inner', log, stdin1, w1) =>
      (Yielded result (finishing inner'), log, stdin1, w1)
  | (Ended e, log, stdin1, w1) => (Ended e, log, stdin1, release w1)
  end.

(** [Debugger.debug_parse] from its first line to its first [yield] or to
    its end; [next] resumes a generator from inside this one. *)
Definition Debugger_debug_parse
    (next : Gen -> World -> list string -> resumption Gen)
    (instrumented_parser : nat) (the_match : Match) (w : World) (stdin : list string)
    : resumption Gen :=
  match parser_records w !! instrumented_parser with
  | None => (Ended (Failed AttributeError), [], stdin, w)
  | Some r =>
      let parse :=
        match original_parser r with
        | None => Parser_parse w (parser r)
        | Some f => f
        end in
      match _pdb (dbg w) with
      | Some _ =>
          (* We are already debugging! *)
          let '(res, log, stdin1, w1) :=
            yield_from next (start parse the_match) w stdin in
          (res,
           [ev_print_location;
            ev_write ("Parsing for submatches using " +:+ parser_str (parser r)
                      +:+ "." +:+ newline)] ++ log,
           stdin1, w1)
      | None =>
          let intro :=
            [ev_print_match the_match; ev_print_location;
             ev_write ("About to parse for submatches using "
                       +:+ parser_str (parser r) +:+ "." +:+ newline)] in
          match Debugger_prompt stderr_isatty debug_question false stdin with
          | (Interrupt, stdin1, asked) =>
              (Ended Interrupted, intro ++ map ev_prompt asked, stdin1, w)
          | (Answer false, stdin1, asked) =>
              let '(res, log, stdin2, w1) :=
                yield_from next (start parse the_match) w stdin1 in
              (res, intro ++ map ev_prompt asked ++ log, stdin2, w1)
          | (Answer true, stdin1, asked) =>
              let w1 := with_dbg (set__pdb (Some O)) w in
              let '(res, log, stdin2, w2) :=
                pdb_round next the_match (start parse the_match) w1 stdin1 in
              (res, intro ++ map ev_prompt asked ++ log, stdin2, w2)
          end
      end
  end.

(** [debug_parse] resumed at the [yield result] of its [while] loop. *)
Definition resume_stepping (next : Gen -> World -> list string -> resumption Gen)
    (the_match : Match) (inner : Gen) (w : World) (stdin : list string)
    : resumption Gen :=
  match Debugger_prompt stderr_isatty "Continue debugging the next submatch?" true
          stdin with
  | (Interrupt, stdin1, asked) =>
      (Ended Interrupted, [ev_print_location] ++ map ev_prompt asked, stdin1, release w)
  | (Answer true, stdin1, asked) =>
      let '(res, log, stdin2, w1) := pdb_round next the_match inner w stdin1 in
      (res, [ev_print_location] ++ map ev_prompt asked ++ log, stdin2, w1)
  | (Answer false, stdin1, asked) =>
      match Debugger_prompt stderr_isatty "Print the remaining submatches?" false
              stdin1 with
      | (Interrupt, stdin2, asked2) =>
          (Ended Interrupted, [ev_print_location] ++ map ev_prompt (asked ++ asked2),
           stdin2, release w)
      | (Answer true, stdin2, asked2) =>
          let '(res, log, stdin3, w1) := print_rest next inner w stdin2 in
          (res, [ev_print_location] ++ map ev_prompt (asked ++ asked2) ++ log,
           stdin3, w1)
      | (Answer false, stdin2, asked2) =>
          let '(res, log, stdin3, w1) := finish next inner w stdin2 in
          (res, [ev_print_location] ++ map ev_prompt (asked ++ asked2) ++ log,
           stdin3, w1)
      end
  end.

(** [next(g)]: the generator runs until its next [yield] or to its end.
    Resuming a generator takes a frame, and so does every generator that
    it resumes in turn; [depth] is the room left on the interpreter's
    stack. *)
Fixpoint gen_next (depth : nat) (g : Gen) (w : World) (stdin : list string)
    : resumption Gen :=
  match depth with
  | O => (Ended (Failed RecursionError), [], stdin, w)
  | S depth' =>
      match g with
      | host h =>
          let '(res, log, stdin1, w1) := host_next h w stdin in
          (match res with
           | Yielded item h' => Yielded item (host h')
           | Ended e => Ended e
           end,
           log, stdin1, w1)
      | fresh r the_match =>
          Debugger_debug_parse (gen_next depth') r the_match w stdin
      | passing inner => yield_from (gen_next depth') inner w stdin
      | stepping the_match inner =>
          resume_stepping (gen_next depth') the_match inner w stdin
      | printing inner => print_rest (gen_next depth') inner w stdin
      | finishing inner => finish (gen_next depth') inner w stdin
      end
  end.

(** [for item in g: consume(item)], cut off after [rounds] items: the
    items, how the generator ended if it did, and the input and the world
    left.  [consume] is what the caller does with an item before it asks
    for the next one. *)
Fixpoint iterate {G : Type} (rounds : nat)
    (next : G -> World -> list string -> resumption G)
    (consume : Match -> World -> list string -> World * list string)
    (g : G) (w : World) (stdin : list string)
    : list Match * option gen_end * list string * World :=
  match rounds with
  | O => ([], None, stdin, w)
  | S n =>
      match next g w stdin with
      | (Yielded item g', _, stdin1, w1) =>
          let '(w2, stdin2) := consume item w1 stdin1 in
          let '(items, e, stdin3, w3) := iterate n next consume g' w2 stdin2 in
          (item :: items, e, stdin3, w3)
      | (Ended e, _, stdin1, w1) => ([], Some e, stdin1, w1)
      end
  end.

End Parsing.

Arguments Yielded {Match G} item g.
Arguments Ended {Match G} e.
Arguments host {Match HostGen} g.
Arguments fresh {Match HostGen} instrumented_parser the_match.
Arguments passing {Match HostGen} inner.
Arguments stepping {Match HostGen} the_match inner.
Arguments printing {Match HostGen} inner.
Arguments finishing {Match HostGen} inner.
Arguments in_session {Match HostGen} g.
Arguments start {Match HostGen} native_parse f the_match.
Arguments yield_from {Match HostGen} next inner w stdin.
Arguments print_rest {Match HostGen} next inner w stdin.
Arguments finish {Match HostGen} next inner w stdin.
Arguments iterate {Match G} rounds next consume g w stdin.

(** ** Text of objects *)

Definition dquote : string := String "034"%char EmptyString.
Definition tab : string := String "009"%char EmptyString.

Definition hex2_lower (n : N) : string :=
  String (hex_digit_lower (n / 16)%N) (String (hex_digit_lower (n mod 16)%N) EmptyString).

(** One character inside [repr] of a string, for code points below 256. *)
Definition repr_char (quote c : ascii) : string :=
  let n := code c in
  if Ascii.eqb c quote || Ascii.eqb c "\" then String "\" (String c EmptyString)
  else if (n =? 9)%N then "\t"
  else if (n =? 10)%N then "\n"
  else if (n =? 13)%N then "\r"
  else if ((n <? 32) || (n =? 127))%N then "\x" +:+ hex2_lower n
  else if (n <? 127)%N then String c EmptyString
  else if ((n <=? 160) || (n =? 173))%N then "\x" +:+ hex2_lower n
  else String c EmptyString.

Fixpoint repr_chars (quote : ascii) (s : string) : string :=
  match s with
  | EmptyString => EmptyString
  | String c rest => repr_char quote c +:+ repr_chars quote rest
  end.

(** [repr(s)] for a string: single quotes, unless the string holds a
    single quote and no double quote. *)
Definition py_repr (s : string) : string :=
  let quote := if contains "'" s && negb (contains "034" s) then "034"%char else "'"%char in
  String quote (repr_chars quote s +:+ String quote EmptyString).

(** [Breakpoint.__str__] *)
Fixpoint Breakpoint_str (b : Breakpoint) : string :=
  match b with
  | FailedBreakpoint parent => "[FAILED] " +:+ Breakpoint_str parent
  | MatchedBreakpoint parent => "[MATCHED] " +:+ Breakpoint_str parent
  | MimeBreakpoint mimetype => "Breakpoint: Matching for MIME " +:+ mimetype
  | ExtensionBreakpoint ext => "Breakpoint: Matching for extension " +:+ ext
  | FileBreakpoint filename line_no =>
      "Breakpoint: " +:+ filename +:+ " line " +:+ str_int line_no
  end.

(** ** The prompt *)

Definition set_breakpoints (v : list Breakpoint) (d : Debugger) : Debugger :=
  {| instrumented_tests := instrumented_tests d; breakpoints := v;
     _entries := _entries d;
     step_mode := step_mode d; last_command := last_command d; last_test := last_test d;
     last_parent_match := last_parent_match d; data := data d;
     last_offset := last_offset d; last_result := last_result d;
     repl_test := repl_test d; repl_prompt := repl_prompt d;
     instrumented_parsers := instrumented_parsers d;
     variables_by_name := variables_by_name d;
     variable_descriptions := variable_descriptions d;
     _pdb := _pdb d; _prev_history_length := _prev_history_length d |}.

(** How a branch of the loop ends: it goes on to
    [self.last_command = command] with the value that [command] then has,
    it starts the next round at once, it returns, it ends the process, or
    it raises. *)
Inductive flow :=
| fall_through (command : string)
| next_iteration
| leave
| quit (code : Z)
| fail (e : exn).

(** How [repl] ends. *)
Inductive repl_end :=
| Resumed
| Exited (code : Z)
| Raised_out (e : exn).

(** The table [usage] of the branch [help]. *)
Definition usage : list (string * string) :=
  [("help", "print this message");
   ("continue", "continue execution until the next breakpoint is hit");
   ("step", "step through a single magic test");
   ("next", "continue execution until the next test that matches");
   ("where", "print the context of the current magic test");
   ("test", "test the following libmagic DSL test at the current position");
   ("print", "print the computed absolute offset of the following libmagic DSL offset");
   ("breakpoint", "list the current breakpoints or add a new one");
   ("delete", "delete a breakpoint");
   ("set", "modifies part of the debugger environment");
   ("show", "prints part of the debugger environment");
   ("quit", "exit the debugger")].

Definition aliases : list (string * list string) :=
  [("where", ["info stack"; "backtrace"])].

Definition left_col_width : nat :=
  (Nat.max (list_max (map (fun u => String.length (fst u)) usage))
     (list_max (map String.length (concat (map snd aliases)))) + 3)%nat.

(** The messages for the alternatives of one command, from position [i]. *)
Fixpoint help_alternatives (total i : nat) (alternatives : list string) : list string :=
  match alternatives with
  | [] => []
  | alt :: rest =>
      (if (0 <? i)%nat && (2 <? total)%nat then [", "] else [])
      ++ (if (i =? total - 1)%nat && (1 <? total)%nat then [" and "] else [])
      ++ [alt] ++ help_alternatives total (S i) rest
  end.

Definition lookup_alias (command : string) : option (list string) :=
  option_map snd (List.find (fun a => String.eqb (fst a) command) aliases).

(** The messages of one round of the loop over [usage]. *)
Definition help_line (entry : string * string) : list string :=
  let '(command, msg) := entry in
  [command;
   " " +:+ repeat_char "." (left_col_width - String.length command - 2) +:+ " ";
   msg]
  ++ match lookup_alias command with
     | Some alternatives =>
         [" (aliases: "]
         ++ help_alternatives (List.length alternatives) 0 alternatives ++ [")"]
     | None => []
     end
  ++ [newline].

(** The branch [help]: the messages, and the value that the loop over
    [usage] leaves in the variable [command]. *)
Definition repl_help (command : string) : list string * string :=
  (concat (map help_line usage), List.last (map fst usage) command).

(** [print_usage] of the three registered classes, in their order, each
    followed by the line feed that the caller writes. *)
Definition breakpoint_usage : list string :=
  ["b MIME:MIMETYPE";
   " to break when a test is capable of matching that mimetype." +:+ newline +:+ "The ";
   "MIMETYPE"; " can include the "; "*"; " and "; "?";
   " wildcards." +:+ newline +:+ "For example:" +:+ newline;
   "    b MIME:application/pdf" +:+ newline +:+ "    b MIME:*pdf" +:+ newline;
   newline;
   "b EXT:EXTENSION";
   " to break when a test is capable of matching that extension." +:+ newline
   +:+ "For example:" +:+ newline;
   "    b EXT:pdf" +:+ newline;
   newline;
   "b FILENAME:LINE_NO";
   " to break when the line of the given magic file is reached." +:+ newline
   +:+ "For example:" +:+ newline;
   "    b archive:525" +:+ newline;
   "will break on the test at line 525 of the archive DSL file." +:+ newline;
   newline].

Definition breakpoint_help : list string :=
  ["No breakpoints set." +:+ newline]
  ++ breakpoint_usage
  ++ [newline +:+ "By default, breakpoints will trigger whenever a matching test is run."
      +:+ newline +:+ newline +:+ "Prepend a breakpoint with ";
      "!";
      " to only trigger the breakpoint when the test fails." +:+ newline
      +:+ "For Example:" +:+ newline;
      "    b !MIME:application/zip" +:+ newline;
      "will only trigger if a test that could match a ZIP file failed." +:+ newline
      +:+ newline +:+ "Prepend a breakpoint with ";
      "=";
      " to only trigger the breakpoint when the test passes." +:+ newline
      +:+ " For example:" +:+ newline;
      "    b =archive:1337" +:+ newline;
      "will only trigger if the test on line 1337 of the archive DSL matched."
      +:+ newline +:+ newline].

(** The listing of the breakpoints with their indices. *)
Fixpoint list_breakpoints (i : Z) (bs : list Breakpoint) : list string :=
  match bs with
  | [] => []
  | b :: rest =>
      [str_int i +:+ ":" +:+ tab; Breakpoint_str b; newline]
      ++ list_breakpoints (i + 1) rest
  end.

(** The branch [breakpoint]; [depth] is the room that the interpreter's
    stack has for the call of [from_str], and [Wildcard_parse_frames] what
    a call of [Wildcard.parse] takes of it. *)
Definition repl_breakpoint (Wildcard_parse_frames depth : nat) (command args : string)
    (w : World) : list string * World * flow :=
  if truthy_str args then
    match from_str Wildcard_parse_frames depth args with
    | Raised e => ([], w, fail e)
    | Returned None =>
        (["Error: Invalid breakpoint pattern" +:+ newline], w, fall_through command)
    | Returned (Some parsed) =>
        ([Breakpoint_str parsed; newline],
         with_dbg (fun d => set_breakpoints (breakpoints d ++ [parsed]) d) w,
         fall_through command)
    end
  else
    match breakpoints (dbg w) with
    | [] => (breakpoint_help, w, fall_through command)
    | bs => (list_breakpoints 0 bs, w, fall_through command)
    end.

(** The branch [delete]; the error goes out through [print], which adds
    the line feed. *)
Definition repl_delete (command args : string) (w : World)
    : list string * World * flow :=
  if truthy_str args then
    let breakpoint_num :=
      match int args with
      | Returned n => n
      | Raised _ => -1
      end in
    let bs := breakpoints (dbg w) in
    if negb ((0 <=? breakpoint_num) && (breakpoint_num <? Z.of_nat (List.length bs))) then
      (["Error: Invalid breakpoint " +:+ dquote +:+ args +:+ dquote +:+ newline], w,
       next_iteration)
    else
      match bs !! Z.to_nat breakpoint_num with
      | None => ([], w, fail KeyError)
      | Some b =>
          (["Deleted " +:+ Breakpoint_str b +:+ newline],
           with_dbg
             (set_breakpoints
                (py_slice bs 0 breakpoint_num
                 ++ py_slice bs (breakpoint_num + 1) (Z.of_nat (List.length bs))))
             w,
           fall_through command)
      end
  else ([], w, fall_through command).

(** The text of the [ValueError] that the setter of a variable raises. *)
Definition setter_error_text (new_value : bool) (choices : list bool) : string :=
  "invalid value " +:+ str_bool new_value +:+ "; must be one of ["
  +:+ fold_right (fun p acc =>
                    match acc with
                    | EmptyString => str_bool p
                    | _ => str_bool p +:+ ", " +:+ acc
                    end) EmptyString choices
  +:+ "]".

(** The text of the [ValueError] that [Variable.parse] raises. *)
Definition parse_error_text (value : string) (choices : list bool) : string :=
  "Invalid value " +:+ py_repr (lower (strip value)) +:+ "; must be one of "
  +:+ fold_right (fun p acc =>
                    match acc with
                    | EmptyString => str_bool p
                    | _ => str_bool p +:+ ", " +:+ acc
                    end) EmptyString choices.

Fixpoint set_choices (i : nat) (choices : list bool) : list string :=
  match choices with
  | [] => []
  | value :: rest =>
      (if (0 <? i)%nat then ["|"] else []) ++ [str_bool value] ++ set_choices (S i) rest
  end.

(** The part of the usage of [set] that lists the variables. *)
Fixpoint set_options (w : World) (items : list (string * VarRef))
    : outcome unit * list string :=
  match items with
  | [] => (Returned tt, [])
  | (name, ref) :: rest =>
      let head :=
        ["    " +:+ name +:+ " "; "["]
        ++ set_choices 0
             (match ref with
              | break_on_submatching => possibilities (break_on_submatching_var w)
              end)
        ++ ["]" +:+ newline +:+ "    "] in
      match describe_variable w name with
      | Raised e => (Raised e, head)
      | Returned text =>
          let '(o, written) := set_options w rest in
          (o, head ++ [text; newline +:+ newline] ++ written)
      end
  end.

Section Prompt.

Variable TEST_TYPES : gset nat.
Variable PARSERS : gmap string (gset nat).

(** The branch [set] *)
Definition repl_set (command args : string) (w : World) : list string * World * flow :=
  let parsed := words (strip args) in
  let parsed :=
    match parsed with
    | [name; sign; _] =>
        if String.eqb (strip sign) "=" then [name; sign] else parsed
    | _ => parsed
    end in
  match parsed with
  | [name; value] =>
      match variables_by_name (dbg w) !! name with
      | None =>
          (["Error: Unknown variable "; name; newline], w, fall_through command)
      | Some break_on_submatching =>
          match BooleanVariable_parse (break_on_submatching_var w) value with
          | Raised ValueError =>
              ([parse_error_text value (possibilities (break_on_submatching_var w))
                +:+ newline],
               w, fall_through command)
          | Raised e => ([], w, fail e)
          | Returned new_value =>
              match BreakOnSubmatching_set_value TEST_TYPES PARSERS new_value w with
              | (Returned _, w') => ([], w', fall_through command)
              | (Raised ValueError, w') =>
                  ([setter_error_text new_value
                      (possibilities (break_on_submatching_var w)) +:+ newline],
                   w', fall_through command)
              | (Raised e, w') => ([], w', fail e)
              end
          end
      end
  | _ =>
      let '(o, written) := set_options w (map_to_list (variables_by_name (dbg w))) in
      (["Usage: "; "set"; " VARIABLE "; "VALUE" +:+ newline +:+ newline;
        "Options:" +:+ newline +:+ newline] ++ written,
       w,
       match o with
       | Returned _ => fall_through command
       | Raised e => fail e
       end)
  end.

(** The renderer of [print_where] once its four arguments are settled,
    the parser of a DSL test with the current test as parent and, for a
    parsed test, whether it has a parent, the call of a test through its
    class, the parser of a DSL offset and its resolution, and the text of
    an exception.  The two parsers give the text of their [ValueError] on
    the right, the resolution the text of its [InvalidOffsetError]. *)
Variable render_where :
  MagicTest -> Z -> option TestResult -> option TestResult -> World -> list string.
Variable parse_test : string -> MagicTest -> option MagicTest + string.
Variable has_parent : MagicTest -> bool.
Variable run_test :
  MagicTest -> bytes -> Z -> option TestResult -> World ->
  outcome (option TestResult) * World.
Variable Offset : Type.
Variable Offset_parse : string -> Offset + string.
Variable Offset_to_absolute : Offset -> bytes -> option TestResult -> Z + string.
Variable exn_text : exn -> string.

(** The room that the interpreter's stack has for the calls that [repl]
    makes.  It matters for the one call whose nesting grows with the
    input, that of [Breakpoint.from_str]. *)
Variable Wildcard_parse_frames : nat.
Variable depth : nat.

Definition first_test_missing : list string :=
  ["The first test has not yet been run." +:+ newline;
   "Use `step`, `next`, or `run` to start testing." +:+ newline].

(** [Debugger.print_where] up to the point where its arguments are
    settled: an argument that is [None] is taken from the debugger. *)
Definition Debugger_print_where (t : option MagicTest) (offset : option Z)
    (parent_match result : option TestResult) (w : World) : list string :=
  let t := match t with None => last_test (dbg w) | some => some end in
  match t with
  | None => first_test_missing
  | Some t =>
      render_where t
        (match offset with None => last_offset (dbg w) | Some o => o end)
        (match parent_match with None => last_parent_match (dbg w) | some => some end)
        (match result with None => last_result (dbg w) | some => some end)
        w
  end.

(** The branch [test] *)
Definition repl_test_branch (command args : string) (w : World)
    : list string * World * flow :=
  if truthy_str args then
    match last_test (dbg w) with
    | None => (first_test_missing, w, next_iteration)
    | Some parent =>
        match parse_test args parent with
        | inr text => ([text +:+ newline], w, fall_through command)
        | inl None => (["Error parsing test" +:+ newline], w, next_iteration)
        | inl (Some t) =>
            let body := fun w0 : World =>
              let w1 := with_dbg (assign (assign_repl_test (Some t))) w0 in
              let w2 :=
                if has_parent t then w1
                else with_dbg
                       (fun d => assign (assign_last_offset 0)
                                   (assign (assign_last_result None) d)) w1 in
              run_test t (data (dbg w2)) (last_offset (dbg w2)) (last_result (dbg w2)) w2 in
            match with_save_context body w with
            | (Returned result, w') =>
                (Debugger_print_where (Some t) (Some (last_offset (dbg w')))
                   (last_result (dbg w')) result w',
                 w', fall_through command)
            | (Raised ValueError, w') =>
                ([exn_text ValueError +:+ newline], w', fall_through command)
            | (Raised e, w') => ([], w', fail e)
            end
        end
    end
  else
    (["Usage: "; "test"; " LIBMAGIC DSL TEST" +:+ newline;
      "Attempt to run the given test." +:+ newline +:+ newline +:+ "Example:" +:+ newline;
      "test"; " 0 search \x50\x4b\x05\x06 ZIP EOCD record" +:+ newline],
     w, fall_through command).

(** The branch [print] *)
Definition repl_print (command args : string) (w : World) : list string * World * flow :=
  if truthy_str args then
    match last_test (dbg w) with
    | None => (first_test_missing, w, next_iteration)
    | Some _ =>
        match Offset_parse args with
        | inr text => ([text +:+ newline], w, next_iteration)
        | inl dsl_offset =>
            match Offset_to_absolute dsl_offset (data (dbg w)) (last_result (dbg w)) with
            | inl absolute =>
                ([str_int absolute +:+ newline] ++ print_context (data (dbg w)) absolute 32 1,
                 w, fall_through command)
            | inr text => ([text +:+ newline], w, next_iteration)
            end
        end
    end
  else
    (["Usage: "; "print"; " LIBMAGIC DSL OFFSET" +:+ newline;
      "Calculate the absolute offset for the given DSL offset." +:+ newline +:+ newline
      +:+ "Example:" +:+ newline;
      "print"; " (&0x7c.l+0x26)" +:+ newline],
     w, fall_through command).

(** One round of the loop of [repl] on a line that is not empty, or on the
    last command. *)
Definition repl_command (text : string) (w : World) : list string * World * flow :=
  let '(command, args) := split_command text in
  match repl_branch command with
  | branch_help =>
      let '(written, command') := repl_help command in
      (written, w, fall_through command')
  | branch_continue =>
      ([],
       with_dbg (fun d => assign (assign_last_command (Some command))
                            (assign (assign_step_mode RUNNING) d)) w,
       leave)
  | branch_step =>
      ([],
       with_dbg (fun d => assign (assign_last_command (Some command))
                            (assign (assign_step_mode SINGLE_STEPPING) d)) w,
       leave)
  | branch_next =>
      ([],
       with_dbg (fun d => assign (assign_last_command (Some command))
                            (assign (assign_step_mode NEXT) d)) w,
       leave)
  | branch_quit => ([], w, quit 0)
  | branch_delete => repl_delete command args w
  | branch_test => repl_test_branch command args w
  | branch_breakpoint => repl_breakpoint Wildcard_parse_frames depth command args w
  | branch_print => repl_print command args w
  | branch_where => (Debugger_print_where None None None None w, w, fall_through command)
  | branch_set => repl_set command args w
  | branch_show =>
      match repl_show args w with
      | (Returned _, written) => (written, w, fall_through command)
      | (Raised e, written) => (written, w, fail e)
      end
  | branch_undefined =>
      (["Undefined command: " +:+ py_repr command +:+ ". Try " +:+ dquote +:+ "help"
        +:+ dquote +:+ "." +:+ newline],
       with_dbg (assign (assign_last_command None)) w,
       next_iteration)
  end.

(** The loop of [repl] on the lines still to come from the standard input:
    the messages written, how the loop ends, the world it leaves and the
    lines left.  The end of the input ends the process with status 0. *)
Fixpoint repl_loop (stdin : list string) (w : World)
    : list string * repl_end * World * list string :=
  match stdin with
  | [] => ([], Exited 0, w, [])
  | text :: rest =>
      match (if truthy_str text then Some text else last_command (dbg w)) with
      | None => repl_loop rest w
      | Some command_text =>
          let '(written, w1, f) := repl_command command_text w in
          match f with
          | fall_through command =>
              let '(more, e, w2, rest') :=
                repl_loop rest (with_dbg (assign (assign_last_command (Some command))) w1) in
              (written ++ more, e, w2, rest')
          | next_iteration =>
              let '(more, e, w2, rest') := repl_loop rest w1 in
              (written ++ more, e, w2, rest')
          | leave => (written, Resumed, w1, rest)
          | quit code => (written, Exited code, w1, rest)
          | fail e => (written, Raised_out e, w1, rest)
          end
      end
  end.

(** [Debugger.repl] *)
Definition Debugger_repl (stdin : list string) (w : World)
    : list string * repl_end * World * list string :=
  let shown :=
    match last_test (dbg w) with
    | Some _ => Debugger_print_where None None None None w
    | None => []
    end in
  let '(written, e, w', rest) := repl_loop stdin w in
  (shown ++ written, e, w', rest).

End Prompt.

(** The names by which the chain in [repl] recognises a command from any
    of its beginnings, with the branch of each. *)
Definition command_table : list (string * branch) :=
  [("help", branch_help); ("continue", branch_continue); ("run", branch_continue);
   ("step", branch_step); ("next", branch_next); ("quit", branch_quit);
   ("delete", branch_delete); ("test", branch_test); ("breakpoint", branch_breakpoint);
   ("print", branch_print); ("where", branch_where); ("info stack", branch_where);
   ("backtrace", branch_where)].

(** The beginnings of a text, the empty one and the text itself
    included. *)
Definition beginnings (s : string) : list string :=
  map (fun n => slice_to n s) (seq 0 (S (String.length s))).

(** ** The tests below the current one *)

(** A test as [print_where] walks it: whether it can match a MIME type
    ([can_match_mime]) and its children in their order. *)
#[warnings="-register-all"] Inductive TestNode :=
| mk_node (node_id : nat) (can_match_mime : bool) (children : list TestNode).

Definition node_id (t : TestNode) : nat :=
  match t with mk_node i _ _ => i end.

Definition can_match_mime (t : TestNode) : bool :=
  match t with mk_node _ c _ => c end.

Definition children (t : TestNode) : list TestNode :=
  match t with mk_node _ _ ch => ch end.

(** [test_stack.pop()]: the last element, and the list without it. *)
Definition pop {A : Type} (l : list A) : option (A * list A) :=
  match rev l with
  | [] => None
  | x :: rest => Some (x, rev rest)
  end.

(** The loop of [print_where] that collects the descendants to print;
    [fuel] bounds the number of rounds. *)
Fixpoint collect_descendants (fuel : nat) (test_stack descendants : list TestNode)
    : option (list TestNode) :=
  match fuel with
  | O => None
  | S fuel' =>
      match pop test_stack with
      | None => Some descendants
      | Some (descendant, test_stack) =>
          if can_match_mime descendant then
            collect_descendants fuel' (test_stack ++ rev (children descendant))
              (descendants ++ [descendant])
          else collect_descendants fuel' test_stack descendants
      end
  end.

(** The descendants that [print_where] prints for [test]. *)
Definition print_where_descendants (fuel : nat) (test : TestNode)
    : option (list TestNode) :=
  collect_descendants fuel (rev (children test)) [].

(** A test and the tests below it in depth-first order, parents before
    children and children in their order, without the tests that cannot
    match a MIME type and everything below those. *)
Fixpoint matching_preorder (t : TestNode) : list TestNode :=
  match t with
  | mk_node _ c ch => if c then t :: flat_map matching_preorder ch else []
  end.

(** The number of tests in a tree. *)
Fixpoint node_size (t : TestNode) : nat :=
  match t with
  | mk_node _ _ ch => S (list_sum (map node_size ch))
  end.

(** * Verified properties *)

(** ** Builtins on concrete inputs *)

Example int_plain : int "525" = Returned 525.
Proof. reflexivity. Qed.
Example int_spaces : int " 12 " = Returned 12.
Proof. reflexivity. Qed.
Example int_underscore : int "1_000" = Returned 1000.
Proof. reflexivity. Qed.
Example int_negative : int "-7" = Returned (-7).
Proof. reflexivity. Qed.
Example int_bad_underscore : int "1__0" = Raised ValueError.
Proof. reflexivity. Qed.
Example int_empty : int EmptyString = Raised ValueError.
Proof. reflexivity. Qed.
Example int_word : int "abc" = Raised ValueError.
Proof. reflexivity. Qed.
Example split_colons : split ":" "a:1:2" = ["a"; "1"; "2"].
Proof. reflexivity. Qed.
Example split_none : split ":" "abc" = ["abc"].
Proof. reflexivity. Qed.
Example strip_both : strip "  True " = "True".
Proof. reflexivity. Qed.
Example lower_mixed : lower "MiME:X" = "mime:x".
Proof. reflexivity. Qed.


(** ** Breakpoint predicates *)



(** The separators 28 to 31 are white space for [strip] and not for
    [int]. *)
Example int_separator : int (String "028" "5") = Raised ValueError.
Proof. reflexivity. Qed.









Section FromStr.

Variable Wildcard_parse_frames : nat.

Local Abbreviation from_string := (from_str Wildcard_parse_frames).
Local Abbreviation types := (BREAKPOINT_TYPES Wildcard_parse_frames).
Local Abbreviation Mime_parse := (MimeBreakpoint_parse Wildcard_parse_frames).












End FromStr.



(** C3: a [FailedBreakpoint] around [B] breaks exactly when the result is
    absent or a failed one and [B] breaks; a [MatchedBreakpoint] around [B]
    breaks exactly when the result is present and not a failed one and [B]
    breaks. *)
Theorem wrapper_should_break (B : Breakpoint) (test : option MagicTest)
    (data : bytes) (absolute_offset : Z) (parent_match result : option TestResult) :
  (should_break (FailedBreakpoint B) test data absolute_offset parent_match result
   = Returned true
   <-> (result = None \/ exists message, result = Some (FailedTest message))
       /\ should_break B test data absolute_offset parent_match result = Returned true)
  /\ (should_break (MatchedBreakpoint B) test data absolute_offset parent_match result
      = Returned true
      <-> (exists r, result = Some r /\ forall message, r <> FailedTest message)
          /\ should_break B test data absolute_offset parent_match result = Returned true).
Proof.
  split; cbn [should_break].
  - destruct result as [[len|msg]|]; cbn [is_FailedTest].
    + split; [discriminate|]. intros [[H|[m H]] _]; discriminate.
    + split; [intros H; split; [right; eauto|exact H]|intros [_ H]; exact H].
    + split; [intros H; split; [left; reflexivity|exact H]|intros [_ H]; exact H].
  - destruct result as [[len|msg]|]; cbn [is_FailedTest negb].
    + split; [intros H; split; [|exact H]|intros [_ H]; exact H].
      eexists; split; [reflexivity|discriminate].
    + split; [discriminate|]. intros [(r & [= <-] & Hr) _]. exfalso. eapply Hr; eauto.
    + split; [discriminate|]. intros [(r & Hr & _) _]. discriminate.
Qed.

(** The equations behind C3, with the value that is returned. *)
Lemma wrapper_should_break_value (B : Breakpoint) (test : MagicTest)
    (data : bytes) (absolute_offset : Z) (parent_match result : option TestResult) :
  exists inner : bool,
    should_break B (Some test) data absolute_offset parent_match result = Returned inner
    /\ should_break (FailedBreakpoint B) (Some test) data absolute_offset parent_match result
       = Returned (match result with None => true | Some r => is_FailedTest r end && inner)
    /\ should_break (MatchedBreakpoint B) (Some test) data absolute_offset parent_match result
       = Returned (match result with None => false | Some r => negb (is_FailedTest r) end
                   && inner).
Proof.
  induction B as [B IH|B IH|m|e|f n]; cbn [should_break].
  - destruct IH as (inner & HB & HF & HM). cbn [should_break] in HF.
    rewrite HF. eexists; split; [reflexivity|].
    destruct result as [[len|msg]|]; cbn; auto.
  - destruct IH as (inner & HB & HF & HM). cbn [should_break] in HM.
    rewrite HM. eexists; split; [reflexivity|].
    destruct result as [[len|msg]|]; cbn; auto.
  - eexists; split; [reflexivity|]. destruct result as [[len|msg]|]; cbn; auto.
  - eexists; split; [reflexivity|]. destruct result as [[len|msg]|]; cbn; auto.
  - unfold FileBreakpoint_should_break.
    destruct (source_info test) as [info|];
      [destruct (negb (line info =? n)); [|destruct (contains "/" f)]|];
      (eexists; split; [reflexivity|]); destruct result as [[len|msg]|]; cbn; auto.
Qed.

(** C7: a file breakpoint with file name [F] and line [N] breaks on a test
    exactly when the test has source information, the line recorded there
    is [N], and the full text of the source path is [F] when [F] contains
    a slash, the last component of the path is [F] otherwise.  In every
    other case it returns [False]. *)
Theorem FileBreakpoint_should_break_iff (F : string) (N : Z) (T : MagicTest)
    (data : bytes) (absolute_offset : Z) (parent_match result : option TestResult) :
  let matches :=
    exists info, source_info T = Some info /\ line info = N
      /\ (if contains "/" F then path_str (path info) = F
          else Path_name (path info) = F) in
  (should_break (FileBreakpoint F N) (Some T) data absolute_offset parent_match result
   = Returned true <-> matches)
  /\ (should_break (FileBreakpoint F N) (Some T) data absolute_offset parent_match result
      = Returned false <-> ~ matches).
Proof.
  cbn [should_break]. unfold FileBreakpoint_should_break.
  destruct (source_info T) as [info|].
  2:{ split; split; try discriminate; try reflexivity.
      - intros (info & H & _). discriminate.
      - intros _ (info & H & _). discriminate. }
  destruct (Z.eqb_spec (line info) N) as [Hl|Hl]; cbn [negb].
  2:{ split; split; try discriminate; try reflexivity.
      - intros (i & [= <-] & H & _). contradiction.
      - intros _ (i & [= <-] & H & _). contradiction. }
  destruct (contains "/" F).
  - destruct (String.eqb_spec (path_str (path info)) F) as [Hp|Hp].
    + split; split; try discriminate; try reflexivity; eauto.
      intros H. exfalso. apply H. eauto.
    + split; split; try discriminate; try reflexivity.
      * intros (i & [= <-] & _ & H). contradiction.
      * intros _ (i & [= <-] & _ & H). contradiction.
  - destruct (String.eqb_spec (Path_name (path info)) F) as [Hp|Hp].
    + split; split; try discriminate; try reflexivity; eauto.
      intros H. exfalso. apply H. eauto.
    + split; split; try discriminate; try reflexivity.
      * intros (i & [= <-] & _ & H). contradiction.
      * intros _ (i & [= <-] & _ & H). contradiction.
Qed.

(** ** Breakpoints on concrete inputs *)

Example from_str_mime :
  from_str 1 4 "MIME:application/pdf" = Returned (Some (MimeBreakpoint "application/pdf")).
Proof. reflexivity. Qed.

Example from_str_failed_ext :
  from_str 1 5 "!ext:zip" = Returned (Some (FailedBreakpoint (ExtensionBreakpoint "zip"))).
Proof. reflexivity. Qed.

Example from_str_matched_file :
  from_str 1 5 "=archive:1337"
  = Returned (Some (MatchedBreakpoint (FileBreakpoint "archive" 1337))).
Proof. reflexivity. Qed.

Example from_str_nested_prefixes :
  from_str 1 7 "!=ext:zip"
  = Returned (Some (FailedBreakpoint (MatchedBreakpoint (ExtensionBreakpoint "zip")))).
Proof. reflexivity. Qed.

Example from_str_two_colons :
  from_str 1 3 "a:1:2" = Returned (Some (FileBreakpoint "a" 12)).
Proof. reflexivity. Qed.

Example from_str_bare_prefix : from_str 1 4 "!" = Returned None.
Proof. reflexivity. Qed.

Example from_str_line_zero : from_str 1 2 "archive:0" = Returned None.
Proof. reflexivity. Qed.

Example from_str_line_negative : from_str 1 2 "archive:-3" = Returned None.
Proof. reflexivity. Qed.

Example from_str_line_word : from_str 1 2 "archive:top" = Returned None.
Proof. reflexivity. Qed.

Example from_str_no_colon : from_str 1 2 "archive" = Returned None.
Proof. reflexivity. Qed.

Example file_breakpoint_by_name :
  let t := {| test_id := 0; test_class := 0; mimetypes := ∅; all_extensions := ∅;
              source_info := Some {| path := {| path_str := "/etc/archive" |};
                                     line := 525; original_line := None |} |} in
  should_break (FileBreakpoint "archive" 525) (Some t) [] 0 None None = Returned true
  /\ should_break (FileBreakpoint "/etc/archive" 525) (Some t) [] 0 None None
     = Returned true
  /\ should_break (FileBreakpoint "/etc/archive" 524) (Some t) [] 0 None None
     = Returned false
  /\ should_break (FileBreakpoint "etc/archive" 525) (Some t) [] 0 None None
     = Returned false.
Proof. vm_compute. repeat split. Qed.

Example mime_breakpoint_wildcard :
  let t := {| test_id := 0; test_class := 0; mimetypes := {[ "application/pdf" ]};
              all_extensions := {[ "pdf" ]}; source_info := None |} in
  should_break (MimeBreakpoint "*pdf") (Some t) [] 0 None None = Returned true
  /\ should_break (MimeBreakpoint "application/zip") (Some t) [] 0 None None
     = Returned false
  /\ should_break (FailedBreakpoint (ExtensionBreakpoint "pdf")) (Some t) [] 0 None
       (Some (MatchedTest (Some 4))) = Returned false
  /\ should_break (FailedBreakpoint (ExtensionBreakpoint "pdf")) (Some t) [] 0 None
       (Some (FailedTest "no match")) = Returned true.
Proof. vm_compute. repeat split. Qed.

(** ** Stepping and breaking *)

Lemma any_true_In (xs : list (outcome bool)) :
  any xs = Returned true -> In (Returned true) xs.
Proof.
  induction xs as [|x xs IH]; cbn [any]; [discriminate|].
  destruct x as [[|]|e]; intros H; [left; reflexivity|right; auto|discriminate].
Qed.

Lemma any_In_true (xs : list (outcome bool)) :
  (forall x, In x xs -> returns x) -> In (Returned true) xs -> any xs = Returned true.
Proof.
  induction xs as [|x xs IH]; intros Hall Hin; [destruct Hin|].
  cbn [any]. destruct x as [[|]|e]; [reflexivity| |].
  - apply IH; [intros y Hy; apply Hall; right; exact Hy|].
    destruct Hin as [Hin|Hin]; [discriminate|exact Hin].
  - destruct (Hall (Raised e) (or_introl eq_refl)) as [a Ha]. discriminate.
Qed.

(** On a test that is there, no breakpoint raises. *)
Lemma should_break_returns (b : Breakpoint) (t : MagicTest) (input : bytes)
    (absolute_offset : Z) (parent_match result : option TestResult) :
  returns (should_break b (Some t) input absolute_offset parent_match result).
Proof.
  destruct (wrapper_should_break_value b t input absolute_offset parent_match result)
    as (inner & H & _).
  exists inner. exact H.
Qed.

(** Without a test, no breakpoint answers [True]: the wrappers say [False]
    or ask the breakpoint they wrap, and the others fail on the attribute
    they read. *)
Lemma should_break_None (b : Breakpoint) (input : bytes)
    (absolute_offset : Z) (parent_match result : option TestResult) :
  should_break b None input absolute_offset parent_match result <> Returned true.
Proof.
  induction b as [b IH|b IH|m|e|f n]; cbn [should_break]; try discriminate.
  - destruct (match result with None => true | Some r => is_FailedTest r end);
      [exact IH|discriminate].
  - destruct (match result with None => false | Some r => negb (is_FailedTest r) end);
      [exact IH|discriminate].
Qed.

(** C2: [Debugger.should_break] returns a true value exactly when the step
    mode is [SINGLE_STEPPING], or the step mode is [NEXT] and [last_result]
    is truthy, or some breakpoint of the list breaks on the recorded test,
    data, offset, parent match and result.  With the step mode [RUNNING]
    the breakpoints alone decide. *)
Theorem Debugger_should_break_iff (d : Debugger) :
  let breaks b :=
    should_break b (last_test d) (data d) (last_offset d) (last_parent_match d)
      (last_result d) = Returned true in
  ((exists v, Debugger_should_break d = Returned v /\ truthy v = true)
   <-> step_mode d = SINGLE_STEPPING
       \/ (step_mode d = NEXT /\ truthy_result (last_result d) = true)
       \/ (exists b, In b (breakpoints d) /\ breaks b))
  /\ (step_mode d = RUNNING ->
      ((exists v, Debugger_should_break d = Returned v /\ truthy v = true)
       <-> exists b, In b (breakpoints d) /\ breaks b)).
Proof.
  intros breaks.
  set (f := fun b => should_break b (last_test d) (data d) (last_offset d)
                       (last_parent_match d) (last_result d)).
  assert (Hany : any (map f (breakpoints d)) = Returned true
                 <-> exists b, In b (breakpoints d) /\ breaks b).
  { split.
    - intros H. apply any_true_In in H. apply in_map_iff in H.
      destruct H as (b & Hb & Hin). exists b. split; assumption.
    - intros (b & Hin & Hb). apply any_In_true.
      + intros x Hx. apply in_map_iff in Hx. destruct Hx as (b' & <- & _).
        unfold f. unfold breaks in Hb. destruct (last_test d) as [t|].
        * apply should_break_returns.
        * exfalso. eapply should_break_None; eauto.
      + apply in_map_iff. exists b. split; assumption. }
  assert (Hrest : (exists v, (hit ← any (map f (breakpoints d));
                              Returned (value_bool hit)) = Returned v
                             /\ truthy v = true)
                  <-> any (map f (breakpoints d)) = Returned true).
  { unfold mbind, outcome_bind, bind.
    destruct (any (map f (breakpoints d))) as [[|]|e]; split.
    - reflexivity.
    - intros _. eexists. split; reflexivity.
    - intros (v & [= <-] & Hv). discriminate.
    - discriminate.
    - intros (v & Hv & _). discriminate.
    - discriminate. }
  unfold Debugger_should_break. fold f.
  destruct (step_mode d) eqn:Hm; cbn [StepMode_eqb truthy].
  - (* RUNNING *)
    rewrite Hrest, Hany. split; [|tauto].
    split; [intros H; right; right; exact H|].
    intros [H|[[H _]|H]]; [discriminate|discriminate|exact H].
  - (* SINGLE_STEPPING *)
    split; [|discriminate].
    split; [intros _; left; reflexivity|].
    intros _. eexists. split; reflexivity.
  - (* NEXT *)
    split; [|discriminate].
    destruct (truthy_result (last_result d)) eqn:Hr.
    + split; [intros _; right; left; split; reflexivity|].
      intros _. eexists. split; [reflexivity|exact Hr].
    + rewrite Hrest, Hany.
      split; [intros H; right; right; exact H|].
      intros [H|[[_ H]|H]]; [discriminate|discriminate|exact H].
Qed.

(** With the step mode [NEXT] and a match, the value returned is the result
    itself, which is truthy; a failed result makes the breakpoints decide. *)
Example should_break_next :
  let d := fst (Debugger_init true) in
  Debugger_should_break
    (assign (assign_step_mode NEXT)
       (assign (assign_last_result (Some (MatchedTest (Some 4)))) d))
  = Returned (value_result (Some (MatchedTest (Some 4))))
  /\ Debugger_should_break
       (assign (assign_step_mode NEXT)
          (assign (assign_last_result (Some (FailedTest "no match"))) d))
     = Returned (value_bool false)
  /\ Debugger_should_break (assign (assign_step_mode SINGLE_STEPPING) d)
     = Returned (value_bool true)
  /\ Debugger_should_break d = Returned (value_bool false).
Proof. vm_compute. repeat split. Qed.

(** ** Saving and restoring the context *)

(** Whatever the body does, the attributes of the debugger after the scope
    are those at its entry, and the body's outcome is passed on. *)
Lemma with_save_context_restores {A : Type} (body : World -> outcome A * World)
    (w : World) :
  dbg (snd (with_save_context body w)) = dbg w
  /\ fst (with_save_context body w) = fst (body w).
Proof.
  unfold with_save_context, DebugContext_enter, DebugContext_exit.
  destruct (body w) as [result w']. split; reflexivity.
Qed.

(** The objects in the store are shared, not copied: what the body did to
    them stays. *)
Lemma with_save_context_store {A : Type} (body : World -> outcome A * World)
    (w : World) :
  let w' := snd (body w) in
  let after := snd (with_save_context body w) in
  break_on_submatching_var after = break_on_submatching_var w'
  /\ test_records after = test_records w'
  /\ parser_records after = parser_records w'
  /\ class_test after = class_test w'
  /\ parser_attrs after = parser_attrs w'.
Proof.
  unfold with_save_context, DebugContext_enter, DebugContext_exit.
  destruct (body w) as [result w']. cbn. auto.
Qed.

(** C4: for every sequence of assignments to [data], [last_test],
    [last_offset], [last_parent_match], [last_result], [last_command] and
    [repl_test] made inside a [save_context] scope, whether the sequence
    runs to its end or stops at a [raise], each of these attributes has
    after the scope the value it had at entry; the outcome of the body,
    an exception included, is passed on unchanged. *)
Theorem save_context_restores_fields (body : list statement) (w : World) :
  let after := snd (with_save_context (run_body body) w) in
  data (dbg after) = data (dbg w)
  /\ last_test (dbg after) = last_test (dbg w)
  /\ last_offset (dbg after) = last_offset (dbg w)
  /\ last_parent_match (dbg after) = last_parent_match (dbg w)
  /\ last_result (dbg after) = last_result (dbg w)
  /\ last_command (dbg after) = last_command (dbg w)
  /\ repl_test (dbg after) = repl_test (dbg w)
  /\ fst (with_save_context (run_body body) w) = fst (run_body body w).
Proof.
  intros after.
  destruct (with_save_context_restores (run_body body) w) as [Hd Ho].
  subst after. rewrite Hd. repeat split. exact Ho.
Qed.

(** A body that does change the attributes, and leaves by an exception:
    inside the scope the new values are seen, after it the old ones. *)
Example save_context_after_raise :
  let w := fresh_world true ∅ ∅ in
  let body :=
    [Assign (assign_last_offset 42);
     Assign (assign_last_result (Some (FailedTest "no match")));
     Assign (assign_last_command (Some "test"));
     Raise ValueError;
     Assign (assign_last_offset 0)] in
  last_offset (dbg (snd (run_body body w))) = 42
  /\ last_result (dbg (snd (run_body body w))) = Some (FailedTest "no match")
  /\ fst (with_save_context (run_body body) w) = Raised ValueError
  /\ last_offset (dbg (snd (with_save_context (run_body body) w))) = 0
  /\ last_result (dbg (snd (with_save_context (run_body body) w))) = None
  /\ last_command (dbg (snd (with_save_context (run_body body) w))) = None.
Proof. cbn. repeat split. Qed.

(** ** Variables *)

Lemma Variable_set_value_spec {T : Type} `{EqDecision T} (self : Var T) (new_value : T) :
  (In new_value (possibilities self) ->
   Variable_set_value self new_value
   = (Returned tt, {| possibilities := possibilities self; _value := new_value |}))
  /\ (~ In new_value (possibilities self) ->
      Variable_set_value self new_value = (Raised ValueError, self)).
Proof.
  unfold Variable_set_value.
  destruct (bool_decide_reflect (new_value ∈ possibilities self)) as [Hin|Hin];
    rewrite list_elem_of_In in Hin; split; intros Hx; try reflexivity; contradiction.
Qed.

Lemma Variable_init_spec {T : Type} `{EqDecision T} (choices : list T) (value : T) :
  (In value choices ->
   Variable_init choices value = Returned {| possibilities := choices; _value := value |})
  /\ (~ In value choices -> Variable_init choices value = Raised ValueError).
Proof.
  unfold Variable_init.
  destruct (Variable_set_value_spec {| possibilities := choices; _value := value |} value)
    as [Hyes Hno].
  cbn [possibilities] in Hyes, Hno.
  split; intros Hx; [rewrite (Hyes Hx)|rewrite (Hno Hx)]; reflexivity.
Qed.

Lemma Variable_set_value_keeps {T : Type} `{EqDecision T} (self : Var T) (new_value : T) :
  In (_value self) (possibilities self) ->
  In (_value (snd (Variable_set_value self new_value)))
     (possibilities (snd (Variable_set_value self new_value))).
Proof.
  intros Hinv. unfold Variable_set_value.
  destruct (bool_decide_reflect (new_value ∈ possibilities self)) as [Hin|Hin]; cbn.
  - rewrite list_elem_of_In in Hin. exact Hin.
  - exact Hinv.
Qed.

Lemma Variable_reachable_inv {T : Type} `{EqDecision T} (v : Var T) :
  Variable_reachable v -> In (_value v) (possibilities v).
Proof.
  induction 1 as [choices value v Hinit|v new_value Hv IH].
  - destruct (Variable_init_spec choices value) as [Hyes Hno].
    destruct (in_dec (fun x y => decide (x = y)) value choices) as [Hin|Hin].
    + rewrite (Hyes Hin) in Hinit. injection Hinit as <-. exact Hin.
    + rewrite (Hno Hin) in Hinit. discriminate.
  - apply Variable_set_value_keeps. exact IH.
Qed.

(** Instrumenting and uninstrumenting leave the variable object alone. *)
Lemma fold_left_preserves {A B : Type} (P : A -> Prop) (f : A -> B -> A)
    (l : list B) (a : A) :
  (forall a b, P a -> P (f a b)) -> P a -> P (fold_left f l a).
Proof.
  intros Hstep. revert a. induction l as [|b l IH]; intros a Ha; cbn; auto.
Qed.

Lemma InstrumentedTest_uninstrument_var (t : nat) (w : World) :
  break_on_submatching_var (InstrumentedTest_uninstrument t w)
  = break_on_submatching_var w.
Proof.
  unfold InstrumentedTest_uninstrument.
  destruct (test_records w !! t) as [r|]; [|reflexivity].
  destruct (original_test r); reflexivity.
Qed.

Lemma InstrumentedParser_uninstrument_var (m : nat) (w : World) :
  break_on_submatching_var (InstrumentedParser_uninstrument m w)
  = break_on_submatching_var w.
Proof.
  unfold InstrumentedParser_uninstrument.
  destruct (parser_records w !! m) as [r|]; [|reflexivity].
  destruct (original_parser r); reflexivity.
Qed.

Lemma Debugger__uninstrument_var (w : World) :
  break_on_submatching_var (Debugger__uninstrument w) = break_on_submatching_var w.
Proof.
  unfold Debugger__uninstrument. cbn [with_dbg break_on_submatching_var].
  apply (fold_left_preserves
           (fun w' => break_on_submatching_var w' = break_on_submatching_var w)).
  { intros a b Ha. rewrite InstrumentedParser_uninstrument_var. exact Ha. }
  cbn [with_dbg break_on_submatching_var].
  apply (fold_left_preserves
           (fun w' => break_on_submatching_var w' = break_on_submatching_var w)).
  { intros a b Ha. rewrite InstrumentedTest_uninstrument_var. exact Ha. }
  reflexivity.
Qed.

Lemma Debugger__instrument_var (TEST_TYPES : gset nat) (PARSERS : gmap string (gset nat))
    (w : World) :
  break_on_submatching_var (Debugger__instrument TEST_TYPES PARSERS w)
  = break_on_submatching_var w.
Proof.
  unfold Debugger__instrument.
  set (w1 := fold_left _ (elements TEST_TYPES) w).
  assert (H1 : break_on_submatching_var w1 = break_on_submatching_var w).
  { subst w1.
    apply (fold_left_preserves
             (fun w' => break_on_submatching_var w' = break_on_submatching_var w));
      [|reflexivity].
    intros a k Ha. destruct (bool_decide (is_Some (class_test a !! k))); [|exact Ha].
    unfold InstrumentedTest_init. destruct (class_test a !! k); exact Ha. }
  destruct (_value (break_on_submatching_var w1)); [|exact H1].
  apply (fold_left_preserves
           (fun w' => break_on_submatching_var w' = break_on_submatching_var w));
    [|exact H1].
  intros a p Ha. exact Ha.
Qed.

Lemma Debugger_set_enabled_var (TEST_TYPES : gset nat)
    (PARSERS : gmap string (gset nat)) (is_enabled : bool) (w : World) :
  break_on_submatching_var (Debugger_set_enabled TEST_TYPES PARSERS is_enabled w)
  = break_on_submatching_var w.
Proof.
  unfold Debugger_set_enabled. destruct is_enabled.
  - rewrite Debugger__instrument_var. apply Debugger__uninstrument_var.
  - apply Debugger__uninstrument_var.
Qed.

Lemma BreakOnSubmatching_set_value_spec (TEST_TYPES : gset nat)
    (PARSERS : gmap string (gset nat)) (new_value : bool) (w : World) :
  let after := BreakOnSubmatching_set_value TEST_TYPES PARSERS new_value w in
  (In new_value (possibilities (break_on_submatching_var w)) ->
   fst after = Returned tt
   /\ break_on_submatching_var (snd after)
      = {| possibilities := possibilities (break_on_submatching_var w);
           _value := new_value |})
  /\ (~ In new_value (possibilities (break_on_submatching_var w)) ->
      fst after = Raised ValueError /\ snd after = w).
Proof.
  unfold BreakOnSubmatching_set_value.
  destruct (Variable_set_value_spec (break_on_submatching_var w) new_value)
    as [Hyes Hno].
  split; intros Hx.
  - rewrite (Hyes Hx).
    destruct (Debugger_enabled _); cbn [fst snd]; split; try reflexivity.
    rewrite Debugger__instrument_var, Debugger__uninstrument_var. reflexivity.
  - rewrite (Hno Hx). cbn [fst snd]. split; [reflexivity|].
    destruct w; reflexivity.
Qed.

Lemma run_operation_var_inv (TEST_TYPES : gset nat) (PARSERS : gmap string (gset nat))
    (o : operation) (w : World) :
  In (_value (break_on_submatching_var w)) (possibilities (break_on_submatching_var w)) ->
  let w' := run_operation TEST_TYPES PARSERS o w in
  In (_value (break_on_submatching_var w')) (possibilities (break_on_submatching_var w')).
Proof.
  intros Hinv. destruct o as [b| | |b]; cbn [run_operation].
  - rewrite Debugger_set_enabled_var. exact Hinv.
  - unfold Debugger_enter. destruct (_ =? 1);
      [rewrite Debugger_set_enabled_var|]; exact Hinv.
  - unfold Debugger_exit. destruct (_ =? 0);
      [rewrite Debugger_set_enabled_var|]; exact Hinv.
  - destruct (BreakOnSubmatching_set_value_spec TEST_TYPES PARSERS b w) as [Hyes Hno].
    destruct (in_dec Bool.bool_dec b (possibilities (break_on_submatching_var w)))
      as [Hin|Hin].
    + destruct (Hyes Hin) as [_ ->]. exact Hin.
    + destruct (Hno Hin) as [_ ->]. exact Hinv.
Qed.

(** C10: the value stored in a variable is one of its possibilities.  The
    constructor yields an object only for such a value and raises
    [ValueError] otherwise; the setter stores a value that is among the
    possibilities, and for any other value raises [ValueError] and leaves
    the object as it was.  So every variable that the constructor and the
    setter can produce satisfies the invariant.  The same holds for a
    Boolean variable, whose constructor never fails, and for the variable
    behind [break_on_parsing], whose setter re-instruments after storing
    and which keeps the invariant through every operation on the
    debugger. *)
Theorem Variable_invariant :
  (forall (T : Type) (eq_dec : EqDecision T) (v : Var T),
      Variable_reachable v -> In (_value v) (possibilities v))
  /\ (forall (T : Type) (eq_dec : EqDecision T) (choices : list T) (value : T),
        (In value choices ->
         Variable_init choices value
         = Returned {| possibilities := choices; _value := value |})
        /\ (~ In value choices -> Variable_init choices value = Raised ValueError))
  /\ (forall (T : Type) (eq_dec : EqDecision T) (self : Var T) (new_value : T),
        (In new_value (possibilities self) ->
         Variable_set_value self new_value
         = (Returned tt, {| possibilities := possibilities self; _value := new_value |}))
        /\ (~ In new_value (possibilities self) ->
            Variable_set_value self new_value = (Raised ValueError, self)))
  /\ (forall value : bool,
        BooleanVariable_init value
        = Returned {| possibilities := [true; false]; _value := value |})
  /\ (forall (TEST_TYPES : gset nat) (PARSERS : gmap string (gset nat))
             (new_value : bool) (w : World),
        let after := BreakOnSubmatching_set_value TEST_TYPES PARSERS new_value w in
        (In new_value (possibilities (break_on_submatching_var w)) ->
         fst after = Returned tt
         /\ break_on_submatching_var (snd after)
            = {| possibilities := possibilities (break_on_submatching_var w);
                 _value := new_value |})
        /\ (~ In new_value (possibilities (break_on_submatching_var w)) ->
            fst after = Raised ValueError /\ snd after = w))
  /\ (forall (TEST_TYPES : gset nat) (PARSERS : gmap string (gset nat))
             (ops : list operation) (w : World),
        In (_value (break_on_submatching_var w))
           (possibilities (break_on_submatching_var w)) ->
        let w' := run_operations TEST_TYPES PARSERS ops w in
        In (_value (break_on_submatching_var w'))
           (possibilities (break_on_submatching_var w'))).
Proof.
  split; [intros T eq_dec v; apply Variable_reachable_inv|].
  split; [intros T eq_dec; apply Variable_init_spec|].
  split; [intros T eq_dec; apply Variable_set_value_spec|].
  split.
  { intros value. unfold BooleanVariable_init.
    apply (proj1 (Variable_init_spec [true; false] value)).
    destruct value; cbn; auto. }
  split; [apply BreakOnSubmatching_set_value_spec|].
  intros TEST_TYPES PARSERS ops. unfold run_operations.
  induction ops as [|o ops IH]; intros w Hinv; cbn [fold_left]; [exact Hinv|].
  apply IH. apply run_operation_var_inv. exact Hinv.
Qed.

(** A variable over three modes: a valid assignment, then a rejected one. *)
Lemma Variable_invariant_witness :
  Variable_set_value {| possibilities := [RUNNING; NEXT]; _value := RUNNING |} NEXT
  = (Returned tt, {| possibilities := [RUNNING; NEXT]; _value := NEXT |})
  /\ Variable_set_value {| possibilities := [RUNNING; NEXT]; _value := RUNNING |}
       SINGLE_STEPPING
     = (Raised ValueError, {| possibilities := [RUNNING; NEXT]; _value := RUNNING |}).
Proof.
  pose proof (proj1 (proj2 (proj2 Variable_invariant))) as Hset.
  split.
  - apply (Hset StepMode _ {| possibilities := [RUNNING; NEXT]; _value := RUNNING |} NEXT).
    cbn. auto.
  - apply (Hset StepMode _ {| possibilities := [RUNNING; NEXT]; _value := RUNNING |}
             SINGLE_STEPPING).
    cbn. intros [H|[H|[]]]; discriminate.
Defined.

(** C8, the claim as worded fails: the word [false] is a token that is
    neither [0] nor [f] nor empty, and parsing it gives [False], because
    [Variable.parse] is tried first and matches the text of the possibility
    [False]. *)
Lemma BooleanVariable_parse_false_word :
  lower (strip "false") <> "0"
  /\ lower (strip "false") <> "f"
  /\ lower (strip "false") <> EmptyString
  /\ BooleanVariable_init true
     = Returned {| possibilities := [true; false]; _value := true |}
  /\ BooleanVariable_parse {| possibilities := [true; false]; _value := true |} "false"
     = Returned false.
Proof. repeat split; discriminate. Qed.

(** C8, amended: for a Boolean variable as its constructor builds it,
    [parse] returns [False] when the trimmed, lower-cased text is [0], [f]
    or [false], and [True] for every other token that is not empty; for
    the empty token it returns [False]. *)
Theorem BooleanVariable_parse_spec (value : bool) (S : string) :
  let self := {| possibilities := [true; false]; _value := value |} in
  let token := lower (strip S) in
  BooleanVariable_init value = Returned self
  /\ (token = "0" \/ token = "f" \/ token = "false" ->
      BooleanVariable_parse self S = Returned false)
  /\ (token <> EmptyString -> token <> "0" -> token <> "f" -> token <> "false" ->
      BooleanVariable_parse self S = Returned true)
  /\ (token = EmptyString -> BooleanVariable_parse self S = Returned false).
Proof.
  intros self token.
  split; [unfold self; clear self token; destruct value; vm_compute; reflexivity|].
  unfold BooleanVariable_parse, Variable_parse. fold token.
  cbn [possibilities self List.find].
  change (lower (str_bool true)) with "true".
  change (lower (str_bool false)) with "false".
  destruct (String.eqb_spec "true" token) as [Ht|Ht].
  { rewrite <- Ht. repeat split; try reflexivity; try discriminate.
    intros [H|[H|H]]; discriminate. }
  destruct (String.eqb_spec "false" token) as [Hf|Hf].
  { rewrite <- Hf. repeat split; try reflexivity; try discriminate.
    intros _ _ _ H. contradiction. }
  destruct (String.eqb_spec token "0") as [H0|H0].
  { rewrite H0. cbn. repeat split; try reflexivity; try discriminate.
    intros _ H. contradiction. }
  destruct (String.eqb_spec token "f") as [H1|H1].
  { rewrite H1. cbn. repeat split; try reflexivity; try discriminate.
    intros _ _ H. contradiction. }
  cbn [orb]. split; [|split].
  - intros [H|[H|H]]; congruence.
  - intros Hne _ _ _. destruct token; [contradiction|reflexivity].
  - intros ->. reflexivity.
Qed.

(** The words [Yes] and [OFF] are read as [True], the text [F] as [False]. *)
Lemma BooleanVariable_parse_spec_witness :
  BooleanVariable_parse {| possibilities := [true; false]; _value := false |} " Yes "
  = Returned true
  /\ BooleanVariable_parse {| possibilities := [true; false]; _value := false |} "OFF"
     = Returned true
  /\ BooleanVariable_parse {| possibilities := [true; false]; _value := true |} " F"
     = Returned false.
Proof.
  split; [|split].
  - apply (proj1 (proj2 (proj2 (BooleanVariable_parse_spec false " Yes ")))); discriminate.
  - apply (proj1 (proj2 (proj2 (BooleanVariable_parse_spec false "OFF")))); discriminate.
  - apply (proj1 (proj2 (BooleanVariable_parse_spec true " F"))).
    right. left. reflexivity.
Defined.

(** ** The command [show] *)

(** One token after [show]: an unknown name is reported and the branch
    ends normally; a known name makes the branch raise [NameError] once
    the name and the equals sign are written, before the value and the
    description. *)
Lemma repl_show_single_token (args name : string) (w : World) :
  words (strip args) = [name] ->
  (variables_by_name (dbg w) !! name = None ->
   repl_show args w = (Returned tt, ["Error: Unknown variable "; name; newline]))
  /\ (forall ref, variables_by_name (dbg w) !! name = Some ref ->
        repl_show args w = (Raised (NameError "variables_by_name"), [name; " = "])).
Proof.
  intros Hw. unfold repl_show. rewrite Hw. cbn [List.length Nat.ltb Nat.leb].
  split; [intros ->; reflexivity|intros ref ->; reflexivity].
Qed.

(** C9 at the input [show break_on_parsing], typed at the prompt of a
    debugger fresh from its constructor: the line selects the branch
    [show] with the argument [break_on_parsing], the name is known, and
    the branch raises [NameError] after writing the name and the equals
    sign; neither the value nor the description is written and the prompt
    does not go on.  An unknown name is reported as the claim says. *)
Theorem repl_show_known_variable_raises :
  let w := fresh_world true ∅ ∅ in
  split_command "show break_on_parsing" = ("show", "break_on_parsing")
  /\ repl_branch "show" = branch_show
  /\ variables_by_name (dbg w) !! "break_on_parsing" = Some break_on_submatching
  /\ repl_show "break_on_parsing" w
     = (Raised (NameError "variables_by_name"), ["break_on_parsing"; " = "])
  /\ repl_show "break_on_parsin" w
     = (Returned tt, ["Error: Unknown variable "; "break_on_parsin"; newline]).
Proof. vm_compute. repeat split. Qed.

(** ** The hook around a test *)

Lemma any_returns (xs : list (outcome bool)) :
  (forall x, In x xs -> returns x) -> returns (any xs).
Proof.
  induction xs as [|x xs IH]; intros Hall; cbn [any]; [eexists; reflexivity|].
  destruct x as [[|]|e].
  - eexists; reflexivity.
  - apply IH. intros y Hy. apply Hall. right. exact Hy.
  - destruct (Hall (Raised e) (or_introl eq_refl)) as [a Ha]. discriminate.
Qed.

(** Once a test is recorded, [should_break] returns. *)
Lemma Debugger_should_break_returns (d : Debugger) (t : MagicTest) :
  last_test d = Some t -> returns (Debugger_should_break d).
Proof.
  intros Ht. unfold Debugger_should_break.
  destruct (StepMode_eqb (step_mode d) SINGLE_STEPPING); [eexists; reflexivity|].
  destruct (truthy _); [eexists; reflexivity|].
  rewrite Ht.
  destruct (any_returns
              (map (fun b => should_break b (Some t) (data d) (last_offset d)
                               (last_parent_match d) (last_result d))
                   (breakpoints d))) as [hit Hhit].
  { intros x Hx. apply in_map_iff in Hx. destruct Hx as (b & <- & _).
    apply should_break_returns. }
  rewrite Hhit. eexists; reflexivity.
Qed.

Lemma record_call_fields (t : MagicTest) (input : bytes) (absolute_offset : Z)
    (parent_match result : option TestResult) (w : World) :
  let d := dbg (record_call t input absolute_offset parent_match result w) in
  last_result d = result /\ last_test d = Some t /\ data d = input
  /\ last_offset d = absolute_offset /\ last_parent_match d = parent_match
  /\ step_mode d = step_mode (dbg w) /\ breakpoints d = breakpoints (dbg w).
Proof. cbn. repeat split. Qed.

(** C1: a call that goes through the wrapper of an instrumentation object
    still holding the original function, and from there through
    [Debugger.debug], has the same outcome (the same result, or the same
    exception) as a call of the original function on the same arguments,
    provided that [debug] does not go to the prompt: the test is the one
    typed at the prompt, or [should_break] is false once the call is
    recorded. *)
Theorem debug_transparent
    (native_test : nat -> MagicTest -> bytes -> Z -> option TestResult -> World ->
                   outcome (option TestResult) * World)
    (repl : World -> outcome unit * World)
    (depth : nat) (hook : nat) (r : InstrumentedTest) (f : callable)
    (T : MagicTest) (input : bytes) (absolute_offset : Z)
    (parent_match : option TestResult) (w : World) :
  test_records w !! hook = Some r ->
  original_test r = Some f ->
  (forall result w1,
      call_test native_test repl depth f T input absolute_offset parent_match w
      = (Returned result, w1) ->
      enters_repl T input absolute_offset parent_match result w1 = false) ->
  fst (call_test native_test repl (S depth) (Hook hook) T input absolute_offset
         parent_match w)
  = fst (call_test native_test repl depth f T input absolute_offset parent_match w).
Proof.
  intros Hr Hf Hquiet. cbn [call_test]. unfold Debugger_debug.
  rewrite Hr, Hf.
  destruct (call_test native_test repl depth f T input absolute_offset parent_match w)
    as [[result|e] w1] eqn:Hcall; [|reflexivity].
  specialize (Hquiet result w1 eq_refl). unfold enters_repl in Hquiet.
  destruct (is_same_test (repl_test (dbg w1)) T); [reflexivity|].
  cbn [negb andb] in Hquiet.
  destruct (record_call_fields T input absolute_offset parent_match result w1)
    as (Hres & Htest & _).
  destruct (Debugger_should_break_returns _ T Htest) as [v Hv].
  rewrite Hv in Hquiet |- *. rewrite Hquiet. cbn [fst]. rewrite Hres. reflexivity.
Qed.

(** A class whose test matches four bytes, instrumented by enabling the
    debugger; nothing makes the debugger stop. *)
Lemma debug_transparent_witness :
  let native_test :=
    fun (k : nat) (t : MagicTest) (input : bytes) (o : Z) (p : option TestResult)
        (w : World) => (Returned (Some (MatchedTest (Some 4))), w) in
  let repl := fun w : World => (Returned tt, w) in
  let T := {| test_id := 1; test_class := 0; mimetypes := {[ "application/zip" ]};
              all_extensions := {[ "zip" ]}; source_info := None |} in
  let w := Debugger_set_enabled {[ 0%nat ]} ∅ true
             (fresh_world true {[ 0%nat := Native 0 ]} ∅) in
  Class_test w 0 = Hook 0
  /\ fst (call_test native_test repl 1 (Hook 0) T [] 0 None w)
     = fst (call_test native_test repl 0 (Native 0) T [] 0 None w).
Proof.
  intros native_test repl T w. split; [reflexivity|].
  apply (debug_transparent native_test repl 0 0
           {| test := 0; original_test := Some (Native 0) |} (Native 0) T [] 0 None w).
  - reflexivity.
  - reflexivity.
  - intros result w1 H. injection H as <- <-. vm_compute. reflexivity.
Defined.

(** ** Instrumentation *)

Lemma InstrumentedTest_uninstrument_dbg (t : nat) (w : World) :
  dbg (InstrumentedTest_uninstrument t w) = dbg w.
Proof.
  unfold InstrumentedTest_uninstrument.
  destruct (test_records w !! t) as [r|]; [|reflexivity].
  destruct (original_test r); reflexivity.
Qed.

Lemma InstrumentedParser_uninstrument_dbg (m : nat) (w : World) :
  dbg (InstrumentedParser_uninstrument m w) = dbg w.
Proof.
  unfold InstrumentedParser_uninstrument.
  destruct (parser_records w !! m) as [r|]; [|reflexivity].
  destruct (original_parser r); reflexivity.
Qed.

Lemma uninstrument_tests_dbg (l : list nat) (w : World) :
  dbg (fold_left (fun w t => InstrumentedTest_uninstrument t w) l w) = dbg w.
Proof.
  apply (fold_left_preserves (fun w' => dbg w' = dbg w)); [|reflexivity].
  intros a b Ha. rewrite InstrumentedTest_uninstrument_dbg. exact Ha.
Qed.

Lemma uninstrument_parsers_dbg (l : list nat) (w : World) :
  dbg (fold_left (fun w m => InstrumentedParser_uninstrument m w) l w) = dbg w.
Proof.
  apply (fold_left_preserves (fun w' => dbg w' = dbg w)); [|reflexivity].
  intros a b Ha. rewrite InstrumentedParser_uninstrument_dbg. exact Ha.
Qed.

(** After [_uninstrument] both lists of instrumentation objects are empty. *)
Lemma Debugger__uninstrument_lists (w : World) :
  instrumented_tests (dbg (Debugger__uninstrument w)) = []
  /\ instrumented_parsers (dbg (Debugger__uninstrument w)) = [].
Proof.
  unfold Debugger__uninstrument. cbn [with_dbg dbg].
  rewrite uninstrument_parsers_dbg. cbn. auto.
Qed.

(** With both lists empty, [_uninstrument] changes nothing. *)
Lemma Debugger__uninstrument_clean (w : World) :
  instrumented_tests (dbg w) = [] -> instrumented_parsers (dbg w) = [] ->
  Debugger__uninstrument w = w.
Proof.
  intros Ht Hp. unfold Debugger__uninstrument.
  rewrite Ht. cbn [fold_left with_dbg dbg set_instrumented_tests instrumented_parsers].
  rewrite Hp. cbn [fold_left with_dbg dbg].
  destruct w as [d v trs prs ct pa]. destruct d. cbn in *. subst. reflexivity.
Qed.

(** Disabling twice is disabling once. *)
Lemma Debugger_disable_idempotent (TEST_TYPES : gset nat)
    (PARSERS : gmap string (gset nat)) (w : World) :
  Debugger_set_enabled TEST_TYPES PARSERS false
    (Debugger_set_enabled TEST_TYPES PARSERS false w)
  = Debugger_set_enabled TEST_TYPES PARSERS false w.
Proof.
  unfold Debugger_set_enabled.
  destruct (Debugger__uninstrument_lists w) as [Ht Hp].
  apply Debugger__uninstrument_clean; assumption.
Qed.

(** Taking down the test hooks of a well-formed list restores the
    functions of the classes. *)
Lemma uninstrument_tests_linked (base : gmap nat callable) (l : list nat) :
  forall w, tests_linked base l w ->
    class_test (fold_left (fun w t => InstrumentedTest_uninstrument t w) l w) = base.
Proof.
  induction l as [|a l IH]; intros w (Hnd & Ha & Hc).
  - cbn. apply map_eq. intros k. apply Hc. intros a r Hin. inversion Hin.
  - cbn [fold_left]. apply IH.
    apply NoDup_cons in Hnd. destruct Hnd as [Hnotin Hnd].
    destruct (Ha a) as (k & f & Hrec & Hct & Hb); [left|].
    unfold InstrumentedTest_uninstrument, tests_linked. rewrite Hrec.
    cbn [original_test test set_class_test set_test_records test_records class_test].
    split; [exact Hnd|]. split.
    + intros a' Hin'.
      destruct (Ha a') as (k' & f' & Hrec' & Hct' & Hb'); [right; exact Hin'|].
      assert (a <> a') by (intros ->; contradiction).
      assert (k <> k') by (intros ->; congruence).
      exists k', f'. rewrite list_lookup_insert_ne, lookup_insert_ne by assumption.
      auto.
    + intros k' Hun. destruct (decide (k = k')) as [<-|Hne].
      * rewrite lookup_insert_eq. symmetry. exact Hb.
      * rewrite lookup_insert_ne by assumption. apply Hc.
        intros a' r [->|Hin']%elem_of_cons Hr.
        -- rewrite Hrec in Hr. injection Hr as <-. cbn. exact Hne.
        -- apply (Hun a' r Hin').
           rewrite list_lookup_insert_ne; [exact Hr|].
           intros ->; contradiction.
Qed.

(** Taking down the parser hooks of a well-formed list restores the
    [parse] function of every parser. *)
Lemma uninstrument_parsers_linked (base : nat -> callable) (l : list nat) :
  forall w, parsers_linked base l w ->
    forall p,
      Parser_parse (fold_left (fun w m => InstrumentedParser_uninstrument m w) l w) p
      = base p.
Proof.
  induction l as [|a l IH]; intros w (Hnd & Ha & Hc).
  - cbn. intros p. apply Hc. intros a r Hin. inversion Hin.
  - cbn [fold_left]. apply IH.
    apply NoDup_cons in Hnd. destruct Hnd as [Hnotin Hnd].
    destruct (Ha a) as (p & Hrec & Hpa); [left|].
    unfold InstrumentedParser_uninstrument, parsers_linked, Parser_parse. rewrite Hrec.
    cbn [original_parser parser set_parser_parse set_parser_records parser_records
         parser_attrs].
    split; [exact Hnd|]. split.
    + intros a' Hin'.
      destruct (Ha a') as (p' & Hrec' & Hpa'); [right; exact Hin'|].
      assert (a <> a') by (intros ->; contradiction).
      assert (p <> p') by (intros ->; congruence).
      exists p'. rewrite list_lookup_insert_ne, lookup_insert_ne by assumption.
      auto.
    + intros p' Hun. destruct (decide (p = p')) as [<-|Hne].
      * rewrite lookup_insert_eq. reflexivity.
      * rewrite lookup_insert_ne by assumption. apply Hc.
        intros a' r [->|Hin']%elem_of_cons Hr.
        -- rewrite Hrec in Hr. injection Hr as <-. cbn. exact Hne.
        -- apply (Hun a' r Hin').
           rewrite list_lookup_insert_ne; [exact Hr|].
           intros ->; contradiction.
Qed.

(** Well-formedness is a matter of the two lists, the two stores of
    objects and the two attribute maps only. *)
Lemma well_instrumented_ext (tests0 : gmap nat callable) (parsers0 : nat -> callable)
    (w w' : World) :
  instrumented_tests (dbg w') = instrumented_tests (dbg w) ->
  instrumented_parsers (dbg w') = instrumented_parsers (dbg w) ->
  test_records w' = test_records w ->
  parser_records w' = parser_records w ->
  class_test w' = class_test w ->
  parser_attrs w' = parser_attrs w ->
  well_instrumented tests0 parsers0 w -> well_instrumented tests0 parsers0 w'.
Proof.
  unfold well_instrumented, tests_linked, parsers_linked, Parser_parse.
  intros -> -> -> -> -> ->. exact (fun H => H).
Qed.

Lemma parsers_linked_base (base base' : nat -> callable) (l : list nat) (w : World) :
  (forall p, base p = base' p) -> parsers_linked base l w -> parsers_linked base' l w.
Proof.
  intros Heq (Hnd & Ha & Hc). split; [exact Hnd|]. split.
  - intros a Hin. destruct (Ha a Hin) as (p & Hrec & Hpa).
    exists p. rewrite <- Heq. auto.
  - intros p Hun. rewrite <- Heq. apply Hc. exact Hun.
Qed.

(** What taking down the test hooks leaves alone. *)
Lemma uninstrument_tests_frame (l : list nat) (w : World) :
  let w' := fold_left (fun w t => InstrumentedTest_uninstrument t w) l w in
  parser_records w' = parser_records w /\ parser_attrs w' = parser_attrs w.
Proof.
  apply (fold_left_preserves
           (fun w' => parser_records w' = parser_records w
                      /\ parser_attrs w' = parser_attrs w)); [|auto].
  intros a t [H1 H2]. unfold InstrumentedTest_uninstrument.
  destruct (test_records a !! t) as [r|]; [|auto].
  destruct (original_test r); cbn; auto.
Qed.

(** What taking down the parser hooks leaves alone. *)
Lemma uninstrument_parsers_frame (l : list nat) (w : World) :
  let w' := fold_left (fun w m => InstrumentedParser_uninstrument m w) l w in
  test_records w' = test_records w /\ class_test w' = class_test w.
Proof.
  apply (fold_left_preserves
           (fun w' => test_records w' = test_records w
                      /\ class_test w' = class_test w)); [|auto].
  intros a m [H1 H2]. unfold InstrumentedParser_uninstrument.
  destruct (parser_records a !! m) as [r|]; [|auto].
  destruct (original_parser r); cbn; auto.
Qed.

(** [_uninstrument] on a well-formed instrumentation gives back the
    functions that the classes and the parsers had. *)
Lemma Debugger__uninstrument_restores (tests0 : gmap nat callable)
    (parsers0 : nat -> callable) (w : World) :
  well_instrumented tests0 parsers0 w ->
  class_test (Debugger__uninstrument w) = tests0
  /\ (forall p, Parser_parse (Debugger__uninstrument w) p = parsers0 p).
Proof.
  intros (Ht & _ & Hp & _). unfold Debugger__uninstrument.
  set (w1 := fold_left (fun w t => InstrumentedTest_uninstrument t w)
               (instrumented_tests (dbg w)) w).
  set (w2 := with_dbg (set_instrumented_tests []) w1).
  destruct (uninstrument_tests_frame (instrumented_tests (dbg w)) w) as [Hprs Hpa].
  fold w1 in Hprs, Hpa.
  assert (Hlp : instrumented_parsers (dbg w2) = instrumented_parsers (dbg w)).
  { subst w2 w1. cbn. rewrite uninstrument_tests_dbg. reflexivity. }
  rewrite Hlp.
  destruct (uninstrument_parsers_frame (instrumented_parsers (dbg w)) w2) as [Htrs Hct].
  split.
  - cbn [with_dbg class_test]. rewrite Hct. subst w2. cbn [with_dbg class_test].
    subst w1. apply uninstrument_tests_linked. exact Ht.
  - intros p. unfold Parser_parse at 1. cbn [with_dbg parser_attrs].
    apply (uninstrument_parsers_linked parsers0 (instrumented_parsers (dbg w)) w2).
    destruct Hp as (Hnd & Ha & Hc). split; [exact Hnd|]. split.
    + intros a Hin. destruct (Ha a Hin) as (q & Hrec & Hq). exists q.
      subst w2. cbn [with_dbg parser_records parser_attrs]. rewrite Hprs, Hpa. auto.
    + intros q Hun. unfold Parser_parse. subst w2. cbn [with_dbg parser_attrs].
      rewrite Hpa. apply Hc. intros a r Hin Hr. apply (Hun a r Hin).
      cbn [with_dbg parser_records]. rewrite Hprs. exact Hr.
Qed.

(** Putting up the test hooks, class by class, keeps the list well formed
    as long as no class comes twice. *)
Lemma instrument_tests_linked (base : gmap nat callable) (ks : list nat) :
  forall w,
    NoDup ks ->
    tests_linked base (instrumented_tests (dbg w)) w ->
    (forall a, a ∈ instrumented_tests (dbg w) -> (a < List.length (test_records w))%nat) ->
    (forall a r, a ∈ instrumented_tests (dbg w) -> test_records w !! a = Some r ->
                 test r ∉ ks) ->
    let w' :=
      fold_left
        (fun w k =>
           if bool_decide (is_Some (class_test w !! k)) then
             let '(t, w') := InstrumentedTest_init k w in
             with_dbg (fun d => set_instrumented_tests (instrumented_tests d ++ [t]) d) w'
           else w)
        ks w in
    tests_linked base (instrumented_tests (dbg w')) w'
    /\ (forall a, a ∈ instrumented_tests (dbg w') ->
                  (a < List.length (test_records w'))%nat)
    /\ parser_records w' = parser_records w
    /\ parser_attrs w' = parser_attrs w
    /\ instrumented_parsers (dbg w') = instrumented_parsers (dbg w)
    /\ break_on_submatching_var w' = break_on_submatching_var w.
Proof.
  induction ks as [|k ks IH]; intros w Hks Hl Hbound Hfresh; cbn [fold_left].
  { repeat split; auto; apply Hl. }
  apply NoDup_cons in Hks. destruct Hks as [Hk Hks].
  destruct (bool_decide_reflect (is_Some (class_test w !! k))) as [[f Hf]|Hnone].
  2:{ apply IH; auto. intros a r Hin Hr Hmem.
      apply (Hfresh a r Hin Hr). right. exact Hmem. }
  unfold InstrumentedTest_init. rewrite Hf.
  set (n := List.length (test_records w)).
  set (w1 := with_dbg _ _).
  assert (Hl1 : instrumented_tests (dbg w1) = instrumented_tests (dbg w) ++ [n])
    by reflexivity.
  assert (Ht1 : test_records w1
                = test_records w ++ [{| test := k; original_test := Some f |}])
    by reflexivity.
  assert (Hc1 : class_test w1 = <[k := Hook n]> (class_test w)) by reflexivity.
  destruct Hl as (Hnd & Ha & Hc).
  assert (Hbase : base !! k = Some f).
  { rewrite <- Hf. symmetry. apply Hc. intros a r Hin Hr <-.
    apply (Hfresh a r Hin Hr). left. }
  destruct (IH w1) as (H1 & H2 & H3 & H4 & H5 & H6); [exact Hks| | | |].
  - (* the list is well formed after the step *)
    unfold tests_linked. rewrite Hl1, Ht1, Hc1. split; [|split].
    + apply NoDup_app. split; [exact Hnd|]. split; [|apply NoDup_singleton].
      intros a Hin Heq%list_elem_of_singleton. subst a. apply Hbound in Hin. lia.
    + intros a [Hin|Heq%list_elem_of_singleton]%elem_of_app; [|subst a].
      * destruct (Ha a Hin) as (k' & f' & Hrec & Hct & Hb).
        exists k', f'. rewrite lookup_app_l by (apply Hbound; exact Hin).
        rewrite lookup_insert_ne; [auto|].
        intros <-. apply (Hfresh a _ Hin Hrec). left.
      * exists k, f. rewrite list_lookup_middle by reflexivity.
        rewrite lookup_insert_eq. auto.
    + intros k' Hun. assert (k <> k').
      { intros <-. apply (Hun n {| test := k; original_test := Some f |}).
        - apply elem_of_app. right. left.
        - apply list_lookup_middle. reflexivity.
        - reflexivity. }
      rewrite lookup_insert_ne by assumption. apply Hc.
      intros a r Hin Hr. apply (Hun a r).
      * apply elem_of_app. left. exact Hin.
      * rewrite lookup_app_l by (apply Hbound; exact Hin). exact Hr.
  - (* addresses stay within the store *)
    rewrite Hl1, Ht1. intros a [Hin|Heq%list_elem_of_singleton]%elem_of_app;
      rewrite List.length_app; cbn [List.length]; [apply Hbound in Hin|subst a]; lia.
  - (* the classes still to come are not instrumented yet *)
    rewrite Hl1, Ht1. intros a r [Hin|Heq%list_elem_of_singleton]%elem_of_app Hr;
      [|subst a].
    + rewrite lookup_app_l in Hr by (apply Hbound; exact Hin).
      intros Hmem. apply (Hfresh a r Hin Hr). right. exact Hmem.
    + rewrite list_lookup_middle in Hr by reflexivity. injection Hr as <-. exact Hk.
  - split; [exact H1|]. split; [exact H2|].
    split; [exact H3|]. split; [exact H4|]. split; [exact H5|exact H6].
Qed.

(** Putting up the parser hooks keeps the list well formed as long as no
    parser comes twice. *)
Lemma instrument_parsers_linked (base : nat -> callable) (ps : list nat) :
  forall w,
    NoDup ps ->
    parsers_linked base (instrumented_parsers (dbg w)) w ->
    (forall a, a ∈ instrumented_parsers (dbg w) ->
               (a < List.length (parser_records w))%nat) ->
    (forall a r, a ∈ instrumented_parsers (dbg w) -> parser_records w !! a = Some r ->
                 parser r ∉ ps) ->
    let w' :=
      fold_left
        (fun w p =>
           let '(m, w') := InstrumentedParser_init p w in
           with_dbg (fun d => set_instrumented_parsers (instrumented_parsers d ++ [m]) d)
             w')
        ps w in
    parsers_linked base (instrumented_parsers (dbg w')) w'
    /\ (forall a, a ∈ instrumented_parsers (dbg w') ->
                  (a < List.length (parser_records w'))%nat)
    /\ test_records w' = test_records w
    /\ class_test w' = class_test w
    /\ instrumented_tests (dbg w') = instrumented_tests (dbg w)
    /\ break_on_submatching_var w' = break_on_submatching_var w.
Proof.
  induction ps as [|p ps IH]; intros w Hps Hl Hbound Hfresh; cbn [fold_left].
  { repeat split; auto; apply Hl. }
  apply NoDup_cons in Hps. destruct Hps as [Hp Hps].
  unfold InstrumentedParser_init.
  set (n := List.length (parser_records w)).
  set (w1 := with_dbg _ _).
  assert (Hl1 : instrumented_parsers (dbg w1) = instrumented_parsers (dbg w) ++ [n])
    by reflexivity.
  assert (Ht1 : parser_records w1
                = parser_records w
                  ++ [{| parser := p; original_parser := Some (Parser_parse w p) |}])
    by reflexivity.
  assert (Hc1 : parser_attrs w1 = <[p := Hook n]> (parser_attrs w)) by reflexivity.
  destruct Hl as (Hnd & Ha & Hc).
  assert (Hbase : Parser_parse w p = base p).
  { apply Hc. intros a r Hin Hr <-. apply (Hfresh a r Hin Hr). left. }
  destruct (IH w1) as (H1 & H2 & H3 & H4 & H5 & H6); [exact Hps| | | |].
  - unfold parsers_linked, Parser_parse. rewrite Hl1, Ht1, Hc1. split; [|split].
    + apply NoDup_app. split; [exact Hnd|]. split; [|apply NoDup_singleton].
      intros a Hin Heq%list_elem_of_singleton. subst a. apply Hbound in Hin. lia.
    + intros a [Hin|Heq%list_elem_of_singleton]%elem_of_app; [|subst a].
      * destruct (Ha a Hin) as (p' & Hrec & Hpa).
        exists p'. rewrite lookup_app_l by (apply Hbound; exact Hin).
        rewrite lookup_insert_ne; [auto|].
        intros <-. apply (Hfresh a _ Hin Hrec). left.
      * exists p. rewrite list_lookup_middle by reflexivity.
        rewrite lookup_insert_eq, Hbase. auto.
    + intros p' Hun. assert (p <> p').
      { intros <-.
        apply (Hun n {| parser := p; original_parser := Some (Parser_parse w p) |}).
        - apply elem_of_app. right. left.
        - apply list_lookup_middle. reflexivity.
        - reflexivity. }
      rewrite lookup_insert_ne by assumption. apply Hc.
      intros a r Hin Hr. apply (Hun a r).
      * apply elem_of_app. left. exact Hin.
      * rewrite lookup_app_l by (apply Hbound; exact Hin). exact Hr.
  - rewrite Hl1, Ht1. intros a [Hin|Heq%list_elem_of_singleton]%elem_of_app;
      rewrite List.length_app; cbn [List.length]; [apply Hbound in Hin|subst a]; lia.
  - rewrite Hl1, Ht1. intros a r [Hin|Heq%list_elem_of_singleton]%elem_of_app Hr;
      [|subst a].
    + rewrite lookup_app_l in Hr by (apply Hbound; exact Hin).
      intros Hmem. apply (Hfresh a r Hin Hr). right. exact Hmem.
    + rewrite list_lookup_middle in Hr by reflexivity. injection Hr as <-. exact Hp.
  - split; [exact H1|]. split; [exact H2|].
    split; [exact H3|]. split; [exact H4|]. split; [exact H5|exact H6].
Qed.

Section Restoring.

Variable TEST_TYPES : gset nat.
Variable PARSERS : gmap string (gset nat).

(** No parser is registered for two MIME types. *)
Hypothesis parsers_distinct : NoDup (parsers_in_order PARSERS).

(** [_instrument] on an instrumentation that was just taken down. *)
Lemma Debugger__instrument_well (w : World) :
  instrumented_tests (dbg w) = [] -> instrumented_parsers (dbg w) = [] ->
  well_instrumented (class_test w) (Parser_parse w)
    (Debugger__instrument TEST_TYPES PARSERS w).
Proof.
  intros Ht Hp. unfold Debugger__instrument.
  destruct (instrument_tests_linked (class_test w) (elements TEST_TYPES) w)
    as (H1 & H2 & H3 & H4 & H5 & H6).
  { apply NoDup_elements. }
  { rewrite Ht. split; [apply NoDup_nil_2|]. split.
    - intros a Hin. inversion Hin.
    - reflexivity. }
  { rewrite Ht. intros a Hin. inversion Hin. }
  { rewrite Ht. intros a r Hin. inversion Hin. }
  set (w1 := fold_left _ (elements TEST_TYPES) w) in *.
  assert (Hp1 : parsers_linked (Parser_parse w) (instrumented_parsers (dbg w1)) w1).
  { rewrite H5, Hp. split; [apply NoDup_nil_2|]. split.
    - intros a Hin. inversion Hin.
    - intros p _. unfold Parser_parse. rewrite H4. reflexivity. }
  destruct (_value (break_on_submatching_var w1)).
  - destruct (instrument_parsers_linked (Parser_parse w) (parsers_in_order PARSERS) w1)
      as (G1 & G2 & G3 & G4 & G5 & G6).
    { exact parsers_distinct. }
    { exact Hp1. }
    { rewrite H5, Hp. intros a Hin. inversion Hin. }
    { rewrite H5, Hp. intros a r Hin. inversion Hin. }
    set (w2 := fold_left _ (parsers_in_order PARSERS) w1) in *.
    split; [|split; [|split; [exact G1|exact G2]]].
    + unfold tests_linked. rewrite G5, G3, G4. exact H1.
    + rewrite G5, G3. exact H2.
  - split; [exact H1|]. split; [exact H2|]. split; [exact Hp1|].
    rewrite H5, Hp. intros a Hin. inversion Hin.
Qed.

(** Assigning [enabled] keeps the instrumentation well formed. *)
Lemma Debugger_set_enabled_well (tests0 : gmap nat callable)
    (parsers0 : nat -> callable) (is_enabled : bool) (w : World) :
  well_instrumented tests0 parsers0 w ->
  well_instrumented tests0 parsers0
    (Debugger_set_enabled TEST_TYPES PARSERS is_enabled w).
Proof.
  intros Hw. unfold Debugger_set_enabled.
  destruct (Debugger__uninstrument_restores tests0 parsers0 w Hw) as [Hct Hpp].
  destruct (Debugger__uninstrument_lists w) as [Hlt Hlp].
  set (c := Debugger__uninstrument w) in *.
  destruct is_enabled.
  - destruct (Debugger__instrument_well c Hlt Hlp) as (G1 & G2 & G3 & G4).
    rewrite Hct in G1.
    split; [exact G1|]. split; [exact G2|]. split; [|exact G4].
    apply (parsers_linked_base (Parser_parse c)); assumption.
  - unfold well_instrumented. rewrite Hlt, Hlp.
    split; [|split; [|split]].
    + split; [apply NoDup_nil_2|]. split.
      * intros a Hin. inversion Hin.
      * intros k _. rewrite Hct. reflexivity.
    + intros a Hin. inversion Hin.
    + split; [apply NoDup_nil_2|]. split.
      * intros a Hin. inversion Hin.
      * intros p _. apply Hpp.
    + intros a Hin. inversion Hin.
Qed.

(** Every operation keeps the instrumentation well formed. *)
Lemma run_operation_well (tests0 : gmap nat callable) (parsers0 : nat -> callable)
    (o : operation) (w : World) :
  well_instrumented tests0 parsers0 w ->
  well_instrumented tests0 parsers0 (run_operation TEST_TYPES PARSERS o w).
Proof.
  intros Hw. destruct o as [b| | |b]; cbn [run_operation].
  - apply Debugger_set_enabled_well. exact Hw.
  - unfold Debugger_enter.
    set (w1 := with_dbg _ w).
    assert (H1 : well_instrumented tests0 parsers0 w1)
      by (apply (well_instrumented_ext tests0 parsers0 w w1); auto).
    destruct (_ =? 1); [apply Debugger_set_enabled_well|]; exact H1.
  - unfold Debugger_exit.
    set (w1 := with_dbg _ w).
    assert (H1 : well_instrumented tests0 parsers0 w1)
      by (apply (well_instrumented_ext tests0 parsers0 w w1); auto).
    destruct (_ =? 0); [apply Debugger_set_enabled_well|]; exact H1.
  - unfold BreakOnSubmatching_set_value.
    destruct (Variable_set_value (break_on_submatching_var w) b) as [[u|e] v].
    + set (w1 := set_break_on_submatching_var v w).
      assert (H1 : well_instrumented tests0 parsers0 w1)
        by (apply (well_instrumented_ext tests0 parsers0 w w1); auto).
      destruct (Debugger_enabled w1); cbn [snd]; [|exact H1].
      apply (Debugger_set_enabled_well tests0 parsers0 true w1 H1).
    + cbn [snd]. apply (well_instrumented_ext tests0 parsers0 w); auto.
Qed.

(** Disabling after any sequence of operations, in a host where no parser
    is registered twice: every class has its test function back, every
    parser its [parse] function, and both lists are empty. *)
Lemma disable_restores (ops : list operation) (w : World) :
  instrumented_tests (dbg w) = [] -> instrumented_parsers (dbg w) = [] ->
  let final :=
    Debugger_set_enabled TEST_TYPES PARSERS false
      (run_operations TEST_TYPES PARSERS ops w) in
  class_test final = class_test w
  /\ (forall p, Parser_parse final p = Parser_parse w p)
  /\ instrumented_tests (dbg final) = []
  /\ instrumented_parsers (dbg final) = [].
Proof.
  intros Ht Hp final.
  assert (Hw : well_instrumented (class_test w) (Parser_parse w)
                 (run_operations TEST_TYPES PARSERS ops w)).
  { unfold run_operations.
    apply (fold_left_preserves (well_instrumented (class_test w) (Parser_parse w))).
    - intros a o Ha. apply run_operation_well. exact Ha.
    - unfold well_instrumented. rewrite Ht, Hp.
      split; [|split; [|split]].
      + split; [apply NoDup_nil_2|]. split; [intros a Hin; inversion Hin|reflexivity].
      + intros a Hin. inversion Hin.
      + split; [apply NoDup_nil_2|]. split; [intros a Hin; inversion Hin|reflexivity].
      + intros a Hin. inversion Hin. }
  subst final. unfold Debugger_set_enabled.
  destruct (Debugger__uninstrument_restores _ _ _ Hw) as [Hct Hpp].
  destruct (Debugger__uninstrument_lists (run_operations TEST_TYPES PARSERS ops w))
    as [Hlt Hlp].
  repeat split; assumption.
Qed.

End Restoring.

(** C5 at a registry in which one parser is registered for two MIME types:
    the parser is instrumented twice, the second object saving the wrapper
    of the first as the function to restore.  Disabling takes the objects
    down in the order of their creation, so the parser ends up holding the
    wrapper of the first object: both lists are empty and the class has
    its test function back, but the parser still carries a hook.  Disabling
    once more changes nothing. *)
Theorem disable_leaves_hook_on_shared_parser :
  let TEST_TYPES : gset nat := {[ 0%nat ]} in
  let PARSERS : gmap string (gset nat) :=
    {[ "application/zip" := {[ 7%nat ]}; "application/java-archive" := {[ 7%nat ]} ]} in
  let w := fresh_world true {[ 0%nat := Native 0 ]} ∅ in
  let enabled := run_operations TEST_TYPES PARSERS [op_set_enabled true] w in
  let disabled := run_operations TEST_TYPES PARSERS [op_set_enabled false] enabled in
  parsers_in_order PARSERS = [7%nat; 7%nat]
  /\ Parser_parse w 7 = Native 7
  /\ Parser_parse enabled 7 = Hook 1
  /\ parser_records enabled
     = [{| parser := 7; original_parser := Some (Native 7) |};
        {| parser := 7; original_parser := Some (Hook 0) |}]
  /\ instrumented_tests (dbg disabled) = []
  /\ instrumented_parsers (dbg disabled) = []
  /\ Class_test disabled 0 = Native 0
  /\ Parser_parse disabled 7 = Hook 0
  /\ run_operations TEST_TYPES PARSERS [op_set_enabled false] disabled = disabled.
Proof. vm_compute. repeat split. Qed.

(** ** Escaping bytes *)

Lemma string_forallb_app (f : ascii -> bool) (a b : string) :
  string_forallb f (a +:+ b) = string_forallb f a && string_forallb f b.
Proof.
  induction a as [|c a IH]; [reflexivity|].
  change (String c a +:+ b) with (String c (a +:+ b)).
  cbn [string_forallb]. rewrite IH. apply andb_assoc.
Qed.

Lemma string_length_app (a b : string) :
  String.length (a +:+ b) = (String.length a + String.length b)%nat.
Proof.
  induction a as [|c a IH]; [reflexivity|].
  change (String c a +:+ b) with (String c (a +:+ b)).
  cbn [String.length]. rewrite IH. reflexivity.
Qed.

Lemma string_app_assoc (a b c : string) : (a +:+ b) +:+ c = a +:+ (b +:+ c).
Proof.
  induction a as [|x a IH]; [reflexivity|].
  change (String x a +:+ b) with (String x (a +:+ b)).
  change (String x (a +:+ b) +:+ c) with (String x ((a +:+ b) +:+ c)).
  rewrite IH. reflexivity.
Qed.

Lemma string_app_nil_r (a : string) : a +:+ EmptyString = a.
Proof.
  induction a as [|x a IH]; [reflexivity|].
  change (String x a +:+ EmptyString) with (String x (a +:+ EmptyString)).
  rewrite IH. reflexivity.
Qed.

Lemma string_escape_cons (b : Byte.byte) (rest : bytes) :
  string_escape (b :: rest) = string_escape_int (byte_value b) +:+ string_escape rest.
Proof. reflexivity. Qed.

(** The escape of a byte string is the escapes of its parts, one after the
    other. *)
Lemma string_escape_app (a b : bytes) :
  string_escape (a ++ b) = string_escape a +:+ string_escape b.
Proof.
  induction a as [|x a IH]; [reflexivity|].
  change ((x :: a) ++ b) with (x :: (a ++ b)).
  rewrite !string_escape_cons, IH, string_app_assoc. reflexivity.
Qed.

Lemma string_escape_byte_facts (b : Byte.byte) :
  string_forallb is_printable (string_escape_int (byte_value b)) = true
  /\ (1 <= String.length (string_escape_int (byte_value b)) <= 4)%nat.
Proof. destruct b; vm_compute; repeat split; lia. Qed.

(** X1: whatever the bytes, their escape is made of printable ASCII
    characters only. *)
Theorem string_escape_printable (input : bytes) :
  string_forallb is_printable (string_escape input) = true.
Proof.
  induction input as [|b rest IH]; [reflexivity|].
  rewrite string_escape_cons, string_forallb_app, IH.
  rewrite (proj1 (string_escape_byte_facts b)). reflexivity.
Qed.

(** X2: a byte takes between one and four characters, so the escape of a
    byte string is at least as long as the string and at most four times
    as long; and lengths add up over concatenation, so a longer prefix
    never has a shorter escape. *)
Theorem string_escape_length (a b : bytes) :
  (List.length a <= String.length (string_escape a) <= 4 * List.length a)%nat
  /\ String.length (string_escape (a ++ b))
     = (String.length (string_escape a) + String.length (string_escape b))%nat.
Proof.
  split; [|rewrite string_escape_app; apply string_length_app].
  induction a as [|x a IH]; [cbn; lia|].
  rewrite string_escape_cons, string_length_app.
  pose proof (proj2 (string_escape_byte_facts x)). cbn [List.length]. lia.
Qed.

Lemma string_unescape_one_escape (b : Byte.byte) (rest : string) :
  string_unescape_one (string_escape_int (byte_value b) +:+ rest) = Some (b, rest).
Proof. destruct b; reflexivity. Qed.

Lemma string_unescape_one_empty_escape (b : Byte.byte) (rest : bytes) :
  string_escape (b :: rest) <> EmptyString.
Proof.
  rewrite string_escape_cons. intros H.
  pose proof (string_unescape_one_escape b (string_escape rest)) as Hu.
  rewrite H in Hu. discriminate.
Qed.

(** X3: the escape is unambiguous: two byte strings with the same escape
    are the same byte string. *)
Theorem string_escape_injective (a b : bytes) :
  string_escape a = string_escape b -> a = b.
Proof.
  revert b. induction a as [|x a IH]; intros [|y b] H.
  - reflexivity.
  - symmetry in H. apply string_unescape_one_empty_escape in H. contradiction.
  - apply string_unescape_one_empty_escape in H. contradiction.
  - rewrite !string_escape_cons in H.
    pose proof (string_unescape_one_escape x (string_escape a)) as Hx.
    rewrite H, string_unescape_one_escape in Hx.
    injection Hx as <- Hrest. f_equal. apply IH. symmetry. exact Hrest.
Qed.

(** A backslash followed by [x41] and the letter [A] are told apart. *)
Lemma string_escape_injective_witness :
  [Byte.x5c; Byte.x78; Byte.x34; Byte.x31] = [Byte.x5c; Byte.x78; Byte.x34; Byte.x31]
  /\ string_escape [Byte.x5c; Byte.x78; Byte.x34; Byte.x31] <> string_escape [Byte.x41].
Proof.
  split.
  - apply (string_escape_injective [Byte.x5c; Byte.x78; Byte.x34; Byte.x31]
             [Byte.x5c; Byte.x78; Byte.x34; Byte.x31]).
    reflexivity.
  - intros H. apply string_escape_injective in H. discriminate.
Defined.

(** ** Styled text *)

Lemma visible_from_app (st : bool) (a b : string) :
  visible_from st (a +:+ b)
  = visible_from st a +:+ visible_from (sequence_state st a) b.
Proof.
  revert st. induction a as [|c a IH]; intros st; [reflexivity|].
  change (String c a +:+ b) with (String c (a +:+ b)).
  cbn [visible_from sequence_state].
  destruct st; [apply IH|].
  destruct (Ascii.eqb c ESC); [apply IH|].
  destruct (Ascii.eqb c SOH || Ascii.eqb c STX); [apply IH|].
  rewrite IH. reflexivity.
Qed.

Lemma readline_width_from_app (st : bool) (a b : string) :
  readline_width_from st (a +:+ b)
  = (readline_width_from st a + readline_width_from (hidden_state st a) b)%nat.
Proof.
  revert st. induction a as [|c a IH]; intros st; [reflexivity|].
  change (String c a +:+ b) with (String c (a +:+ b)).
  cbn [readline_width_from hidden_state].
  destruct st.
  - destruct (Ascii.eqb c SOH) eqn:H1; destruct (Ascii.eqb c STX) eqn:H2;
      cbn [negb]; try apply IH.
    apply Ascii.eqb_eq in H1, H2. subst c. discriminate.
  - destruct (Ascii.eqb c SOH); [apply IH|].
    destruct (Ascii.eqb c STX); rewrite IH; reflexivity.
Qed.

Lemma contains_false_cons (sep c : ascii) (rest : string) :
  contains sep (String c rest) = false ->
  Ascii.eqb c sep = false /\ contains sep rest = false.
Proof. cbn [contains]. apply orb_false_elim. Qed.

Lemma is_plain_text_cons (c : ascii) (rest : string) :
  is_plain_text (String c rest) = true ->
  Ascii.eqb c ESC = false /\ Ascii.eqb c SOH = false /\ Ascii.eqb c STX = false
  /\ is_plain_text rest = true.
Proof.
  unfold is_plain_text. intros H. apply negb_true_iff in H.
  apply orb_false_elim in H. destruct H as [H H3].
  apply orb_false_elim in H. destruct H as [H1 H2].
  apply contains_false_cons in H1, H2, H3.
  destruct H1 as [-> ->], H2 as [-> ->], H3 as [-> ->]. auto.
Qed.

(** A plain text is shown as it is, counts in full for the line editor,
    and leaves both scanners where they were. *)
Lemma plain_text_facts (text : string) :
  is_plain_text text = true ->
  visible_from false text = text
  /\ sequence_state false text = false
  /\ (forall st, hidden_state st text = st)
  /\ readline_width_from false text = String.length text
  /\ readline_width_from true text = O.
Proof.
  induction text as [|c rest IH]; intros H; [repeat split|].
  apply is_plain_text_cons in H. destruct H as (H1 & H2 & H3 & H).
  destruct (IH H) as (I1 & I2 & I3 & I4 & I5).
  cbn [visible_from sequence_state hidden_state readline_width_from String.length].
  rewrite H1, H2, H3. cbn [orb negb]. rewrite I1, I2, I4, I5.
  repeat split. exact I3.
Qed.

(** The prefixes of every style are control sequences, complete ones. *)
Lemma style_prefixes_facts (s : style) :
  visible_from false (join (style_prefixes s)) = EmptyString
  /\ sequence_state false (join (style_prefixes s)) = false
  /\ is_plain_text (join (style_prefixes s))
     = match style_prefixes s with [] => true | _ => false end
  /\ contains SOH (join (style_prefixes s)) = false
  /\ contains STX (join (style_prefixes s)) = false.
Proof.
  destruct s as [[|] [|] [[| | | | | | |]|]]; vm_compute; repeat split.
Qed.

(** X4: whatever the style and whether or not the markers for the line
    editor are asked for, a terminal shows of [format]'s result exactly
    the message, provided the message itself holds no escape character
    and no marker.  The same holds for the text that [Debugger.write]
    sends to the standard output, terminal or not. *)
Theorem ANSIWriter_format_visible (message : string) (s : style)
    (escape_for_readline stdout_isatty : bool) :
  is_plain_text message = true ->
  visible (ANSIWriter_format message s escape_for_readline) = message
  /\ visible (Debugger_write stdout_isatty message s) = message.
Proof.
  intros Hplain.
  destruct (plain_text_facts message Hplain) as (Hv & Hs & _).
  destruct (style_prefixes_facts s) as (Pv & Ps & _).
  assert (Hfmt : forall e, visible (ANSIWriter_format message s e) = message).
  { intros e. unfold visible, ANSIWriter_format.
    destruct (style_prefixes s) as [|p ps] eqn:Hp; [exact Hv|].
    destruct e.
    - change (String SOH ?x) with (String SOH EmptyString +:+ x).
      rewrite !visible_from_app.
      change (sequence_state false (String SOH EmptyString)) with false.
      rewrite Pv, Ps.
      change (String STX ?x) with (String STX EmptyString +:+ x).
      rewrite !visible_from_app.
      change (sequence_state false (String STX EmptyString)) with false.
      rewrite Hv, Hs. cbn. apply string_app_nil_r.
    - rewrite !visible_from_app, Pv, Ps, Hv, Hs. cbn. apply string_app_nil_r. }
  split; [apply Hfmt|].
  unfold Debugger_write. destruct stdout_isatty; [apply Hfmt|exact Hv].
Qed.

Lemma ANSIWriter_format_visible_witness :
  visible (ANSIWriter_format "Test failed."
             {| bold := true; dim := false; color := Some RED |} true)
  = "Test failed.".
Proof.
  apply (proj1 (ANSIWriter_format_visible "Test failed."
                  {| bold := true; dim := false; color := Some RED |} true true
                  eq_refl)).
Defined.

(** X5: with the markers for the line editor, formatting adds nothing to
    the width that the editor gives a text: whatever the message and the
    style, the width of the formatted text is the width of the message,
    because every control sequence that [format] adds lies between a pair
    of markers.  This holds also for a message that was formatted before,
    such as the question that [debug_parse] hands to [prompt].  For a
    message that holds no escape character and no marker, the width is
    the length of the message. *)
Theorem ANSIWriter_format_readline_width (message : string) (s : style) :
  readline_width (ANSIWriter_format message s true) = readline_width message
  /\ (is_plain_text message = true ->
      readline_width (ANSIWriter_format message s true) = String.length message).
Proof.
  assert (Hgen : readline_width (ANSIWriter_format message s true)
                 = readline_width message).
  { destruct (style_prefixes_facts s) as (_ & _ & _ & P1 & P2).
    unfold readline_width, ANSIWriter_format.
    destruct (style_prefixes s) as [|p ps] eqn:Hp; [reflexivity|].
    set (pre := join (p :: ps)) in *.
    assert (Hpre : hidden_state true pre = true
                   /\ readline_width_from true pre = O).
    { clear -P1 P2. induction pre as [|c rest IH]; [split; reflexivity|].
      apply contains_false_cons in P1, P2.
      destruct P1 as [E1 P1], P2 as [E2 P2].
      cbn [hidden_state readline_width_from]. rewrite E1, E2.
      destruct (IH P1 P2) as [I1 I2]. split; assumption. }
    cbn [readline_width_from].
    change (Ascii.eqb SOH SOH) with true. cbn match.
    rewrite readline_width_from_app.
    destruct Hpre as [-> ->].
    cbn [readline_width_from].
    change (Ascii.eqb STX STX) with true. cbn [negb].
    rewrite readline_width_from_app.
    assert (Htail : forall st,
               readline_width_from st
                 (String SOH (String ESC ("[0m" +:+ String STX EmptyString))) = O).
    { intros [|]; reflexivity. }
    rewrite Htail. lia. }
  split; [exact Hgen|].
  intros Hplain. rewrite Hgen.
  destruct (plain_text_facts message Hplain) as (_ & _ & _ & Hw & _). exact Hw.
Qed.

(** The text in bold, and the same text formatted a second time. *)
Lemma ANSIWriter_format_readline_width_witness :
  readline_width (ANSIWriter_format "(polyfile) "
                    {| bold := true; dim := false; color := None |} true)
  = 11%nat
  /\ readline_width
       (ANSIWriter_format
          (ANSIWriter_format "(polyfile) "
             {| bold := false; dim := true; color := Some GREEN |} true)
          {| bold := true; dim := false; color := None |} true)
     = 11%nat.
Proof.
  split.
  - apply (proj2 (ANSIWriter_format_readline_width "(polyfile) "
                    {| bold := true; dim := false; color := None |}) eq_refl).
  - rewrite (proj1 (ANSIWriter_format_readline_width
                      (ANSIWriter_format "(polyfile) "
                         {| bold := false; dim := true; color := Some GREEN |} true)
                      {| bold := true; dim := false; color := None |})).
    apply (proj2 (ANSIWriter_format_readline_width "(polyfile) "
                    {| bold := false; dim := true; color := Some GREEN |}) eq_refl).
Defined.

(** ** The window of bytes around an offset *)

Lemma firstn_clamp {A : Type} (k : nat) (l : list A) :
  List.firstn k l = List.firstn (Nat.min k (List.length l)) l.
Proof.
  destruct (Nat.le_gt_cases k (List.length l)) as [H|H].
  - rewrite Nat.min_l by exact H. reflexivity.
  - rewrite Nat.min_r by lia. rewrite !List.firstn_all2 by lia. reflexivity.
Qed.

(** A slice between two indices that are not negative. *)
Lemma py_slice_nonneg {A : Type} (l : list A) (start stop : Z) :
  0 <= start -> 0 <= stop ->
  py_slice l start stop
  = List.firstn (Z.to_nat stop - Z.to_nat start) (List.skipn (Z.to_nat start) l).
Proof.
  intros Ha Hb. unfold py_slice.
  destruct (Z.ltb_spec start 0) as [?|_]; [lia|].
  destruct (Z.ltb_spec stop 0) as [?|_]; [lia|].
  set (n := List.length l).
  destruct (Z.le_gt_cases start (Z.of_nat n)) as [Hs|Hs].
  - rewrite (Z.min_l start) by exact Hs.
    rewrite (firstn_clamp (Z.to_nat stop - Z.to_nat start)).
    rewrite (firstn_clamp (Z.to_nat (Z.min stop (Z.of_nat n) - start))).
    f_equal. rewrite List.length_skipn. fold n. lia.
  - rewrite (Z.min_r start) by lia.
    rewrite !List.skipn_all2 by (fold n; lia).
    rewrite !List.firstn_nil. reflexivity.
Qed.

Lemma firstn_skipn_app {A : Type} (a b c : nat) (l : list A) :
  (a <= b <= c)%nat ->
  List.firstn (b - a) (List.skipn a l) ++ List.firstn (c - b) (List.skipn b l)
  = List.firstn (c - a) (List.skipn a l).
Proof.
  intros H.
  replace (List.skipn b l) with (List.skipn (b - a) (List.skipn a l))
    by (rewrite List.skipn_skipn; f_equal; lia).
  replace (c - a)%nat with ((b - a) + (c - b))%nat by lia.
  generalize (List.skipn a l) as x. generalize (b - a)%nat as n.
  generalize (c - b)%nat as m. clear.
  intros m n. induction n as [|n IH]; intros x; [reflexivity|].
  destruct x as [|y x]; [cbn; rewrite List.firstn_nil; reflexivity|].
  cbn. rewrite IH. reflexivity.
Qed.

Lemma repeat_char_length (c : ascii) (n : nat) : String.length (repeat_char c n) = n.
Proof. induction n as [|n IH]; cbn; [reflexivity|rewrite IH; reflexivity]. Qed.

(** X6: for an offset within the data, [print_context] writes the escape
    of up to [context_bytes] bytes that end at the offset, then the escape
    of the [num_bytes] bytes at the offset, then the escape of up to
    [context_bytes] bytes that follow; the three pieces are consecutive in
    the data.  The second line has one blank under every character of the
    first and of the third piece and one caret under every character of
    the second. *)
Theorem print_context_window (input : bytes) (offset context_bytes num_bytes : Z) :
  0 <= offset <= Z.of_nat (List.length input) -> 0 <= context_bytes -> 0 <= num_bytes ->
  exists before current after : bytes,
    print_context input offset context_bytes num_bytes
    = [string_escape before; string_escape current; string_escape after; newline;
       repeat_char " " (String.length (string_escape before));
       repeat_char "^" (String.length (string_escape current));
       repeat_char " " (String.length (string_escape after)) +:+ newline]
    /\ List.length before = Z.to_nat (Z.min offset context_bytes)
    /\ current = List.firstn (Z.to_nat num_bytes) (List.skipn (Z.to_nat offset) input)
    /\ (List.length after <= Z.to_nat context_bytes)%nat
    /\ before ++ current ++ after
       = List.firstn (Z.to_nat (Z.min offset context_bytes + num_bytes + context_bytes))
           (List.skipn (Z.to_nat (offset - Z.min offset context_bytes)) input).
Proof.
  intros Ho Hc Hn.
  unfold print_context, context_slices.
  set (bb := Z.min offset context_bytes).
  assert (Hbb : 0 <= bb <= offset) by (subst bb; lia).
  eexists _, _, _. split; [reflexivity|].
  rewrite !py_slice_nonneg by lia.
  split; [|split; [|split]].
  - rewrite List.length_firstn, List.length_skipn. lia.
  - f_equal. lia.
  - rewrite List.length_firstn. lia.
  - rewrite (firstn_skipn_app (Z.to_nat offset) (Z.to_nat (offset + num_bytes))
               (Z.to_nat (offset + num_bytes + context_bytes))) by lia.
    rewrite (firstn_skipn_app (Z.to_nat (offset - bb)) (Z.to_nat offset)
               (Z.to_nat (offset + num_bytes + context_bytes))) by lia.
    f_equal. lia.
Qed.

(** Two bytes at offset 2 of a five-byte buffer, with a context of one. *)
Lemma print_context_window_witness :
  exists before current after : bytes,
    print_context [Byte.x50; Byte.x4b; Byte.x03; Byte.x04; Byte.x0a] 2 1 2
    = [string_escape before; string_escape current; string_escape after; newline;
       repeat_char " " (String.length (string_escape before));
       repeat_char "^" (String.length (string_escape current));
       repeat_char " " (String.length (string_escape after)) +:+ newline]
    /\ List.length before = 1%nat
    /\ current = [Byte.x03; Byte.x04]
    /\ (List.length after <= 1)%nat
    /\ before ++ current ++ after = [Byte.x4b; Byte.x03; Byte.x04; Byte.x0a].
Proof.
  apply (print_context_window [Byte.x50; Byte.x4b; Byte.x03; Byte.x04; Byte.x0a] 2 1 2);
    cbn; lia.
Defined.

(** ** Asking a question *)

(** X7: [prompt] asks again after every answer that, trimmed and in lower
    case, is neither empty nor [y] nor [n].  The first other answer
    decides: empty gives the default, [y] gives [True], [n] gives [False],
    and the lines after it are left unread.  When the input ends before
    such an answer, the question ends in [KeyboardInterrupt].  The prompt
    is shown once per line read, and once more at the end of the input. *)
Theorem Debugger_prompt_first_answer (stderr_isatty : bool) (message : string)
    (default : bool) (ignored : list string) :
  Forall (fun line => lower (strip line) <> EmptyString
                      /\ lower (strip line) <> "n" /\ lower (strip line) <> "y")
         ignored ->
  let text := prompt_text stderr_isatty message default in
  Debugger_prompt stderr_isatty message default ignored
  = (Interrupt, [], List.repeat text (S (List.length ignored)))
  /\ (forall (line : string) (rest : list string),
        (lower (strip line) = EmptyString
         \/ lower (strip line) = "n" \/ lower (strip line) = "y") ->
        Debugger_prompt stderr_isatty message default (ignored ++ line :: rest)
        = (Answer (if String.eqb (lower (strip line)) EmptyString then default
                   else String.eqb (lower (strip line)) "y"),
           rest, List.repeat text (S (List.length ignored)))).
Proof.
  intros Hign text. induction Hign as [|x ignored (H0 & Hn & Hy) Hrest [IH1 IH2]].
  - split; [reflexivity|]. intros line rest Hline. cbn [app Debugger_prompt].
    fold text. destruct Hline as [-> | [-> | ->]]; reflexivity.
  - assert (Hx : forall tail,
               Debugger_prompt stderr_isatty message default (x :: tail)
               = (let '(result, rest', shown) :=
                    Debugger_prompt stderr_isatty message default tail in
                  (result, rest', text :: shown))).
    { intros tail. cbn [Debugger_prompt]. fold text.
      destruct (lower (strip x)) as [|c s] eqn:Hx; [contradiction|].
      cbn [truthy_str negb].
      destruct (String.eqb_spec (String c s) "n") as [E|_]; [contradiction|].
      destruct (String.eqb_spec (String c s) "y") as [E|_]; [contradiction|].
      reflexivity. }
    split.
    + rewrite Hx, IH1. reflexivity.
    + intros line rest Hline. cbn [app]. rewrite Hx, (IH2 line rest Hline). reflexivity.
Qed.

Lemma Debugger_prompt_first_answer_witness :
  Debugger_prompt false "Continue debugging the next submatch?" true
    ["maybe"; "what"; " N "; "y"]
  = (Answer false, ["y"],
     List.repeat (prompt_text false "Continue debugging the next submatch?" true) 3).
Proof.
  apply (proj2 (Debugger_prompt_first_answer false
                  "Continue debugging the next submatch?" true ["maybe"; "what"]
                  ltac:(repeat constructor; discriminate)) " N " ["y"]).
  right. left. reflexivity.
Defined.

(** ** The hook around a parser *)

Section ParserHook.

Variable Match : Type.
Variable match_class_name : Match -> string.
Variable match_offset : Match -> Z.
Variable parser_str : nat -> string.
Variable HostGen : Type.
Variable native_parse : nat -> Match -> HostGen.
Variable host_next : HostGen -> World -> list string -> resumption Match HostGen.
Variable Pdb_runcall :
  (World -> list string -> resumption Match (Gen Match HostGen)) ->
  World -> list string ->
  option (resumed Match (Gen Match HostGen)) * list (event Match) * list string * World.
Variable stderr_isatty : bool.

Local Abbreviation next :=
  (gen_next Match match_class_name match_offset parser_str HostGen native_parse host_next
     Pdb_runcall stderr_isatty).

(** Inside [yield from] over a generator of the host, every [next] is a
    [next] on that generator. *)
Lemma gen_next_passing_host (depth : nat) (h : HostGen) (w : World)
    (stdin : list string) :
  next (S (S depth)) (passing (host h)) w stdin
  = (let '(res, log, stdin1, w1) := host_next h w stdin in
     (match res with
      | Yielded item h' => Yielded item (passing (host h'))
      | Ended e => Ended e
      end,
      log, stdin1, w1)).
Proof.
  cbn [gen_next]. unfold yield_from. cbn [gen_next].
  destruct (host_next h w stdin) as [[[[item h'|e] log] stdin1] w1]; reflexivity.
Qed.

Lemma gen_next_passing (depth : nat) (g : Gen Match HostGen) (w : World)
    (stdin : list string) :
  next (S depth) (passing g) w stdin = yield_from (next depth) g w stdin.
Proof. reflexivity. Qed.

Lemma iterate_passing_host (depth rounds : nat)
    (consume : Match -> World -> list string -> World * list string) :
  forall (h : HostGen) (w : World) (stdin : list string),
    iterate rounds (next (S (S (S depth)))) consume (passing (passing (host h))) w stdin
    = iterate rounds host_next consume h w stdin.
Proof.
  induction rounds as [|n IH]; intros h w stdin; [reflexivity|].
  cbn [iterate]. rewrite gen_next_passing. unfold yield_from at 1.
  rewrite gen_next_passing_host.
  destruct (host_next h w stdin) as [[[[item h'|e] log] stdin1] w1]; [|reflexivity].
  destruct (consume item w1 stdin1) as [w2 stdin2]. rewrite IH. reflexivity.
Qed.

(** X8: a parser whose [parse] was replaced by the wrapper of an
    instrumentation object that holds the host's original function.  When
    the user declines the source-level debugger at the question that
    [debug_parse] asks, or when a session is open already, iterating the
    generator that the wrapper gives is iterating the original's: the same
    submatches in the same order, the same end (exhaustion or the
    original's exception), the same input left and the same world,
    whatever the caller does between two submatches.  The question, when
    it is asked, takes its lines from the input at the first [next],
    before the original first runs. *)
Theorem debug_parse_transparent (depth rounds hook : nat) (r : InstrumentedParser)
    (p : nat) (the_match : Match) (w : World) (stdin : list string)
    (consume : Match -> World -> list string -> World * list string) :
  parser_records w !! hook = Some r ->
  original_parser r = Some (Native p) ->
  (forall (stdin1 asked : list string),
      _pdb (dbg w) = None ->
      Debugger_prompt stderr_isatty (debug_question stderr_isatty) false stdin
      = (Answer false, stdin1, asked) ->
      iterate (S rounds) (next (S (S (S depth)))) consume
        (start native_parse (Hook hook) the_match) w stdin
      = iterate (S rounds) host_next consume (native_parse p the_match) w stdin1)
  /\ (forall session : nat,
        _pdb (dbg w) = Some session ->
        iterate rounds (next (S (S (S depth)))) consume
          (start native_parse (Hook hook) the_match) w stdin
        = iterate rounds host_next consume (native_parse p the_match) w stdin).
Proof.
  intros Hr Hf.
  assert (Hfirst : forall w0 stdin0,
             yield_from (next (S depth)) (start native_parse (Native p) the_match)
               w0 stdin0
             = (let '(res, log, stdin1, w1) :=
                  host_next (native_parse p the_match) w0 stdin0 in
                (match res with
                 | Yielded item h' => Yielded item (passing (host h'))
                 | Ended e => Ended e
                 end,
                 log, stdin1, w1))).
  { intros w0 stdin0. unfold yield_from, start. cbn [gen_next].
    destruct (host_next (native_parse p the_match) w0 stdin0)
      as [[[[item h'|e] log] stdin1] w1]; reflexivity. }
  assert (Hstep : forall stdin1,
             (exists asked,
                 _pdb (dbg w) = None
                 /\ Debugger_prompt stderr_isatty (debug_question stderr_isatty) false
                      stdin = (Answer false, stdin1, asked))
             \/ (is_Some (_pdb (dbg w)) /\ stdin1 = stdin) ->
             exists intro,
               next (S (S (S depth))) (start native_parse (Hook hook) the_match) w stdin
               = (let '(res, log, stdin2, w1) :=
                    host_next (native_parse p the_match) w stdin1 in
                  (match res with
                   | Yielded item h' => Yielded item (passing (passing (host h')))
                   | Ended e => Ended e
                   end,
                   intro ++ log, stdin2, w1))).
  { intros stdin1 Hcase. unfold start. rewrite gen_next_passing.
    unfold yield_from at 1. cbn [gen_next]. unfold Debugger_debug_parse.
    rewrite Hr, Hf.
    destruct Hcase as [(asked & Hpdb & Hanswer)|[[session Hpdb] ->]].
    - rewrite Hpdb, Hanswer, Hfirst. eexists.
      destruct (host_next (native_parse p the_match) w stdin1)
        as [[[[item h'|e] log] stdin2] w1]; rewrite app_assoc; reflexivity.
    - rewrite Hpdb, Hfirst. eexists.
      destruct (host_next (native_parse p the_match) w stdin)
        as [[[[item h'|e] log] stdin2] w1]; reflexivity. }
  split.
  - intros stdin1 asked Hpdb Hanswer.
    destruct (Hstep stdin1) as [intro Heq]; [left; eauto|].
    cbn [iterate]. rewrite Heq.
    destruct (host_next (native_parse p the_match) w stdin1)
      as [[[[item h'|e] log] stdin2] w1]; [|reflexivity].
    destruct (consume item w1 stdin2) as [w2 stdin3].
    rewrite iterate_passing_host. reflexivity.
  - intros session Hpdb.
    destruct rounds as [|n]; [reflexivity|].
    destruct (Hstep stdin) as [intro Heq]; [right; rewrite Hpdb; eauto|].
    cbn [iterate]. rewrite Heq.
    destruct (host_next (native_parse p the_match) w stdin)
      as [[[[item h'|e] log] stdin2] w1]; [|reflexivity].
    destruct (consume item w1 stdin2) as [w2 stdin3].
    rewrite iterate_passing_host. reflexivity.
Qed.

(** The [finally] clause leaves no session handle. *)
Lemma release__pdb (w : World) : _pdb (dbg (release w)) = None.
Proof. reflexivity. Qed.

Lemma pdb_round_session
    (nx : Gen Match HostGen -> World -> list string -> resumption Match (Gen Match HostGen))
    (the_match : Match) (inner : Gen Match HostGen) (w : World) (stdin : list string) :
  let '(res, _, _, w') :=
    pdb_round Match match_class_name match_offset HostGen Pdb_runcall nx the_match inner
      w stdin in
  match res with
  | Yielded _ g' => in_session g' = true
  | Ended _ => _pdb (dbg w') = None
  end.
Proof.
  unfold pdb_round.
  destruct (Pdb_runcall (nx inner) w stdin) as [[[[[item g'|[|e|]]|] log] stdin1] w1];
    reflexivity.
Qed.

(** X9: once [debug_parse] has opened a session of the source-level
    debugger, every [next] on its generator either yields, the generator
    staying inside the [try], or ends the generator, and then the handle
    [_pdb] is [None] again: whether the parser is exhausted or raises,
    whether the user quits the source-level debugger, ends the input at a
    question or lets the remaining submatches pass, and whatever the
    parser, the source-level debugger and the caller have done to the
    debugger meanwhile. *)
Theorem debug_parse_releases (depth hook : nat) (g : Gen Match HostGen)
    (the_match : Match) (w : World) (stdin : list string) :
  (in_session g = true ->
   let '(res, _, _, w') := next (S depth) g w stdin in
   match res with
   | Yielded _ g' => in_session g' = true
   | Ended _ => _pdb (dbg w') = None
   end)
  /\ (forall (stdin1 asked : list string),
        is_Some (parser_records w !! hook) ->
        _pdb (dbg w) = None ->
        Debugger_prompt stderr_isatty (debug_question stderr_isatty) false stdin
        = (Answer true, stdin1, asked) ->
        let '(res, _, _, w') :=
          next (S depth) (fresh hook the_match) w stdin in
        match res with
        | Yielded _ g' => in_session g' = true
        | Ended _ => _pdb (dbg w') = None
        end).
Proof.
  split.
  - intros Hs. destruct g as [h|r m|inner|m inner|inner|inner]; try discriminate;
      cbn [gen_next].
    + unfold resume_stepping.
      destruct (Debugger_prompt stderr_isatty _ true stdin) as [[[[|]|] stdin1] asked].
      * pose proof (pdb_round_session (next depth) m inner w stdin1) as H.
        destruct (pdb_round _ _ _ _ _ _ _ inner w stdin1) as [[[res log] stdin2] w1].
        exact H.
      * destruct (Debugger_prompt stderr_isatty _ false stdin1)
          as [[[[|]|] stdin2] asked2].
        -- unfold print_rest.
           destruct (next depth inner w stdin2) as [[[[item g'|e] log] stdin3] w1];
             reflexivity.
        -- unfold finish.
           destruct (next depth inner w stdin2) as [[[[item g'|e] log] stdin3] w1];
             reflexivity.
        -- reflexivity.
      * reflexivity.
    + unfold print_rest.
      destruct (next depth inner w stdin) as [[[[item g'|e] log] stdin1] w1];
        reflexivity.
    + unfold finish.
      destruct (next depth inner w stdin) as [[[[item g'|e] log] stdin1] w1];
        reflexivity.
  - intros stdin1 asked [r Hr] Hpdb Hanswer. cbn [gen_next].
    unfold Debugger_debug_parse. rewrite Hr, Hpdb, Hanswer.
    set (parse := match original_parser r with
                  | Some f => f
                  | None => Parser_parse w (parser r)
                  end).
    pose proof (pdb_round_session (next depth) the_match
                  (start native_parse parse the_match)
                  (with_dbg (set__pdb (Some O)) w) stdin1) as H.
    destruct (pdb_round _ _ _ _ _ _ _ _ _ stdin1) as [[[res log] stdin2] w1].
    exact H.
Qed.

End ParserHook.

(** ** Commands at the prompt *)

Lemma startswith_beginnings (s p : string) :
  startswith s p = true -> In p (beginnings s).
Proof.
  unfold beginnings. revert s. induction p as [|a p IH]; intros s H.
  - apply in_map_iff. exists O. split; [destruct s; reflexivity|].
    apply in_seq. cbn. lia.
  - destruct s as [|b s]; [discriminate|].
    cbn [startswith] in H. apply andb_prop in H. destruct H as [Hab Hp].
    apply Ascii.eqb_eq in Hab. subst b.
    specialize (IH s Hp). apply in_map_iff in IH. destruct IH as (n & Hn & Hin).
    apply in_map_iff. exists (S n). split; [cbn; rewrite Hn; reflexivity|].
    apply in_seq in Hin. apply in_seq. cbn [String.length] in *. lia.
Qed.

(** X10: every beginning of a command name that is not empty selects the
    branch of that command, with one exception: the letter [b] alone
    selects [breakpoint] although it also begins [backtrace].  The empty
    command selects [help].  The commands [set] and [show] are recognised
    in full only. *)
Theorem repl_branch_abbreviations :
  (forall (name : string) (b : branch) (command : string),
      In (name, b) command_table -> command <> EmptyString ->
      startswith name command = true ->
      repl_branch command = if String.eqb command "b" then branch_breakpoint else b)
  /\ repl_branch EmptyString = branch_help
  /\ (forall command, repl_branch command = branch_set <-> command = "set")
  /\ (forall command, repl_branch command = branch_show <-> command = "show").
Proof.
  split; [|split; [reflexivity|split]].
  - intros name b command Hin Hne Hstart.
    apply startswith_beginnings in Hstart.
    unfold command_table in Hin. cbn [In] in Hin.
    repeat (destruct Hin as [Hin|Hin];
            [injection Hin as <- <-; vm_compute in Hstart;
             repeat (destruct Hstart as [<-|Hstart];
                     [try contradiction; try reflexivity|]);
             destruct Hstart|]).
    destruct Hin.
  - intros command. split; [|intros ->; reflexivity].
    unfold repl_branch.
    repeat match goal with
           | |- (if ?c then _ else _) = _ -> _ =>
               destruct c eqn:?; [discriminate|]
           end.
    destruct (String.eqb_spec command "set"); [auto|].
    destruct (String.eqb command "show"); discriminate.
  - intros command. split; [|intros ->; reflexivity].
    unfold repl_branch.
    repeat match goal with
           | |- (if ?c then _ else _) = _ -> _ =>
               destruct c eqn:?; [discriminate|]
           end.
    destruct (String.eqb command "set"); [discriminate|].
    destruct (String.eqb_spec command "show"); [auto|discriminate].
Qed.

Lemma repl_branch_abbreviations_witness :
  repl_branch "cont" = branch_continue
  /\ repl_branch "b" = branch_breakpoint
  /\ repl_branch "ba" = branch_where.
Proof.
  pose proof (proj1 repl_branch_abbreviations) as H.
  split; [|split].
  - apply (H "continue" branch_continue "cont"); [cbn; auto|discriminate|reflexivity].
  - apply (H "backtrace" branch_where "b"); [cbn; auto 20|discriminate|reflexivity].
  - apply (H "backtrace" branch_where "ba"); [cbn; auto 20|discriminate|reflexivity].
Defined.

Section PromptProperties.

Variable TEST_TYPES : gset nat.
Variable PARSERS : gmap string (gset nat).
Variable render_where :
  MagicTest -> Z -> option TestResult -> option TestResult -> World -> list string.
Variable parse_test : string -> MagicTest -> option MagicTest + string.
Variable has_parent : MagicTest -> bool.
Variable run_test :
  MagicTest -> bytes -> Z -> option TestResult -> World ->
  outcome (option TestResult) * World.
Variable Offset : Type.
Variable Offset_parse : string -> Offset + string.
Variable Offset_to_absolute : Offset -> bytes -> option TestResult -> Z + string.
Variable exn_text : exn -> string.
Variable Wildcard_parse_frames : nat.
Variable depth : nat.

Local Abbreviation loop :=
  (repl_loop TEST_TYPES PARSERS render_where parse_test has_parent run_test Offset
     Offset_parse Offset_to_absolute exn_text Wildcard_parse_frames depth).
Local Abbreviation command_round :=
  (repl_command TEST_TYPES PARSERS render_where parse_test has_parent run_test Offset
     Offset_parse Offset_to_absolute exn_text Wildcard_parse_frames depth).

(** X11: a line whose command selects [continue], [step] or [next] ends
    the prompt at once: nothing is written, the lines after it stay
    unread, and the only attributes that change are the step mode and the
    last command.  After [step] the debugger stops at the next test that
    is not the one typed at the prompt, whatever its result; after [next],
    with no breakpoint set, it stops at the next such test whose result is
    truthy; after [continue], with no breakpoint set, it does not stop. *)
Theorem repl_step_commands (text : string) (rest : list string) (w : World)
    (mode : StepMode) :
  text <> EmptyString ->
  In (repl_branch (fst (split_command text)), mode)
     [(branch_continue, RUNNING); (branch_step, SINGLE_STEPPING); (branch_next, NEXT)] ->
  let w' :=
    with_dbg (fun d => assign (assign_last_command (Some (fst (split_command text))))
                         (assign (assign_step_mode mode) d)) w in
  loop (text :: rest) w = ([], Resumed, w', rest)
  /\ forall (t : MagicTest) (input : bytes) (absolute_offset : Z)
            (parent_match result : option TestResult),
       enters_repl t input absolute_offset parent_match result w'
       = negb (is_same_test (repl_test (dbg w)) t)
         && match mode with
            | SINGLE_STEPPING => true
            | NEXT =>
                match breakpoints (dbg w) with
                | [] => truthy_result result
                | _ => enters_repl t input absolute_offset parent_match result w'
                end
            | RUNNING =>
                match breakpoints (dbg w) with
                | [] => false
                | _ => enters_repl t input absolute_offset parent_match result w'
                end
            end.
Proof.
  intros Hne Hin w'. split.
  - cbn [repl_loop]. destruct text as [|c s]; [contradiction|].
    cbn [truthy_str]. unfold repl_command.
    destruct (split_command (String c s)) as [command args]. cbn [fst] in *.
    cbn [In] in Hin.
    destruct Hin as [Hin|[Hin|[Hin|[]]]]; injection Hin as Hb <-; rewrite <- Hb;
      reflexivity.
  - intros t input absolute_offset parent_match result.
    assert (Hself : enters_repl t input absolute_offset parent_match result w'
                    = negb (is_same_test (repl_test (dbg w)) t)
                      && enters_repl t input absolute_offset parent_match result w').
    { destruct (is_same_test (repl_test (dbg w)) t) eqn:Hsame; cbn [negb andb];
        [|reflexivity].
      unfold enters_repl. change (repl_test (dbg w')) with (repl_test (dbg w)).
      rewrite Hsame. reflexivity. }
    destruct mode; [destruct (breakpoints (dbg w)) eqn:Hbs; [|exact Hself]| |
                    destruct (breakpoints (dbg w)) eqn:Hbs; [|exact Hself]].
    all: clear Hself; unfold enters_repl.
    all: change (repl_test (dbg w')) with (repl_test (dbg w)).
    all: destruct (is_same_test (repl_test (dbg w)) t) eqn:Hsame; cbn [negb andb];
      [reflexivity|].
    all: unfold Debugger_should_break.
    all: cbn [record_call with_dbg dbg assign step_mode last_result breakpoints w'
              StepMode_eqb truthy].
    + rewrite Hbs. reflexivity.
    + reflexivity.
    + rewrite Hbs. destruct (truthy_result result) eqn:Hr; cbn; rewrite ?Hr; reflexivity.
Qed.

(** X12: after a line whose command selects [help], the last command is
    [quit], whatever was typed: the loop over the usage table leaves its
    last entry in the variable from which the last command is taken.  An
    empty line after [help] therefore ends the process with status 0. *)
Theorem repl_help_then_blank (text : string) (rest : list string) (w : World) :
  text <> EmptyString ->
  repl_branch (fst (split_command text)) = branch_help ->
  loop (text :: EmptyString :: rest) w
  = (fst (repl_help (fst (split_command text))), Exited 0,
     with_dbg (assign (assign_last_command (Some "quit"))) w, rest).
Proof.
  intros Hne Hb. cbn [repl_loop]. destruct text as [|c s]; [contradiction|].
  cbn [truthy_str]. unfold repl_command at 1.
  destruct (split_command (String c s)) as [command args]. cbn [fst] in *.
  rewrite Hb. cbn [repl_help fst snd truthy_str].
  change (last_command (dbg (with_dbg (assign (assign_last_command
            (Some (List.last (map fst usage) command)))) w)))
    with (Some (List.last (map fst usage) command)).
  change (List.last (map fst usage) command) with "quit".
  unfold repl_command. change (split_command "quit") with ("quit", EmptyString).
  cbv beta iota. change (repl_branch "quit") with branch_quit. cbv beta iota.
  rewrite app_nil_r. reflexivity.
Qed.

(** X13: a command that no branch recognises is reported and forgotten:
    the last command is cleared, so the empty lines that follow repeat
    nothing and the loop goes on with the first line that is not empty. *)
Theorem repl_undefined_command (text : string) (blanks : nat) (rest : list string)
    (w : World) :
  text <> EmptyString ->
  repl_branch (fst (split_command text)) = branch_undefined ->
  loop (text :: List.repeat EmptyString blanks ++ rest) w
  = (let w' := with_dbg (assign (assign_last_command None)) w in
     let '(more, e, w2, rest') := loop rest w' in
     (["Undefined command: " +:+ py_repr (fst (split_command text)) +:+ ". Try "
       +:+ dquote +:+ "help" +:+ dquote +:+ "." +:+ newline] ++ more,
      e, w2, rest')).
Proof.
  intros Hne Hb. cbn [repl_loop]. destruct text as [|c s]; [contradiction|].
  cbn [truthy_str]. unfold repl_command.
  destruct (split_command (String c s)) as [command args]. cbn [fst] in *.
  rewrite Hb. cbn zeta.
  set (w' := with_dbg (assign (assign_last_command None)) w).
  assert (Hskip : loop (List.repeat EmptyString blanks ++ rest) w' = loop rest w').
  { induction blanks as [|n IH]; [reflexivity|]. cbn [List.repeat app repl_loop].
    cbn [truthy_str]. change (last_command (dbg w')) with (@None string). exact IH. }
  rewrite Hskip. reflexivity.
Qed.

End PromptProperties.

(** A parser that yields three submatches, instrumented by enabling the
    debugger; the user answers [n] to the question. *)
Lemma debug_parse_transparent_witness :
  let host_next :=
    fun (h : list nat) (w : World) (stdin : list string) =>
      match h with
      | [] => (@Ended nat (list nat) Exhausted, @nil (event nat), stdin, w)
      | x :: rest => (Yielded x rest, [], stdin, w)
      end in
  let Pdb_runcall :=
    fun (call : World -> list string -> resumption nat (Gen nat (list nat)))
        (w : World) (stdin : list string) =>
      let '(res, log, stdin1, w1) := call w stdin in (Some res, log, stdin1, w1) in
  let consume := fun (_ : nat) (w : World) (stdin : list string) => (w, stdin) in
  let w := Debugger_set_enabled {[ 0%nat ]} {[ "application/zip" := {[ 7%nat ]} ]} true
             (fresh_world true {[ 0%nat := Native 0 ]} ∅) in
  Parser_parse w 7 = Hook 0
  /\ iterate 5
       (gen_next nat (fun _ => "Match") (fun _ => 0) (fun _ => "parser") (list nat)
          (fun _ _ => [1%nat; 2%nat; 3%nat]) host_next Pdb_runcall false 3)
       consume (start (fun _ _ => [1%nat; 2%nat; 3%nat]) (Hook 0) 0%nat) w
       ["n"; "kept"]
     = ([1%nat; 2%nat; 3%nat], Some Exhausted, ["kept"], w).
Proof.
  intros host_next Pdb_runcall consume w. split; [vm_compute; reflexivity|].
  rewrite (proj1 (debug_parse_transparent nat (fun _ => "Match") (fun _ => 0)
                    (fun _ => "parser") (list nat) (fun _ _ => [1%nat; 2%nat; 3%nat])
                    host_next Pdb_runcall false 0 4 0
                    {| parser := 7; original_parser := Some (Native 7) |} 7 0%nat w
                    ["n"; "kept"] consume eq_refl eq_refl)
             ["kept"] [prompt_text false (debug_question false) false]
             eq_refl eq_refl).
  reflexivity.
Defined.

(** The generator suspended in the loop of a session, resumed when the
    input has ended. *)
Lemma debug_parse_releases_witness :
  let host_next :=
    fun (h : list nat) (w : World) (stdin : list string) =>
      match h with
      | [] => (@Ended nat (list nat) Exhausted, @nil (event nat), stdin, w)
      | x :: rest => (Yielded x rest, [], stdin, w)
      end in
  let Pdb_runcall :=
    fun (call : World -> list string -> resumption nat (Gen nat (list nat)))
        (w : World) (stdin : list string) =>
      let '(res, log, stdin1, w1) := call w stdin in (Some res, log, stdin1, w1) in
  let w := with_dbg (set__pdb (Some O)) (fresh_world true ∅ ∅) in
  let '(res, _, _, w') :=
    gen_next nat (fun _ => "Match") (fun _ => 0) (fun _ => "parser") (list nat)
      (fun _ _ => [1%nat; 2%nat; 3%nat]) host_next Pdb_runcall false 1
      (stepping 1%nat (host [2%nat; 3%nat])) w [] in
  match res with
  | Yielded _ g' => in_session g' = true
  | Ended _ => _pdb (dbg w') = None
  end.
Proof.
  intros host_next Pdb_runcall w.
  apply (proj1 (debug_parse_releases nat (fun _ => "Match") (fun _ => 0)
                  (fun _ => "parser") (list nat) (fun _ _ => [1%nat; 2%nat; 3%nat])
                  host_next Pdb_runcall false 0 0 (stepping 1%nat (host [2%nat; 3%nat]))
                  0%nat w [])).
  reflexivity.
Defined.

(** The line [s] at a fresh debugger. *)
Lemma repl_step_commands_witness :
  let w := fresh_world true ∅ ∅ in
  repl_loop ∅ ∅ (fun _ _ _ _ _ => []) (fun _ _ => inr "no test") (fun _ => true)
    (fun _ _ _ _ w0 => (Returned None, w0)) unit (fun _ => inr "no offset")
    (fun _ _ _ => inr "no offset") (fun _ => EmptyString) 1 100 ["s"; "where"] w
  = ([], Resumed,
     with_dbg (fun d => assign (assign_last_command (Some "s"))
                          (assign (assign_step_mode SINGLE_STEPPING) d)) w,
     ["where"]).
Proof.
  intros w.
  apply (proj1 (repl_step_commands ∅ ∅ (fun _ _ _ _ _ => []) (fun _ _ => inr "no test")
                  (fun _ => true) (fun _ _ _ _ w0 => (Returned None, w0)) unit
                  (fun _ => inr "no offset") (fun _ _ _ => inr "no offset")
                  (fun _ => EmptyString) 1 100 "s" ["where"] w SINGLE_STEPPING
                  ltac:(discriminate) ltac:(right; left; reflexivity))).
Defined.

(** The line [h] followed by an empty line. *)
Lemma repl_help_then_blank_witness :
  let w := fresh_world true ∅ ∅ in
  repl_loop ∅ ∅ (fun _ _ _ _ _ => []) (fun _ _ => inr "no test") (fun _ => true)
    (fun _ _ _ _ w0 => (Returned None, w0)) unit (fun _ => inr "no offset")
    (fun _ _ _ => inr "no offset") (fun _ => EmptyString) 1 100 ["h"; EmptyString; "step"] w
  = (fst (repl_help "h"), Exited 0,
     with_dbg (assign (assign_last_command (Some "quit"))) w, ["step"]).
Proof.
  intros w.
  apply (repl_help_then_blank ∅ ∅ (fun _ _ _ _ _ => []) (fun _ _ => inr "no test")
           (fun _ => true) (fun _ _ _ _ w0 => (Returned None, w0)) unit
           (fun _ => inr "no offset") (fun _ _ _ => inr "no offset")
           (fun _ => EmptyString) 1 100 "h" ["step"] w); [discriminate|reflexivity].
Defined.

(** The line [frobnicate], two empty lines, then [quit]. *)
Lemma repl_undefined_command_witness :
  let w := fresh_world true ∅ ∅ in
  repl_loop ∅ ∅ (fun _ _ _ _ _ => []) (fun _ _ => inr "no test") (fun _ => true)
    (fun _ _ _ _ w0 => (Returned None, w0)) unit (fun _ => inr "no offset")
    (fun _ _ _ => inr "no offset") (fun _ => EmptyString) 1 100
    ["frobnicate"; EmptyString; EmptyString; "quit"] w
  = (["Undefined command: 'frobnicate'. Try " +:+ dquote +:+ "help" +:+ dquote +:+ "."
      +:+ newline],
     Exited 0, with_dbg (assign (assign_last_command None)) w, []).
Proof.
  intros w.
  apply (repl_undefined_command ∅ ∅ (fun _ _ _ _ _ => []) (fun _ _ => inr "no test")
           (fun _ => true) (fun _ _ _ _ w0 => (Returned None, w0)) unit
           (fun _ => inr "no offset") (fun _ _ _ => inr "no offset")
           (fun _ => EmptyString) 1 100 "frobnicate" 2 ["quit"] w); [discriminate|reflexivity].
Defined.

(** ** Breakpoints at the prompt *)

Lemma truthy_str_nonempty (s : string) : s <> EmptyString -> truthy_str s = true.
Proof. destruct s; [contradiction|reflexivity]. Qed.

(** The two slices that [delete] joins are the list without one element. *)
Lemma py_slice_delete {A : Type} (l : list A) (i : nat) :
  (i < List.length l)%nat ->
  py_slice l 0 (Z.of_nat i) ++ py_slice l (Z.of_nat i + 1) (Z.of_nat (List.length l))
  = delete i l.
Proof.
  intros Hi. rewrite !py_slice_nonneg by lia.
  rewrite delete_take_drop.
  change (Z.to_nat 0) with O. cbn [List.skipn].
  replace (Z.to_nat (Z.of_nat i) - 0)%nat with i by lia.
  replace (Z.to_nat (Z.of_nat i + 1)) with (S i) by lia.
  f_equal. apply List.firstn_all2. rewrite List.length_skipn. lia.
Qed.

(** [delete] with the index of a breakpoint. *)
Lemma repl_delete_at (command args : string) (w : World) (n : Z) (b : Breakpoint) :
  args <> EmptyString ->
  int args = Returned n ->
  0 <= n ->
  breakpoints (dbg w) !! Z.to_nat n = Some b ->
  repl_delete command args w
  = (["Deleted " +:+ Breakpoint_str b +:+ newline],
     with_dbg (set_breakpoints (delete (Z.to_nat n) (breakpoints (dbg w)))) w,
     fall_through command).
Proof.
  intros Hargs Hint Hn Hb. unfold repl_delete.
  rewrite (truthy_str_nonempty args Hargs), Hint.
  pose proof (lookup_lt_Some _ _ _ Hb) as Hlt.
  destruct (Z.leb_spec 0 n) as [_|?]; [|lia].
  destruct (Z.ltb_spec n (Z.of_nat (List.length (breakpoints (dbg w))))) as [_|?]; [|lia].
  cbn [andb negb]. rewrite Hb.
  rewrite <- (py_slice_delete (breakpoints (dbg w)) (Z.to_nat n)) by exact Hlt.
  rewrite Z2Nat.id by exact Hn. reflexivity.
Qed.

(** X14: [delete ARGS] removes the breakpoint whose index [ARGS] denotes
    and no other, keeping the order of the rest, and names it in the
    message.  When [ARGS] is not an integer, or is an integer that is
    negative or not below the number of breakpoints, the debugger is left as
    it is, an error is printed and the command does not become the last
    command. *)
Theorem repl_delete_spec (command args : string) (w : World) :
  args <> EmptyString ->
  (forall n b,
      int args = Returned n -> 0 <= n ->
      breakpoints (dbg w) !! Z.to_nat n = Some b ->
      repl_delete command args w
      = (["Deleted " +:+ Breakpoint_str b +:+ newline],
         with_dbg (set_breakpoints (delete (Z.to_nat n) (breakpoints (dbg w)))) w,
         fall_through command))
  /\ ((forall n, int args = Returned n ->
                 n < 0 \/ Z.of_nat (List.length (breakpoints (dbg w))) <= n) ->
      repl_delete command args w
      = (["Error: Invalid breakpoint " +:+ dquote +:+ args +:+ dquote +:+ newline],
         w, next_iteration)).
Proof.
  intros Hargs. split.
  - intros n b Hint Hn Hb. apply repl_delete_at; assumption.
  - intros Hout. unfold repl_delete. rewrite (truthy_str_nonempty args Hargs).
    destruct (int args) as [n|e].
    + destruct (Hout n eq_refl) as [Hneg|Hbig].
      * destruct (Z.leb_spec 0 n) as [?|_]; [lia|]. reflexivity.
      * destruct (Z.ltb_spec n (Z.of_nat (List.length (breakpoints (dbg w)))))
          as [?|_]; [lia|].
        rewrite andb_false_r. reflexivity.
    + reflexivity.
Qed.

(** Three breakpoints, the middle one deleted. *)
Lemma repl_delete_spec_witness :
  let bs := [MimeBreakpoint "application/zip"; ExtensionBreakpoint "pdf";
             FileBreakpoint "archive" 525] in
  let w := with_dbg (set_breakpoints bs) (fresh_world true ∅ ∅) in
  repl_delete "d" "1" w
  = (["Deleted Breakpoint: Matching for extension pdf" +:+ newline],
     with_dbg (set_breakpoints [MimeBreakpoint "application/zip";
                                FileBreakpoint "archive" 525]) w,
     fall_through "d").
Proof.
  intros bs w.
  apply (proj1 (repl_delete_spec "d" "1" w ltac:(discriminate)) 1
           (ExtensionBreakpoint "pdf")); [reflexivity|lia|reflexivity].
Defined.

(** ** Variables and ad-hoc tests at the prompt *)

(** The text [=] is no possibility of a Boolean variable, is neither [0]
    nor [f], and is not empty. *)
Lemma BooleanVariable_parse_equals_sign (self : Var bool) (sign : string) :
  possibilities self = [true; false] ->
  strip sign = "=" ->
  BooleanVariable_parse self sign = Returned true.
Proof.
  intros Hposs Hsign. unfold BooleanVariable_parse, Variable_parse.
  rewrite Hsign, Hposs. reflexivity.
Qed.

(** X16: in [set NAME = VALUE], written with spaces around the sign, the
    value is dropped and the sign itself is parsed in its place; for the
    Boolean variable of the debugger this assigns [True] whatever [VALUE]
    is, [False] included, and nothing is written. *)
Theorem repl_set_equals_sign (TEST_TYPES : gset nat) (PARSERS : gmap string (gset nat))
    (command args name sign value : string) (w : World) :
  words (strip args) = [name; sign; value] ->
  strip sign = "=" ->
  variables_by_name (dbg w) !! name = Some break_on_submatching ->
  possibilities (break_on_submatching_var w) = [true; false] ->
  repl_set TEST_TYPES PARSERS command args w
  = ([], snd (BreakOnSubmatching_set_value TEST_TYPES PARSERS true w),
     fall_through command)
  /\ _value (break_on_submatching_var
               (snd (BreakOnSubmatching_set_value TEST_TYPES PARSERS true w))) = true.
Proof.
  intros Hwords Hsign Hname Hposs.
  destruct (BreakOnSubmatching_set_value_spec TEST_TYPES PARSERS true w) as [Hyes _].
  destruct Hyes as [Hfst Hvar]; [rewrite Hposs; left; reflexivity|].
  split.
  - unfold repl_set. rewrite Hwords. cbv beta iota zeta. rewrite Hsign.
    change (String.eqb "=" "=") with true. cbv beta iota.
    rewrite Hname.
    rewrite (BooleanVariable_parse_equals_sign _ sign Hposs Hsign).
    destruct (BreakOnSubmatching_set_value TEST_TYPES PARSERS true w) as [o w'].
    cbn [fst snd] in *. subst o. reflexivity.
  - rewrite Hvar. reflexivity.
Qed.

(** [set break_on_parsing = False] at a debugger that breaks on parsing. *)
Lemma repl_set_equals_sign_witness :
  let w := fresh_world true ∅ ∅ in
  repl_set ∅ ∅ "set" "break_on_parsing = False" w
  = ([], snd (BreakOnSubmatching_set_value ∅ ∅ true w), fall_through "set")
  /\ _value (break_on_submatching_var (snd (BreakOnSubmatching_set_value ∅ ∅ true w)))
     = true.
Proof.
  intros w.
  apply (repl_set_equals_sign ∅ ∅ "set" "break_on_parsing = False" "break_on_parsing"
           "=" "False" w); reflexivity.
Defined.

Lemma from_str_empty (frames depth : nat) (b : Breakpoint) :
  from_str frames depth EmptyString <> Returned (Some b).
Proof. destruct depth as [|[|d]]; discriminate. Qed.

Section PromptRounds.

Variable TEST_TYPES : gset nat.
Variable PARSERS : gmap string (gset nat).
Variable render_where :
  MagicTest -> Z -> option TestResult -> option TestResult -> World -> list string.
Variable parse_test : string -> MagicTest -> option MagicTest + string.
Variable has_parent : MagicTest -> bool.
Variable run_test :
  MagicTest -> bytes -> Z -> option TestResult -> World ->
  outcome (option TestResult) * World.
Variable Offset : Type.
Variable Offset_parse : string -> Offset + string.
Variable Offset_to_absolute : Offset -> bytes -> option TestResult -> Z + string.
Variable exn_text : exn -> string.
Variable Wildcard_parse_frames : nat.
Variable depth : nat.

Local Abbreviation loop :=
  (repl_loop TEST_TYPES PARSERS render_where parse_test has_parent run_test Offset
     Offset_parse Offset_to_absolute exn_text Wildcard_parse_frames depth).

(** X15: a line [breakpoint PATTERN] with a pattern that [from_str]
    accepts puts the new breakpoint at the end of the list, so that its
    index is the number of breakpoints there were; a following line
    [delete] with that index takes it out again.  After the two lines the
    list of breakpoints is what it was, and the debugger differs from the
    one before them in nothing but the last command, which is the
    [delete] as typed. *)
Theorem breakpoint_add_then_delete (text text' : string) (rest : list string)
    (parsed : Breakpoint) (w : World) :
  text <> EmptyString -> text' <> EmptyString ->
  repl_branch (fst (split_command text)) = branch_breakpoint ->
  repl_branch (fst (split_command text')) = branch_delete ->
  from_str Wildcard_parse_frames depth (snd (split_command text))
  = Returned (Some parsed) ->
  int (snd (split_command text'))
  = Returned (Z.of_nat (List.length (breakpoints (dbg w)))) ->
  loop (text :: text' :: rest) w
  = (let '(more, e, w', rest') :=
       loop rest
         (with_dbg (assign (assign_last_command (Some (fst (split_command text'))))) w) in
     ([Breakpoint_str parsed; newline;
       "Deleted " +:+ Breakpoint_str parsed +:+ newline] ++ more,
      e, w', rest')).
Proof.
  intros Hne Hne' Hb Hb' Hfrom Hint.
  cbn [repl_loop]. destruct text as [|c s]; [contradiction|].
  cbn [truthy_str]. unfold repl_command at 1.
  destruct (split_command (String c s)) as [command args]. cbn [fst snd] in *.
  rewrite Hb. unfold repl_breakpoint.
  assert (Hargs : args <> EmptyString).
  { intros ->. exact (from_str_empty Wildcard_parse_frames depth parsed Hfrom). }
  rewrite (truthy_str_nonempty args Hargs), Hfrom.
  destruct text' as [|c' s']; [contradiction|].
  cbn [truthy_str]. unfold repl_command.
  destruct (split_command (String c' s')) as [command' args']. cbn [fst snd] in *.
  rewrite Hb'.
  assert (Hargs' : args' <> EmptyString).
  { intros ->. discriminate. }
  set (w1 := with_dbg (assign (assign_last_command (Some command)))
               (with_dbg (fun d => set_breakpoints (breakpoints d ++ [parsed]) d) w)).
  assert (Hbs : breakpoints (dbg w1) = breakpoints (dbg w) ++ [parsed]) by reflexivity.
  rewrite (repl_delete_at command' args' w1
             (Z.of_nat (List.length (breakpoints (dbg w)))) parsed Hargs' Hint);
    [|lia|rewrite Hbs, Nat2Z.id; apply list_lookup_middle; reflexivity].
  rewrite Hbs, Nat2Z.id, delete_middle, app_nil_r.
  replace (with_dbg (assign (assign_last_command (Some command')))
             (with_dbg (set_breakpoints (breakpoints (dbg w))) w1))
    with (with_dbg (assign (assign_last_command (Some command'))) w).
  - destruct (repl_loop _ _ _ _ _ _ _ _ _ _ _ _ rest _) as [[[more e] w'] rest'].
    reflexivity.
  - subst w1. destruct w as [d v trs prs ct pa]. destruct d. reflexivity.
Qed.

(** The branch [test] ends in one of three ways. *)
Lemma repl_test_branch_flow (command args : string) (w : World) :
  let f := snd (repl_test_branch render_where parse_test has_parent run_test exn_text
                  command args w) in
  f = fall_through command \/ f = next_iteration \/ exists e, f = fail e.
Proof.
  unfold repl_test_branch.
  destruct (truthy_str args); [|auto].
  destruct (last_test (dbg w)) as [parent|]; [|auto].
  destruct (parse_test args parent) as [[t|]|text]; auto.
  match goal with
  | |- context [with_save_context ?body w] =>
      destruct (with_save_context body w) as [[result|e] w1]
  end; [auto|].
  destruct e; cbn; eauto.
Qed.

(** The branch [test] gives back the attributes of the debugger as it
    found them. *)
Lemma repl_test_branch_dbg (command args : string) (w : World) :
  dbg (snd (fst (repl_test_branch render_where parse_test has_parent run_test exn_text
                   command args w))) = dbg w.
Proof.
  unfold repl_test_branch.
  destruct (truthy_str args); [|reflexivity].
  destruct (last_test (dbg w)) as [parent|]; [|reflexivity].
  destruct (parse_test args parent) as [[t|]|text]; try reflexivity.
  match goal with
  | |- context [with_save_context ?body w] =>
      pose proof (proj1 (with_save_context_restores body w)) as Hrestore;
      destruct (with_save_context body w) as [[result|e] w1]
  end.
  - exact Hrestore.
  - destruct e; exact Hrestore.
Qed.

(** X17: a line whose command selects [test] leaves no trace of the typed
    test in the attributes that describe the last test run, however the
    test ends and whatever it does to them while it runs: the last test,
    its input, offset, parent match and result, the step mode and
    [repl_test] are, when the loop goes on or the exception leaves it,
    what they were before the line.  The last command is left as it was
    or becomes the command as typed. *)
Theorem repl_test_keeps_context (text : string) (rest : list string) (w : World) :
  text <> EmptyString ->
  repl_branch (fst (split_command text)) = branch_test ->
  exists (written : list string) (w1 : World),
    last_test (dbg w1) = last_test (dbg w)
    /\ data (dbg w1) = data (dbg w)
    /\ last_offset (dbg w1) = last_offset (dbg w)
    /\ last_parent_match (dbg w1) = last_parent_match (dbg w)
    /\ last_result (dbg w1) = last_result (dbg w)
    /\ step_mode (dbg w1) = step_mode (dbg w)
    /\ repl_test (dbg w1) = repl_test (dbg w)
    /\ (last_command (dbg w1) = last_command (dbg w)
        \/ last_command (dbg w1) = Some (fst (split_command text)))
    /\ ((exists e, loop (text :: rest) w = (written, Raised_out e, w1, rest))
        \/ loop (text :: rest) w
           = (let '(more, e, w2, rest') := loop rest w1 in
              (written ++ more, e, w2, rest'))).
Proof.
  intros Hne Hb. cbn [repl_loop]. destruct text as [|c s]; [contradiction|].
  cbn [truthy_str]. unfold repl_command.
  destruct (split_command (String c s)) as [command args]. cbn [fst] in *.
  rewrite Hb.
  pose proof (repl_test_branch_flow command args w) as Hflow.
  pose proof (repl_test_branch_dbg command args w) as Hdbg.
  destruct (repl_test_branch render_where parse_test has_parent run_test exn_text
              command args w) as [[written w1] f].
  cbn [fst snd] in Hflow, Hdbg.
  destruct Hflow as [->|[->|[e ->]]].
  - exists written, (with_dbg (assign (assign_last_command (Some command))) w1).
    cbn [with_dbg dbg assign last_test data last_offset last_parent_match last_result
         step_mode repl_test last_command].
    rewrite Hdbg. repeat (split; [reflexivity|]). split; [right; reflexivity|].
    right. reflexivity.
  - exists written, w1. rewrite Hdbg. repeat (split; [reflexivity|]).
    split; [left; reflexivity|]. right. reflexivity.
  - exists written, w1. rewrite Hdbg. repeat (split; [reflexivity|]).
    split; [left; reflexivity|]. left. exists e. reflexivity.
Qed.

End PromptRounds.

(** A breakpoint on a MIME type added to a list of one and deleted
    again. *)
Lemma breakpoint_add_then_delete_witness :
  let w := with_dbg (set_breakpoints [ExtensionBreakpoint "pdf"]) (fresh_world true ∅ ∅) in
  repl_loop ∅ ∅ (fun _ _ _ _ _ => []) (fun _ _ => inr "no test") (fun _ => true)
    (fun _ _ _ _ w0 => (Returned None, w0)) unit (fun _ => inr "no offset")
    (fun _ _ _ => inr "no offset") (fun _ => EmptyString) 1 100
    ["b MIME:application/zip"; "delete 1"] w
  = ([Breakpoint_str (MimeBreakpoint "application/zip"); newline;
      "Deleted " +:+ Breakpoint_str (MimeBreakpoint "application/zip") +:+ newline],
     Exited 0, with_dbg (assign (assign_last_command (Some "delete"))) w, []).
Proof.
  intros w.
  apply (breakpoint_add_then_delete ∅ ∅ (fun _ _ _ _ _ => []) (fun _ _ => inr "no test")
           (fun _ => true) (fun _ _ _ _ w0 => (Returned None, w0)) unit
           (fun _ => inr "no offset") (fun _ _ _ => inr "no offset")
           (fun _ => EmptyString) 1 100 "b MIME:application/zip" "delete 1" []
           (MimeBreakpoint "application/zip") w);
    [discriminate|discriminate|reflexivity|reflexivity|reflexivity|reflexivity].
Defined.

(** A test typed at the prompt after a first test has run; the typed test
    has no parent, so the offset and the result are reset while it runs. *)
Lemma repl_test_keeps_context_witness :
  let T := {| test_id := 1; test_class := 0; mimetypes := ∅; all_extensions := ∅;
              source_info := None |} in
  let typed := {| test_id := 2; test_class := 0; mimetypes := ∅; all_extensions := ∅;
                  source_info := None |} in
  let w := record_call T [] 7 None (Some (MatchedTest (Some 4)))
             (fresh_world true ∅ ∅) in
  exists (written : list string) (w1 : World),
    last_test (dbg w1) = last_test (dbg w)
    /\ data (dbg w1) = data (dbg w)
    /\ last_offset (dbg w1) = last_offset (dbg w)
    /\ last_parent_match (dbg w1) = last_parent_match (dbg w)
    /\ last_result (dbg w1) = last_result (dbg w)
    /\ step_mode (dbg w1) = step_mode (dbg w)
    /\ repl_test (dbg w1) = repl_test (dbg w)
    /\ (last_command (dbg w1) = last_command (dbg w)
        \/ last_command (dbg w1) = Some (fst (split_command "test 0 string x")))
    /\ ((exists e,
           repl_loop ∅ ∅ (fun _ _ _ _ _ => []) (fun _ _ => inl (Some typed))
             (fun _ => false) (fun _ _ _ _ w0 => (Returned None, w0)) unit
             (fun _ => inr "no offset") (fun _ _ _ => inr "no offset")
             (fun _ => EmptyString) 1 100 ["test 0 string x"] w
           = (written, Raised_out e, w1, []))
        \/ repl_loop ∅ ∅ (fun _ _ _ _ _ => []) (fun _ _ => inl (Some typed))
             (fun _ => false) (fun _ _ _ _ w0 => (Returned None, w0)) unit
             (fun _ => inr "no offset") (fun _ _ _ => inr "no offset")
             (fun _ => EmptyString) 1 100 ["test 0 string x"] w
           = (let '(more, e, w2, rest') :=
                repl_loop ∅ ∅ (fun _ _ _ _ _ => []) (fun _ _ => inl (Some typed))
                  (fun _ => false) (fun _ _ _ _ w0 => (Returned None, w0)) unit
                  (fun _ => inr "no offset") (fun _ _ _ => inr "no offset")
                  (fun _ => EmptyString) 1 100 [] w1 in
              (written ++ more, e, w2, rest'))).
Proof.
  intros T typed w.
  apply (repl_test_keeps_context ∅ ∅ (fun _ _ _ _ _ => [])
           (fun _ _ => inl (Some typed)) (fun _ => false)
           (fun _ _ _ _ w0 => (Returned None, w0)) unit
           (fun _ => inr "no offset") (fun _ _ _ => inr "no offset")
           (fun _ => EmptyString) 1 100 "test 0 string x" [] w);
    [discriminate|reflexivity].
Defined.

(** ** Instrumentation over sequences of operations *)

(** Every sequence of operations keeps the instrumentation well formed,
    in a host where no parser is registered twice. *)
Lemma run_operations_well (TEST_TYPES : gset nat) (PARSERS : gmap string (gset nat))
    (ops : list operation) (w : World) :
  NoDup (parsers_in_order PARSERS) ->
  instrumented_tests (dbg w) = [] -> instrumented_parsers (dbg w) = [] ->
  well_instrumented (class_test w) (Parser_parse w)
    (run_operations TEST_TYPES PARSERS ops w).
Proof.
  intros Hnd Ht Hp. unfold run_operations.
  apply (fold_left_preserves (well_instrumented (class_test w) (Parser_parse w))).
  - intros a o Ha. apply run_operation_well; assumption.
  - unfold well_instrumented. rewrite Ht, Hp.
    split; [|split; [|split]].
    + split; [apply NoDup_nil_2|]. split; [intros a Hin; inversion Hin|reflexivity].
    + intros a Hin. inversion Hin.
    + split; [apply NoDup_nil_2|]. split; [intros a Hin; inversion Hin|reflexivity].
    + intros a Hin. inversion Hin.
Qed.

(** X18: in a host where no parser is registered for two MIME types,
    disabling the debugger after any sequence of assignments to [enabled],
    entries and exits of its context and assignments to [break_on_parsing]
    gives every test class the [test] function and every parser the
    [parse] function it had before the debugger first touched them, and
    leaves no instrumentation object listed. *)
Theorem disable_restores_host (TEST_TYPES : gset nat) (PARSERS : gmap string (gset nat))
    (ops : list operation) (w : World) :
  NoDup (parsers_in_order PARSERS) ->
  instrumented_tests (dbg w) = [] -> instrumented_parsers (dbg w) = [] ->
  let final :=
    Debugger_set_enabled TEST_TYPES PARSERS false
      (run_operations TEST_TYPES PARSERS ops w) in
  class_test final = class_test w
  /\ (forall p, Parser_parse final p = Parser_parse w p)
  /\ instrumented_tests (dbg final) = []
  /\ instrumented_parsers (dbg final) = [].
Proof.
  intros Hnd Ht Hp final.
  pose proof (run_operations_well TEST_TYPES PARSERS ops w Hnd Ht Hp) as Hw.
  subst final. unfold Debugger_set_enabled.
  destruct (Debugger__uninstrument_restores _ _ _ Hw) as [Hct Hpp].
  destruct (Debugger__uninstrument_lists (run_operations TEST_TYPES PARSERS ops w))
    as [Hlt Hlp].
  repeat split; assumption.
Qed.

(** One test class, one parser; the debugger is entered, told not to break
    on parsing, enabled again and then disabled. *)
Lemma disable_restores_host_witness :
  let TEST_TYPES : gset nat := {[ 0%nat ]} in
  let PARSERS : gmap string (gset nat) := {[ "application/zip" := {[ 7%nat ]} ]} in
  let w := fresh_world true {[ 0%nat := Native 0 ]} ∅ in
  let final :=
    Debugger_set_enabled TEST_TYPES PARSERS false
      (run_operations TEST_TYPES PARSERS
         [op_enter; op_set_break_on_parsing false; op_set_enabled true] w) in
  class_test final = class_test w
  /\ (forall p, Parser_parse final p = Parser_parse w p)
  /\ instrumented_tests (dbg final) = []
  /\ instrumented_parsers (dbg final) = [].
Proof.
  intros TEST_TYPES PARSERS w.
  apply (disable_restores_host TEST_TYPES PARSERS
           [op_enter; op_set_break_on_parsing false; op_set_enabled true] w).
  - vm_compute. apply NoDup_singleton.
  - reflexivity.
  - reflexivity.
Defined.

(** X19: in such a host, after any sequence of these operations every
    listed instrumentation object of a test class holds the function that
    the class had before the debugger touched it, and the class holds the
    wrapper of that object; likewise for parsers.  A wrapper therefore
    never wraps another wrapper, and a class or parser without a listed
    object holds its own function. *)
Theorem hooks_hold_host_functions (TEST_TYPES : gset nat)
    (PARSERS : gmap string (gset nat)) (ops : list operation) (w : World) :
  NoDup (parsers_in_order PARSERS) ->
  instrumented_tests (dbg w) = [] -> instrumented_parsers (dbg w) = [] ->
  let w' := run_operations TEST_TYPES PARSERS ops w in
  (forall a, a ∈ instrumented_tests (dbg w') ->
     exists k f,
       test_records w' !! a = Some {| test := k; original_test := Some f |}
       /\ class_test w !! k = Some f
       /\ class_test w' !! k = Some (Hook a))
  /\ (forall a, a ∈ instrumented_parsers (dbg w') ->
        exists p,
          parser_records w' !! a
          = Some {| parser := p; original_parser := Some (Parser_parse w p) |}
          /\ Parser_parse w' p = Hook a)
  /\ (forall k,
        (forall a r, a ∈ instrumented_tests (dbg w') -> test_records w' !! a = Some r ->
                     test r <> k) ->
        Class_test w' k = Class_test w k)
  /\ (forall p,
        (forall a r, a ∈ instrumented_parsers (dbg w') ->
                     parser_records w' !! a = Some r -> parser r <> p) ->
        Parser_parse w' p = Parser_parse w p).
Proof.
  intros Hnd Ht Hp w'.
  destruct (run_operations_well TEST_TYPES PARSERS ops w Hnd Ht Hp)
    as ((_ & Ha & Hc) & _ & (_ & Hpa & Hpc) & _).
  fold w' in Ha, Hc, Hpa, Hpc.
  split; [|split; [|split]].
  - intros a Hin. destruct (Ha a Hin) as (k & f & Hrec & Hct & Hb).
    exists k, f. auto.
  - intros a Hin. destruct (Hpa a Hin) as (p & Hrec & Hattr).
    exists p. split; [exact Hrec|]. unfold Parser_parse at 1. rewrite Hattr. reflexivity.
  - intros k Hfree. unfold Class_test. rewrite (Hc k Hfree). reflexivity.
  - exact Hpc.
Qed.

(** The same host after entering the debugger: the class and the parser
    hold the wrappers of the two objects. *)
Lemma hooks_hold_host_functions_witness :
  let TEST_TYPES : gset nat := {[ 0%nat ]} in
  let PARSERS : gmap string (gset nat) := {[ "application/zip" := {[ 7%nat ]} ]} in
  let w := fresh_world true {[ 0%nat := Native 0 ]} ∅ in
  let w' := run_operations TEST_TYPES PARSERS [op_enter; op_set_enabled true] w in
  instrumented_tests (dbg w') = [1%nat]
  /\ exists k f,
       test_records w' !! 1%nat = Some {| test := k; original_test := Some f |}
       /\ class_test w !! k = Some f
       /\ class_test w' !! k = Some (Hook 1).
Proof.
  intros TEST_TYPES PARSERS w w'. split; [vm_compute; reflexivity|].
  apply (proj1 (hooks_hold_host_functions TEST_TYPES PARSERS
                  [op_enter; op_set_enabled true] w
                  ltac:(vm_compute; apply NoDup_singleton)
                  eq_refl eq_refl) 1%nat).
  vm_compute. left.
Defined.

(** X20: entering the debugger as a context manager while it is already
    entered, and leaving that inner context, changes nothing but the
    counter in between: after any number of such entries and as many exits
    the debugger and the instrumentation are exactly as before. *)
Theorem Debugger_enter_exit_nested (TEST_TYPES : gset nat)
    (PARSERS : gmap string (gset nat)) (n : nat) (w : World) :
  1 <= _entries (dbg w) ->
  Nat.iter n (Debugger_exit TEST_TYPES PARSERS)
    (Nat.iter n (Debugger_enter TEST_TYPES PARSERS) w) = w.
Proof.
  revert w. induction n as [|n IH]; intros w He; [reflexivity|].
  rewrite Nat.iter_succ_r with (f := Debugger_enter TEST_TYPES PARSERS).
  rewrite Nat.iter_succ with (f := Debugger_exit TEST_TYPES PARSERS).
  assert (Henter : Debugger_enter TEST_TYPES PARSERS w
                   = with_dbg (fun d => set__entries (_entries d + 1) d) w).
  { unfold Debugger_enter. cbn [with_dbg dbg set__entries _entries].
    destruct (Z.eqb_spec (_entries (dbg w) + 1) 1) as [?|_]; [lia|reflexivity]. }
  rewrite Henter, IH by (cbn [with_dbg dbg set__entries _entries]; lia).
  unfold Debugger_exit. cbn [with_dbg dbg set__entries _entries].
  rewrite !Z.add_simpl_r.
  destruct (Z.eqb_spec (_entries (dbg w)) 0) as [?|_]; [lia|].
  destruct w as [d v trs prs ct pa]. destruct d.
  unfold with_dbg, set__entries. cbn -[Z.add Z.sub].
  rewrite Z.add_simpl_r. reflexivity.
Qed.

(** Two inner contexts inside an outer one. *)
Lemma Debugger_enter_exit_nested_witness :
  let w := Debugger_enter {[ 0%nat ]} ∅ (fresh_world true {[ 0%nat := Native 0 ]} ∅) in
  Nat.iter 2 (Debugger_exit {[ 0%nat ]} ∅) (Nat.iter 2 (Debugger_enter {[ 0%nat ]} ∅) w)
  = w.
Proof.
  intros w. apply (Debugger_enter_exit_nested {[ 0%nat ]} ∅ 2 w). vm_compute. discriminate.
Defined.

(** ** What [enabled] reads *)

(** The classes that [_instrument] meets add their objects at the end of
    the list, and it adds none exactly when no class has a [test] of its
    own. *)
Lemma instrument_tests_added (ks : list nat) :
  forall w,
    let w' :=
      fold_left
        (fun w k =>
           if bool_decide (is_Some (class_test w !! k)) then
             let '(t, w') := InstrumentedTest_init k w in
             with_dbg (fun d => set_instrumented_tests (instrumented_tests d ++ [t]) d) w'
           else w)
        ks w in
    exists added,
      instrumented_tests (dbg w') = instrumented_tests (dbg w) ++ added
      /\ (added = [] <-> forall k, k ∈ ks -> class_test w !! k = None).
Proof.
  induction ks as [|k ks IH]; intros w; cbn [fold_left].
  { exists []. rewrite app_nil_r. split; [reflexivity|].
    split; [intros _ k Hk; inversion Hk|reflexivity]. }
  destruct (bool_decide_reflect (is_Some (class_test w !! k))) as [[f Hf]|Hnone].
  - destruct (InstrumentedTest_init k w) as [t w0] eqn:Hinit.
    assert (Hw0 : instrumented_tests (dbg w0) = instrumented_tests (dbg w)).
    { unfold InstrumentedTest_init in Hinit. rewrite Hf in Hinit.
      injection Hinit as _ <-. reflexivity. }
    destruct (IH (with_dbg (fun d => set_instrumented_tests (instrumented_tests d ++ [t]) d)
                    w0)) as (added & Hl & _).
    exists (t :: added). split.
    + rewrite Hl. cbn [with_dbg dbg set_instrumented_tests instrumented_tests].
      rewrite Hw0, <- app_assoc. reflexivity.
    + split; [discriminate|]. intros Hall.
      rewrite (Hall k) in Hf by left. discriminate.
  - destruct (IH w) as (added & Hl & Hiff). exists added. split; [exact Hl|].
    rewrite Hiff. split.
    + intros Hall k' [Heq|Hin]%elem_of_cons; [subst k'|auto].
      destruct (class_test w !! k) eqn:Hk; [|reflexivity].
      exfalso. apply Hnone. eauto.
    + intros Hall k' Hin. apply Hall. right. exact Hin.
Qed.

(** Putting up the parser hooks does not touch the objects of the test
    classes. *)
Lemma instrument_parsers_tests (ps : list nat) (w : World) :
  let w' :=
    fold_left
      (fun w p =>
         let '(m, w') := InstrumentedParser_init p w in
         with_dbg (fun d => set_instrumented_parsers (instrumented_parsers d ++ [m]) d) w')
      ps w in
  test_records w' = test_records w
  /\ instrumented_tests (dbg w') = instrumented_tests (dbg w).
Proof.
  apply (fold_left_preserves
           (fun w' => test_records w' = test_records w
                      /\ instrumented_tests (dbg w') = instrumented_tests (dbg w)));
    [|split; reflexivity].
  intros a p [H1 H2]. split; [exact H1|exact H2].
Qed.

(** X21: [enabled] reads the test classes only.  After [enabled = True] on
    a debugger without instrumentation it is [True] exactly when some
    registered test class defines [test] itself; the parsers that were
    hooked do not count. *)
Theorem Debugger_enabled_after_enabling (TEST_TYPES : gset nat)
    (PARSERS : gmap string (gset nat)) (w : World) :
  instrumented_tests (dbg w) = [] -> instrumented_parsers (dbg w) = [] ->
  Debugger_enabled (Debugger_set_enabled TEST_TYPES PARSERS true w) = true
  <-> exists k, k ∈ TEST_TYPES /\ is_Some (class_test w !! k).
Proof.
  intros Ht Hp. unfold Debugger_set_enabled.
  rewrite (Debugger__uninstrument_clean w Ht Hp). unfold Debugger__instrument.
  destruct (instrument_tests_linked (class_test w) (elements TEST_TYPES) w)
    as ((_ & Hrec & _) & _).
  { apply NoDup_elements. }
  { rewrite Ht. split; [apply NoDup_nil_2|]. split.
    - intros a Hin. inversion Hin.
    - reflexivity. }
  { rewrite Ht. intros a Hin. inversion Hin. }
  { rewrite Ht. intros a r Hin. inversion Hin. }
  destruct (instrument_tests_added (elements TEST_TYPES) w) as (added & Hl & Hiff).
  set (w1 := fold_left _ (elements TEST_TYPES) w) in *.
  rewrite Ht in Hl. cbn [app] in Hl.
  assert (Hsame : exists w2,
             (if _value (break_on_submatching_var w1)
              then fold_left
                     (fun w p =>
                        let '(m, w') := InstrumentedParser_init p w in
                        with_dbg (fun d => set_instrumented_parsers
                                             (instrumented_parsers d ++ [m]) d) w')
                     (parsers_in_order PARSERS) w1
              else w1) = w2
             /\ test_records w2 = test_records w1
             /\ instrumented_tests (dbg w2) = instrumented_tests (dbg w1)).
  { eexists. split; [reflexivity|].
    destruct (_value (break_on_submatching_var w1)); [|split; reflexivity].
    apply instrument_parsers_tests. }
  destruct Hsame as (w2 & -> & Hrecs & Hlist).
  unfold Debugger_enabled. rewrite Hlist, Hl.
  split.
  - intros Hex. destruct added as [|a rest]; [discriminate|].
    destruct (existsb (fun k => bool_decide (is_Some (class_test w !! k)))
                (elements TEST_TYPES)) eqn:Hany.
    + apply existsb_exists in Hany. destruct Hany as (k & Hin & Hk).
      apply bool_decide_eq_true in Hk. exists k. split; [|exact Hk].
      apply elem_of_elements, list_elem_of_In. exact Hin.
    + assert (Hnil : a :: rest = []); [|discriminate].
      apply Hiff. intros k Hin.
      destruct (class_test w !! k) as [f|] eqn:Hk; [|reflexivity].
      assert (Htrue : existsb (fun k => bool_decide (is_Some (class_test w !! k)))
                        (elements TEST_TYPES) = true); [|congruence].
      apply existsb_exists. exists k. split; [apply list_elem_of_In; exact Hin|].
      apply bool_decide_eq_true. rewrite Hk. eauto.
  - intros (k & Hin & Hk).
    destruct added as [|a rest].
    + destruct Hiff as [Hnone _]. specialize (Hnone eq_refl k).
      rewrite Hnone in Hk by (apply elem_of_elements; exact Hin).
      destruct Hk as [? Hk]. discriminate.
    + cbn [existsb]. apply orb_true_iff. left.
      destruct (Hrec a) as (k' & f & Ha & _); [rewrite Hl; left|].
      unfold InstrumentedTest_enabled. rewrite Hrecs, Ha. reflexivity.
Qed.

(** A host whose only test class inherits its [test], with one parser:
    the parser is hooked, and [enabled] reads [False]. *)
Lemma Debugger_enabled_after_enabling_witness :
  let TEST_TYPES : gset nat := {[ 0%nat ]} in
  let PARSERS : gmap string (gset nat) := {[ "application/zip" := {[ 7%nat ]} ]} in
  let w := fresh_world true ∅ ∅ in
  Parser_parse (Debugger_set_enabled TEST_TYPES PARSERS true w) 7 = Hook 0
  /\ (Debugger_enabled (Debugger_set_enabled TEST_TYPES PARSERS true w) = true
      <-> exists k, k ∈ TEST_TYPES /\ is_Some (class_test w !! k)).
Proof.
  intros TEST_TYPES PARSERS w. split; [vm_compute; reflexivity|].
  apply (Debugger_enabled_after_enabling TEST_TYPES PARSERS w); reflexivity.
Defined.

(** X22: after [enabled = False] the debugger holds no instrumentation
    object, [enabled] reads [False], and assigning [False] again changes
    nothing. *)
Theorem Debugger_disable_spec (TEST_TYPES : gset nat) (PARSERS : gmap string (gset nat))
    (w : World) :
  let w' := Debugger_set_enabled TEST_TYPES PARSERS false w in
  Debugger_enabled w' = false
  /\ instrumented_tests (dbg w') = []
  /\ instrumented_parsers (dbg w') = []
  /\ Debugger_set_enabled TEST_TYPES PARSERS false w' = w'.
Proof.
  intros w'. subst w'. unfold Debugger_set_enabled.
  destruct (Debugger__uninstrument_lists w) as [Ht Hp].
  split; [unfold Debugger_enabled; rewrite Ht; reflexivity|].
  split; [exact Ht|]. split; [exact Hp|].
  apply Debugger__uninstrument_clean; assumption.
Qed.

(** ** What the hook around a test leaves behind *)

(** X23: a call through the wrapper of an instrumentation object that
    holds the original function.  When the original raises, the wrapper
    raises the same and the debugger is as the original left it.  When the
    test is the one typed at the prompt, the result is passed on and
    nothing is recorded.  Otherwise, when the debugger does not stop, the
    result is passed on and the five attributes of the last test hold this
    call: the result, the test, the input, the offset and the parent
    match. *)
Theorem debug_records_call
    (native_test : nat -> MagicTest -> bytes -> Z -> option TestResult -> World ->
                   outcome (option TestResult) * World)
    (repl : World -> outcome unit * World)
    (depth : nat) (hook : nat) (r : InstrumentedTest) (f : callable)
    (T : MagicTest) (input : bytes) (absolute_offset : Z)
    (parent_match : option TestResult) (w : World) :
  test_records w !! hook = Some r ->
  original_test r = Some f ->
  let inner := call_test native_test repl depth f T input absolute_offset parent_match w in
  let outer :=
    call_test native_test repl (S depth) (Hook hook) T input absolute_offset
      parent_match w in
  (forall e w1, inner = (Raised e, w1) -> outer = (Raised e, w1))
  /\ (forall result w1,
        inner = (Returned result, w1) ->
        is_same_test (repl_test (dbg w1)) T = true ->
        outer = (Returned result, w1))
  /\ (forall result w1,
        inner = (Returned result, w1) ->
        is_same_test (repl_test (dbg w1)) T = false ->
        enters_repl T input absolute_offset parent_match result w1 = false ->
        outer = (Returned result,
                 record_call T input absolute_offset parent_match result w1)
        /\ last_result (dbg (snd outer)) = result
        /\ last_test (dbg (snd outer)) = Some T
        /\ data (dbg (snd outer)) = input
        /\ last_offset (dbg (snd outer)) = absolute_offset
        /\ last_parent_match (dbg (snd outer)) = parent_match).
Proof.
  intros Hr Hf inner outer.
  assert (Houter : outer
                   = Debugger_debug repl (call_test native_test repl depth) hook T input
                       absolute_offset parent_match w) by reflexivity.
  unfold Debugger_debug in Houter. rewrite Hr, Hf in Houter. fold inner in Houter.
  split; [|split].
  - intros e w1 Hin. rewrite Hin in Houter. exact Houter.
  - intros result w1 Hin Hsame. rewrite Hin, Hsame in Houter. exact Houter.
  - intros result w1 Hin Hsame Hquiet. rewrite Hin, Hsame in Houter.
    unfold enters_repl in Hquiet. rewrite Hsame in Hquiet. cbn [negb andb] in Hquiet.
    destruct (Debugger_should_break
                (dbg (record_call T input absolute_offset parent_match result w1)))
      as [v|e] eqn:Hsb.
    + rewrite Hquiet in Houter. rewrite Houter. repeat split; reflexivity.
    + destruct (Debugger_should_break_returns
                  (dbg (record_call T input absolute_offset parent_match result w1)) T)
        as [v Hv]; [reflexivity|].
      rewrite Hv in Hsb. discriminate.
Qed.

(** A class whose test matches four bytes, instrumented by enabling the
    debugger, which is running with no breakpoint. *)
Lemma debug_records_call_witness :
  let native_test :=
    fun (k : nat) (t : MagicTest) (input : bytes) (o : Z) (p : option TestResult)
        (w : World) => (Returned (Some (MatchedTest (Some 4))), w) in
  let repl := fun w : World => (Returned tt, w) in
  let T := {| test_id := 1; test_class := 0; mimetypes := {[ "application/zip" ]};
              all_extensions := {[ "zip" ]}; source_info := None |} in
  let w := Debugger_set_enabled {[ 0%nat ]} ∅ true
             (fresh_world true {[ 0%nat := Native 0 ]} ∅) in
  call_test native_test repl 1 (Hook 0) T [] 7 None w
  = (Returned (Some (MatchedTest (Some 4))),
     record_call T [] 7 None (Some (MatchedTest (Some 4))) w).
Proof.
  intros native_test repl T w.
  apply (proj2 (proj2 (debug_records_call native_test repl 0 0
                         {| test := 0; original_test := Some (Native 0) |} (Native 0)
                         T [] 7 None w eq_refl eq_refl))
           (Some (MatchedTest (Some 4))) w eq_refl); vm_compute; reflexivity.
Defined.

(** ** The descendants that [where] prints *)

Lemma list_sum_rev (l : list nat) : list_sum (rev l) = list_sum l.
Proof.
  induction l as [|x l IH]; [reflexivity|].
  cbn [rev]. rewrite list_sum_app, IH. simpl. lia.
Qed.

Lemma pop_snoc {A : Type} (l : list A) (x : A) : pop (l ++ [x]) = Some (x, l).
Proof. unfold pop. rewrite rev_unit, rev_involutive. reflexivity. Qed.

Lemma matching_preorder_unfold (t : TestNode) :
  matching_preorder t
  = if can_match_mime t then t :: flat_map matching_preorder (children t) else [].
Proof. destruct t; reflexivity. Qed.

Lemma node_size_unfold (t : TestNode) :
  node_size t = S (list_sum (map node_size (children t))).
Proof. destruct t; reflexivity. Qed.

(** The loop, from any stack and any list collected so far. *)
Lemma collect_descendants_spec (fuel : nat) :
  forall test_stack descendants,
    (list_sum (map node_size test_stack) < fuel)%nat ->
    collect_descendants fuel test_stack descendants
    = Some (descendants ++ flat_map matching_preorder (rev test_stack)).
Proof.
  induction fuel as [|fuel IH]; intros test_stack descendants Hfuel; [lia|].
  cbn [collect_descendants].
  destruct test_stack as [|x l _] using rev_ind.
  { cbn. rewrite app_nil_r. reflexivity. }
  rewrite pop_snoc. rewrite rev_unit. cbn [flat_map].
  rewrite map_app, list_sum_app in Hfuel. simpl in Hfuel.
  rewrite node_size_unfold in Hfuel.
  rewrite (matching_preorder_unfold x).
  destruct (can_match_mime x).
  - rewrite IH.
    + rewrite rev_app_distr, rev_involutive, flat_map_app.
      rewrite <- !app_assoc. reflexivity.
    + rewrite map_app, list_sum_app, map_rev, list_sum_rev. lia.
  - rewrite IH by lia. reflexivity.
Qed.

(** X24: the tests that [where] prints below the current test are its
    descendants in depth-first order, each test before its children and
    the children in their order; a test that cannot match a MIME type is
    left out together with everything below it.  The loop ends within as
    many rounds as the current test has descendants, plus one. *)
Theorem print_where_descendants_preorder (fuel : nat) (test : TestNode) :
  (node_size test <= fuel)%nat ->
  print_where_descendants fuel test
  = Some (flat_map matching_preorder (children test)).
Proof.
  intros Hfuel. unfold print_where_descendants.
  rewrite collect_descendants_spec.
  - rewrite rev_involutive. reflexivity.
  - rewrite node_size_unfold in Hfuel. rewrite map_rev, list_sum_rev. lia.
Qed.

(** A test with three children; the second cannot match a MIME type and
    has a child that can, the third has a child. *)
Lemma print_where_descendants_preorder_witness :
  let t5 := mk_node 5 true [] in
  let t4 := mk_node 4 true [] in
  let t3 := mk_node 3 true [t5] in
  let t2 := mk_node 2 false [t4] in
  let t1 := mk_node 1 true [] in
  let test := mk_node 0 true [t1; t2; t3] in
  print_where_descendants 6 test = Some [t1; t3; t5].
Proof.
  intros t5 t4 t3 t2 t1 test.
  apply (print_where_descendants_preorder 6 test). vm_compute. apply le_n.
Defined.
